(** * Dashboard chart generation (eafitV2): a shallow embedding

    The repository holds two chart-generation scripts,
    [Dashboardv3/GenerateCharts.py] (a flat script, called v3 below) and
    [Dashboradv2/index.py] (functions called from [main], called v2 below).
    Both load a CSV table of company assessments and a JSON brand file,
    aggregate the table with pandas and hand the aggregates to plotly.

    This file embeds the data preparation of the charts, the text helper
    [wrap_text], and the control flow around the input files.

    Conventions of the embedding:
    - a Python [str] is a [string]; a character is an [ascii], read as a code
      point below 256, so [len] counts characters;
    - a float is an exact rational [Qc]; the float [NaN] that pandas uses as
      its null marker is the separate cell [NaN];
    - an exception is a value [Raise e] of the type [result];
    - pandas' parser of numeric literals is an interface, [FloatParser]. *)

From Stdlib Require Import QArith Qcanon ZArith String Ascii List Lia.
From stdpp Require Import base tactics option list numbers strings sorting gmap.

Local Open Scope string_scope.
Local Open Scope list_scope.

(** ** Text helpers (Python [str]) *)

Module Text.

(** [len(text)] *)
Definition len (s : string) : Z := Z.of_nat (String.length s).

(** [c.isspace()] for a code point below 256. *)
Definition isspace (c : ascii) : bool :=
  let n := nat_of_ascii c in
  ((9 <=? n)%nat && (n <=? 13)%nat) || ((28 <=? n)%nat && (n <=? 32)%nat)
  || (n =? 133)%nat || (n =? 160)%nat.

Definition nonempty (s : string) : bool :=
  match s with EmptyString => false | String _ _ => true end.

(** [text.split()]: the maximal runs of non-whitespace characters.
    [cur] is the run being read. *)
Fixpoint split_from (cur : string) (s : string) : list string :=
  match s with
  | EmptyString => if nonempty cur then [cur] else []
  | String c s' =>
      if isspace c
      then (if nonempty cur then cur :: split_from "" s' else split_from "" s')
      else split_from (cur ++ String c "") s'
  end.

Definition split (text : string) : list string := split_from "" text.

(** [sep.join(parts)] *)
Definition join (sep : string) (parts : list string) : string :=
  String.concat sep parts.



(** The loop of [wrap_text]:

      for word in words:
          if current_length + len(word) + len(current_line) > max_length and current_line:
              lines.append(' '.join(current_line))
              current_line = [word]
              current_length = len(word)
          else:
              current_line.append(word)
              current_length += len(word)
*)
Fixpoint wrap_loop (max_length : Z) (words : list string)
    (lines : list string) (current_line : list string) (current_length : Z)
  : list string * list string :=
  match words with
  | [] => (lines, current_line)
  | word :: rest =>
      if (current_length + len word + Z.of_nat (length current_line) >? max_length)%Z
         && negb (bool_decide (current_line = []))
      then wrap_loop max_length rest
             (lines ++ [join " " current_line]) [word] (len word)
      else wrap_loop max_length rest
             lines (current_line ++ [word]) (current_length + len word)%Z
  end.

(** [wrap_text(text, max_length=25)] *)
Definition wrap_text (text : string) (max_length : Z) : string :=
  if (len text <=? max_length)%Z then text
  else
    let words := split text in
    let '(lines, current_line) := wrap_loop max_length words [] [] 0 in
    let lines :=
      if negb (bool_decide (current_line = []))
      then lines ++ [join " " current_line] else lines in
    join "<br>" lines.

Definition wrap_text_default (text : string) : string := wrap_text text 25.

(** *** The wording of the specification

    Greedy packing: the first word opens the first line; each next word is
    put on the current line after a space, unless the line would then be
    longer than the threshold, in which case the word opens a new line. *)
Fixpoint pack_from (max_length : Z) (line : string) (words : list string)
  : list string :=
  match words with
  | [] => [line]
  | w :: rest =>
      if (len (line ++ " " ++ w) >? max_length)%Z
      then line :: pack_from max_length w rest
      else pack_from max_length (line ++ " " ++ w) rest
  end.

Definition greedy_lines (max_length : Z) (words : list string) : list string :=
  match words with
  | [] => []
  | w :: rest => pack_from max_length w rest
  end.

(** The same packing, keeping the words of each line apart. *)
Fixpoint group_from (max_length : Z) (line : list string) (words : list string)
  : list (list string) :=
  match words with
  | [] => [line]
  | w :: rest =>
      if (len (join " " (line ++ [w])) >? max_length)%Z
      then line :: group_from max_length [w] rest
      else group_from max_length (line ++ [w]) rest
  end.

Definition greedy_groups (max_length : Z) (words : list string)
  : list (list string) :=
  match words with
  | [] => []
  | w :: rest => group_from max_length [w] rest
  end.


(** [sep in s] *)
Fixpoint contains (sep s : string) : bool :=
  match s with
  | EmptyString => String.prefix sep EmptyString
  | String _ s' => String.prefix sep s || contains sep s'
  end.

(** No whitespace at all. *)
Fixpoint no_space (s : string) : bool :=
  match s with
  | EmptyString => true
  | String c s' => negb (isspace c) && no_space s'
  end.

(** The only whitespace is the space character. *)
Fixpoint plain_spaces (s : string) : bool :=
  match s with
  | EmptyString => true
  | String c s' => (negb (isspace c) || Ascii.eqb c " ") && plain_spaces s'
  end.


End Text.

(** ** Exceptions *)

Inductive exn :=
| FileNotFoundError (filename : string)
| KeyError (key : string)
| TypeError
| ValueError
| ZeroDivisionError.

Inductive result (A : Type) :=
| Ok (a : A)
| Raise (e : exn).
Arguments Ok {A} a.
Arguments Raise {A} e.

#[global] Instance result_ret : MRet result := @Ok.
#[global] Instance result_bind : MBind result := fun A B f m =>
  match m with Ok a => f a | Raise e => Raise e end.
#[global] Instance result_fmap : FMap result := fun A B f m =>
  match m with Ok a => Ok (f a) | Raise e => Raise e end.

Definition is_Ok {A} (m : result A) : Prop := exists a, m = Ok a.

(** ** The part of pandas that the scripts use *)

Module Pandas.

Local Open Scope Qc_scope.

(** A cell of a table: the null marker, a number, or a string. *)
Inductive cell :=
| NaN
| Num (q : Qc)
| Str (s : string).

#[global] Instance cell_eq_dec : EqDecision cell.
Proof. solve_decision. Defined.

(** A column. *)
Abbreviation Series := (list cell).

(** A table as [read_csv] delivers it: the header and the rows. *)
Record DataFrame := mkDataFrame {
  columns : list string;
  values : list (list cell)
}.

(** pandas' conversion of a string to a float, [None] when the string is
    not a numeric literal. *)
Class FloatParser := parse_float : string -> option Qc.

Definition isna (c : cell) : bool :=
  match c with NaN => true | _ => false end.
Definition notna (c : cell) : bool := negb (isna c).

(** [s.dropna()] *)
Definition dropna (s : Series) : Series := filter (fun c => notna c) s.

(** [s.fillna(v)] *)
Definition fillna (v : Qc) (s : Series) : Series :=
  map (fun c => if isna c then Num v else c) s.

(** [pd.to_numeric(s, errors=...)]: with [errors='raise'] (the default) a
    string that is no number raises, with [errors='coerce'] it becomes NaN. *)
Inductive errors_policy := ErrorsRaise | ErrorsCoerce.

Definition to_numeric_cell `{FloatParser} (errors : errors_policy) (c : cell)
  : result cell :=
  match c with
  | NaN => Ok NaN
  | Num q => Ok (Num q)
  | Str s =>
      match parse_float s with
      | Some q => Ok (Num q)
      | None =>
          match errors with
          | ErrorsRaise => Raise ValueError
          | ErrorsCoerce => Ok NaN
          end
      end
  end.

Definition to_numeric `{FloatParser} (errors : errors_policy) (s : Series)
  : result Series :=
  mapM (to_numeric_cell errors) s.

(** Position of a column label in the header. *)
Fixpoint col_index (c : string) (cols : list string) : option nat :=
  match cols with
  | [] => None
  | c' :: rest =>
      if decide (c' = c) then Some 0%nat else S <$> col_index c rest
  end.

Definition cell_of (i : nat) (row : list cell) : cell := default NaN (row !! i).

(** [df[c]] *)
Definition getitem (df : DataFrame) (c : string) : result Series :=
  match col_index c (columns df) with
  | Some i => Ok (map (cell_of i) (values df))
  | None => Raise (KeyError c)
  end.

(** [df[c] = s]: replaces the column, or adds it at the right. *)
Definition setitem (df : DataFrame) (c : string) (s : Series) : DataFrame :=
  match col_index c (columns df) with
  | Some i =>
      mkDataFrame (columns df) (zip_with (fun row x => <[i:=x]> row) (values df) s)
  | None =>
      mkDataFrame (columns df ++ [c]) (zip_with (fun row x => row ++ [x]) (values df) s)
  end.

(** [df[mask]] *)
Definition select_rows (df : DataFrame) (mask : list bool) : DataFrame :=
  mkDataFrame (columns df) (map fst (filter (fun p => snd p = true) (zip (values df) mask))).

(** Every row has one cell per column, as in a table read from a file. *)
Definition rectangular (df : DataFrame) : Prop :=
  Forall (fun row => length row = length (columns df)) (values df).

(** [s.isin(vals)] *)
Definition isin (s : Series) (vals : list string) : list bool :=
  map (fun c => match c with Str x => bool_decide (x ∈ vals) | _ => false end) s.

(** [x.strip()] *)
Fixpoint lstrip (s : string) : string :=
  match s with
  | String c s' => if Text.isspace c then lstrip s' else s
  | EmptyString => EmptyString
  end.
Definition rstrip (s : string) : string := String.rev (lstrip (String.rev s)).
Definition strip (s : string) : string := rstrip (lstrip s).

(** [df.rename(columns=f)] *)
Definition rename_columns (f : string -> string) (df : DataFrame) : DataFrame :=
  mkDataFrame (map f (columns df)) (values df).

(** [pd.unique(a)]: the distinct values, in the order of first appearance. *)
Fixpoint unique_from {A} `{EqDecision A} (seen : list A) (l : list A) : list A :=
  match l with
  | [] => []
  | x :: rest =>
      if decide (x ∈ seen) then unique_from seen rest
      else x :: unique_from (x :: seen) rest
  end.
Definition unique {A} `{EqDecision A} (l : list A) : list A := unique_from [] l.

(** Order of the labels: pandas sorts group keys and pivot labels. Numbers
    are compared as numbers and strings by code points; the null marker and
    the order between a number and a string are fixed arbitrarily. *)
Definition Qc_leb (x y : Qc) : bool := bool_decide (x ≤ y).
Definition Qc_ltb (x y : Qc) : bool := bool_decide (x < y).

Definition cell_leb (a b : cell) : bool :=
  match a, b with
  | NaN, _ => true
  | Num _, NaN => false
  | Num x, Num y => Qc_leb x y
  | Num _, Str _ => true
  | Str s, Str t => String.leb s t
  | Str _, _ => false
  end.

(** *** Grouping *)

(** What [groupby] needs of a key: whether it is null (null keys are left
    out of the groups) and how keys are ordered. *)
Class GroupKey (K : Type) := {
  key_notna : K -> bool;
  key_leb : K -> K -> bool
}.

#[global] Instance cell_GroupKey : GroupKey cell :=
  {| key_notna := notna; key_leb := cell_leb |}.

#[global] Instance pair_GroupKey {A B} `{GroupKey A, GroupKey B}
  : GroupKey (A * B) :=
  {| key_notna p := key_notna (fst p) && key_notna (snd p);
     key_leb p q :=
       if key_leb (fst p) (fst q)
       then (if key_leb (fst q) (fst p) then key_leb (snd p) (snd q) else true)
       else false |}.

Definition key_le {K} `{GroupKey K} (a b : K) : Prop := key_leb a b = true.

#[global] Instance key_le_dec {K} `{GroupKey K} : RelDecision (key_le (K:=K)).
Proof. intros a b. unfold key_le. apply _. Defined.

(** The keys of the groups of [df.groupby(keys)], sorted. *)
Definition group_keys {K} `{EqDecision K, GroupKey K} (keys : list K) : list K :=
  merge_sort key_le (unique (filter (fun k => key_notna k) keys)).

(** The values of one column in the rows of a group, in row order. *)
Definition group_values {K V} `{EqDecision K} (keys : list K) (vals : list V)
    (k : K) : list V :=
  map snd (filter (fun p => fst p = k) (zip keys vals)).

(** Python's [+] on cells. *)
Definition py_add (a b : cell) : result cell :=
  match a, b with
  | Num x, Num y => Ok (Num (x + y))
  | Str s, Str t => Ok (Str (s ++ t))
  | _, _ => Raise TypeError
  end.

Fixpoint py_sum_from (acc : cell) (l : list cell) : result cell :=
  match l with
  | [] => Ok acc
  | x :: rest => acc' ← py_add acc x; py_sum_from acc' rest
  end.

(** The aggregate ['sum']: nulls are skipped, an empty group sums to 0. *)
Definition agg_sum (vals : Series) : result cell :=
  match dropna vals with
  | [] => Ok (Num 0)
  | x :: rest => py_sum_from x rest
  end.

Definition numeric (c : cell) : bool :=
  match c with Num _ => true | _ => false end.

Definition Qc_sum (l : list Qc) : Qc := foldr Qcplus 0 l.

Definition num_value (c : cell) : Qc :=
  match c with Num q => q | _ => 0 end.

Definition Qc_of_nat (n : nat) : Qc := Qc_of_Z (Z.of_nat n).

(** The aggregate ['mean']: nulls are skipped, the mean of an empty group is
    null, and a string in the group raises. *)
Definition agg_mean (vals : Series) : result cell :=
  match dropna vals with
  | [] => Ok NaN
  | x :: rest =>
      if forallb numeric (x :: rest)
      then Ok (Num (Qc_sum (map num_value (x :: rest)) / Qc_of_nat (length (x :: rest))))
      else Raise TypeError
  end.

(** The mean of the values of a group that are not null, when there is
    one. *)
Definition group_mean (vals : Series) : option Qc :=
  match dropna vals with
  | [] => None
  | x :: rest =>
      Some (Qc_sum (map num_value (x :: rest)) / Qc_of_nat (length (x :: rest)))
  end.

(** The aggregate ['first']: the first value that is not null. *)
Definition agg_first (vals : Series) : cell :=
  match dropna vals with
  | [] => NaN
  | x :: _ => x
  end.

(** The number that a cell stands for once it is coerced to a number and
    the null marker is filled with zero. *)
Definition coerced_value `{FloatParser} (c : cell) : Qc :=
  match c with
  | NaN => 0
  | Num q => q
  | Str s => default 0 (parse_float s)
  end.

(** A cell that holds a number, as such or as a numeric literal. *)
Definition is_number `{FloatParser} (c : cell) : bool :=
  match c with
  | NaN => false
  | Num _ => true
  | Str s => bool_decide (is_Some (parse_float s))
  end.

Definition is_str (c : cell) : bool :=
  match c with Str _ => true | _ => false end.

(** [s > 0] on one cell: a null compares false, a string raises. *)
Definition gt_zero (c : cell) : result bool :=
  match c with
  | NaN => Ok false
  | Num q => Ok (Qc_ltb 0 q)
  | Str _ => Raise TypeError
  end.

(** [s >= 0] on one cell. *)
Definition ge_zero (c : cell) : result bool :=
  match c with
  | NaN => Ok false
  | Num q => Ok (Qc_leb 0 q)
  | Str _ => Raise TypeError
  end.

(** Python's [-] on cells of a float column: a null operand gives null. *)
Definition py_sub (a b : cell) : result cell :=
  match a, b with
  | Num x, Num y => Ok (Num (x - y))
  | NaN, NaN | NaN, Num _ | Num _, NaN => Ok NaN
  | _, _ => Raise TypeError
  end.

(** [s.astype(int)] on one cell: the fraction is cut off; null and strings
    that are no integer literal raise. *)
Definition astype_int (c : cell) : result cell :=
  match c with
  | Num q => Ok (Num (Qc_of_Z (Z.quot (Qnum q) (Zpos (Qden q)))))
  | _ => Raise ValueError
  end.

(** [df[mask]] on a list of rows, the mask computed row by row. *)
Fixpoint filter_rows {A} (p : A -> result bool) (rows : list A) : result (list A) :=
  match rows with
  | [] => Ok []
  | x :: rest =>
      b ← p x;
      rest' ← filter_rows p rest;
      mret (if b : bool then x :: rest' else rest')
  end.

(** [df.groupby(k)[v].agg().reset_index()] as pairs (key, aggregate). *)
Definition groupby1 (agg : Series -> result cell) (k vals : Series)
  : result (list (cell * cell)) :=
  mapM (fun key => v ← agg (group_values k vals key); mret (key, v))
       (group_keys k).

(** [df.sort_values(by=...)], the sort key given as a function of the row. *)
Definition sort_values {A K} `{GroupKey K} (key : A -> K) (rows : list A) : list A :=
  @merge_sort A (fun a b => key_le (key a) (key b))
    (fun a b => key_le_dec (key a) (key b)) rows.

(** The memory order of a two-column array, which [ravel('K')] follows. *)
Inductive mem_order := RowMajor | ColumnMajor.

Definition ravel_K (o : mem_order) (pairs : list (cell * cell)) : list cell :=
  match o with
  | RowMajor => flat_map (fun p => [fst p; snd p]) pairs
  | ColumnMajor => map fst pairs ++ map snd pairs
  end.

(** *** Pivoting *)

(** A table in wide form: row labels, column labels, and the cells. *)
Record matrix := mkMatrix {
  index : list cell;
  mcolumns : list cell;
  data : list (list cell)
}.

(** One entry of the long form: (row label, column label, value). *)
Definition entry := (cell * cell * cell)%type.
Definition entry_row (e : entry) : cell := fst (fst e).
Definition entry_col (e : entry) : cell := snd (fst e).
Definition entry_val (e : entry) : cell := snd e.

Definition entry_value (entries : list entry) (r c : cell) : cell :=
  match filter (fun e => entry_row e = r /\ entry_col e = c) entries with
  | e :: _ => entry_val e
  | [] => NaN
  end.

Definition sort_labels (l : list cell) : list cell :=
  merge_sort key_le (unique l).

(** The wide form of a list of entries; a pair without entry is null. *)
Definition unstack (entries : list entry) : matrix :=
  let idx := sort_labels (map entry_row entries) in
  let cols := sort_labels (map entry_col entries) in
  mkMatrix idx cols
    (map (fun r => map (fun c => entry_value entries r c) cols) idx).

(** [long.pivot(index, columns, values)]: two entries for one pair raise. *)
Definition pivot (entries : list entry) : result matrix :=
  if decide (NoDup (map fst entries))
  then Ok (unstack entries) else Raise ValueError.

(** [long.pivot_table(index, columns, values)] with the defaults
    [aggfunc='mean'] and [dropna=True]: the entries are grouped by pair and
    averaged, the pairs whose mean is null are left out, and the rest is
    put in wide form. Every label that remains has an entry, so the closing
    removal of all-null columns has nothing to remove. *)
Definition pivot_table_mean (entries : list entry) : result matrix :=
  let keys := map fst entries in
  agged ← mapM (fun k => v ← agg_mean (group_values keys (map entry_val entries) k);
                         mret (k, v))
               (group_keys keys);
  mret (unstack (filter (fun e => entry_val e <> NaN) agged)).

(** [m.fillna(v)] *)
Definition fillna_matrix (v : Qc) (m : matrix) : matrix :=
  mkMatrix (index m) (mcolumns m) (map (fillna v) (data m)).

Fixpoint index_of {A} `{EqDecision A} (x : A) (l : list A) : option nat :=
  match l with
  | [] => None
  | y :: rest => if decide (y = x) then Some 0%nat else S <$> index_of x rest
  end.

(** [m.loc[r, c]] *)
Definition cell_at (m : matrix) (r c : cell) : option cell :=
  i ← index_of r (index m);
  j ← index_of c (mcolumns m);
  row ← data m !! i;
  row !! j.

(** [df.groupby([k1, k2])[v].agg().reset_index()] in long form. *)
Definition groupby2 (agg : Series -> result cell) (k1 k2 vals : Series)
  : result (list entry) :=
  let keys := zip k1 k2 in
  mapM (fun k => v ← agg (group_values keys vals k); mret (k, v))
       (group_keys keys).

End Pandas.

Import Pandas.

(** ** The tables that the charts derive *)

Module Frames.

(** One row per company: [company_agg_data] of v3 (columns 'Razón social',
    Puntaje_Total_Sostenibilidad, Ingresos_Operacionales, Macrosector) and
    [company_performance] of v2 (columns 'Razón social', total_performance,
    income, macrosector). *)
Record company := mkCompany {
  razon_social : cell;
  puntaje_total : cell;
  ingresos : cell;
  macrosector : cell
}.

(** [bubble_chart_data] of v3: a company row with its founding year. *)
Record bubble := mkBubble {
  bubble_company : company;
  ano_fundacion : cell
}.

(** [diverging_data] of v3: a company row with the mean of its sector, the
    difference to it and the label of the sign. *)
Record diverging := mkDiverging {
  of_company : company;
  promedio_sector : cell;
  diferencia_vs_promedio : cell;
  desempeno_relativo : string
}.

(** [sankey_data] of v3. *)
Record link := mkLink {
  source : cell;
  target : cell;
  value : cell;
  source_id : option nat;
  target_id : option nat
}.

(** What is handed to plotly. [FigOther] stands for a chart whose data
    preparation is not embedded here. *)
Inductive figure :=
| FigRadar (m : matrix) (theta : list string)
| FigTreemap (rows : list company)
| FigBubble (rows : list bubble)
| FigSankey (nodes : list cell) (links : list link)
| FigDiverging (rows : list diverging)
| FigHeatmap (m : matrix)
| FigScatter (rows : list company)
| FigOther.

End Frames.

Import Frames.

(** ** Files, objects and output *)

Module Runtime.

(** A parsed JSON document. *)
#[warnings="-register-all"]
Inductive json :=
| JString (s : string)
| JArray (items : list json)
| JObject (fields : list (string * json)).

(** [obj[key]] *)
Definition json_get (j : json) (key : string) : result json :=
  match j with
  | JObject fields =>
      match list_find (fun kv => fst kv = key) fields with
      | Some (_, (_, v)) => Ok v
      | None => Raise (KeyError key)
      end
  | _ => Raise TypeError
  end.

Fixpoint json_path (j : json) (keys : list string) : result json :=
  match keys with
  | [] => Ok j
  | k :: rest => v ← json_get j k; json_path v rest
  end.

(** The plotly template built from the brand file. *)
Record template := mkTemplate {
  font_family : json;
  font_color : json;
  title_font_family : json;
  paper_bgcolor : json;
  plot_bgcolor : json;
  colorway : json
}.

Inductive file :=
| Directory
| CsvFile (df : DataFrame)
| JsonFile (j : json)
| HtmlFile (fig : figure)
| PngFile (fig : figure).

(** A reference to a DataFrame object. *)
Definition ref := nat.

(** The state of a run: the file system, the DataFrame objects that
    variables refer to, what was printed, and plotly's default template. *)
Record world := mkWorld {
  fs : gmap string file;
  heap : list DataFrame;
  stdout : list string;
  default_template : option template
}.

(** A computation with effects; what was done before an exception stays. *)
Definition M (A : Type) : Type := world -> result A * world.

#[global] Instance M_ret : MRet M := fun A a w => (Ok a, w).
#[global] Instance M_bind : MBind M := fun A B f m w =>
  match m w with
  | (Ok a, w') => f a w'
  | (Raise e, w') => (Raise e, w')
  end.

Definition seq {A} (m : M unit) (k : M A) : M A := m ≫= fun _ => k.
Notation "m ;; k" := (seq m k) (at level 100, k at level 200, right associativity).

Definition lift {A} (r : result A) : M A := fun w => (r, w).

Definition print (line : string) : M unit := fun w =>
  (Ok tt, mkWorld (fs w) (heap w) (stdout w ++ [line]) (default_template w)).

Definition set_default_template (t : template) : M unit := fun w =>
  (Ok tt, mkWorld (fs w) (heap w) (stdout w) (Some t)).

(** [os.path.exists(path)] *)
Definition path_exists (path : string) : M bool := fun w =>
  (Ok (bool_decide (is_Some (fs w !! path))), w).

(** [os.makedirs(path)] *)
Definition makedirs (path : string) : M unit := fun w =>
  (Ok tt, mkWorld (<[path := Directory]> (fs w)) (heap w) (stdout w) (default_template w)).

(** Writing [name] in the directory [dir]; the directory has to be there. *)
Definition write_file (dir name : string) (f : file) : M unit := fun w =>
  let path := (dir ++ "/" ++ name)%string in
  match fs w !! dir with
  | Some Directory =>
      (Ok tt, mkWorld (<[path := f]> (fs w)) (heap w) (stdout w) (default_template w))
  | _ => (Raise (FileNotFoundError path), w)
  end.

(** A new DataFrame object. *)
Definition alloc (df : DataFrame) : M ref := fun w =>
  (Ok (length (heap w)), mkWorld (fs w) (heap w ++ [df]) (stdout w) (default_template w)).

(** The table that a reference points to. *)
Definition deref (r : ref) : M DataFrame := fun w =>
  match heap w !! r with
  | Some df => (Ok df, w)
  | None => (Raise ValueError, w)
  end.

(** Changing the object that a reference points to, in place. *)
Definition update (r : ref) (f : DataFrame -> DataFrame) : M unit := fun w =>
  match heap w !! r with
  | Some df =>
      (Ok tt, mkWorld (fs w) (<[r := f df]> (heap w)) (stdout w) (default_template w))
  | None => (Raise ValueError, w)
  end.

(** [pd.read_csv(path)]: a new object holding the table of the file. *)
Definition read_csv (path : string) : M ref := fun w =>
  match fs w !! path with
  | Some (CsvFile df) => alloc df w
  | Some _ => (Raise ValueError, w)
  | None => (Raise (FileNotFoundError path), w)
  end.

(** [with open(path) as f: json.load(f)] *)
Definition load_json (path : string) : M json := fun w =>
  match fs w !! path with
  | Some (JsonFile j) => (Ok j, w)
  | Some _ => (Raise ValueError, w)
  | None => (Raise (FileNotFoundError path), w)
  end.

(** No chart file appears between two states of the file system. *)
Definition no_chart_written (w w' : world) : Prop :=
  forall path fig,
    fs w' !! path = Some (HtmlFile fig) \/ fs w' !! path = Some (PngFile fig) ->
    fs w' !! path = fs w !! path.

(** [try: body except FileNotFoundError as e: handler(e.filename)] *)
Definition try_except_FileNotFoundError {A} (body : M A) (handler : string -> M A)
  : M A := fun w =>
  match body w with
  | (Raise (FileNotFoundError filename), w') => handler filename w'
  | other => other
  end.

(** [obj[c]] through a reference *)
Definition ref_getitem (r : ref) (c : string) : M Series :=
  df ← deref r; lift (getitem df c).

(** [obj[c] = s] through a reference: the object itself changes. *)
Definition ref_setitem (r : ref) (c : string) (s : Series) : M unit :=
  update r (fun df => setitem df c s).

(** [obj.copy()] *)
Definition ref_copy (r : ref) : M ref := df ← deref r; alloc df.

End Runtime.

Import Runtime.

(** ** What both scripts share *)

Module Common.

#[global] Instance cell_countable : Countable cell.
Proof.
  refine (inj_countable'
    (fun c => match c with NaN => None | Num q => Some (inl q) | Str s => Some (inr s) end)
    (fun o => match o with None => NaN | Some (inl q) => Num q | Some (inr s) => Str s end) _).
  by intros [].
Defined.

(** [df.groupby('Razón social').agg(total=(score, 'sum'),
    income=(income, 'first'), sector=(sector, 'first')).reset_index()] *)
Definition company_table (names scores incomes sectors : Series)
  : result (list company) :=
  mapM (fun k =>
          total ← agg_sum (group_values names scores k);
          mret (mkCompany k total
                  (agg_first (group_values names incomes k))
                  (agg_first (group_values names sectors k))))
       (group_keys names).

Definition company_agg (df : DataFrame) : result (list company) :=
  names ← getitem df "Razón social";
  scores ← getitem df "valoracionPonderada";
  incomes ← getitem df "Ingresos operacionales";
  sectors ← getitem df "Macrosector";
  company_table names scores incomes sectors.

(** A column once it is coerced to numbers and zero-filled. *)
Definition filled `{FloatParser} (s : Series) : Series :=
  map (fun c => Num (coerced_value c)) s.


(** The income of a company as the charts take it: the income of its first
    row, zero when that cell holds no number. *)
Definition first_income `{FloatParser} (names incomes : Series) (k : cell) : Qc :=
  match group_values names incomes k with
  | c :: _ => coerced_value c
  | [] => 0%Qc
  end.

(** [t[t[income] > 0]] *)
Definition positive_income (rows : list company) : result (list company) :=
  filter_rows (fun c => gt_zero (ingresos c)) rows.

End Common.

Import Common.

(** ** Dashboardv3/GenerateCharts.py *)

Module V3.

Section Script.
Context `{FloatParser}.
(** The memory order of the array that chart 7 flattens. *)
Variable order : mem_order.

Local Open Scope Qc_scope.

(** Lines 17-58: the brand file and the default template. *)
Definition make_template (eafit_brand : json) : result template :=
  color_palette ← json_get eafit_brand "colorPalette";
  typography ← json_get eafit_brand "typography";
  family ← json_get typography "defaultFontFamily";
  color ← json_path color_palette ["text"; "primary"];
  title_family ← json_path typography ["styles"; "title"; "fontFamily"];
  paper ← json_path color_palette ["background"; "main"];
  plot ← json_path color_palette ["background"; "highlight"];
  colors ← json_get color_palette "chartColors";
  mret (mkTemplate family color title_family paper plot colors).

Definition load_brand : M unit :=
  eafit_brand ← load_json "eafitBrand.json";
  t ← lift (make_template eafit_brand);
  set_default_template t.

(** Lines 64-66: the dataset. *)
Definition sentinels : list string := ["0"; "No"; "No informa"; "SI"; "Si"].

(** A placeholder of the sector column. *)
Definition is_sentinel (c : cell) : Prop :=
  exists s, c = Str s /\ s ∈ sentinels.

#[global] Instance is_sentinel_dec c : Decision (is_sentinel c).
Proof.
  destruct c as [|q|s]; try (right; intros (s' & ? & _); discriminate).
  destruct (decide (s ∈ sentinels)) as [Hin|Hout].
  - left. by exists s.
  - right. intros (s' & [= ->] & ?). done.
Defined.

Definition drop_sentinels (df : DataFrame) : result DataFrame :=
  sector ← getitem df "Macrosector";
  mret (select_rows df (map negb (isin sector sentinels))).

Definition preprocess (df : DataFrame) : result DataFrame :=
  drop_sentinels (rename_columns strip df).

Definition load_raw_data : M ref :=
  raw_data ← read_csv "empresasEafit.csv";
  update raw_data (rename_columns strip);;
  df ← deref raw_data;
  filtered ← lift (drop_sentinels df);
  alloc filtered.

(** Lines 72-80 *)
Definition save_chart_as_html (fig : figure) (filename : string) : M unit :=
  e ← path_exists "charts";
  (if e : bool then mret tt else makedirs "charts");;
  write_file "charts" filename (HtmlFile fig).

(** [fig.write_image("img/" + filename)] *)
Definition write_image (fig : figure) (filename : string) : M unit :=
  write_file "img" filename (PngFile fig).

Definition emit (fig : figure) (html png : string) : M unit :=
  save_chart_as_html fig html;; write_image fig png.

Definition wrap_label (max_length : Z) (c : cell) : result string :=
  match c with
  | Str s => Ok (Text.wrap_text s max_length)
  | _ => Raise TypeError
  end.

(** Chart 1, lines 113-129 *)
Definition radar_final_df (raw : DataFrame) : result matrix :=
  sector ← getitem raw "Macrosector";
  pilar ← getitem raw "Nombre Pilar";
  score ← getitem raw "valoracionPonderada";
  long ← groupby2 agg_mean sector pilar score;
  m ← pivot_table_mean (map (fun e => (entry_col e, entry_row e, entry_val e)) long);
  mret (fillna_matrix 0 m).

Definition chart01 (raw_data : ref) : M unit :=
  df ← deref raw_data;
  m ← lift (radar_final_df df);
  wrapped_categories ← lift (mapM (wrap_label 25) (index m));
  emit (FigRadar m wrapped_categories)
       "01_radar_macroeconomic.html" "01_radar_macroeconomic.png".

(** Lines 222-223: the score and income columns of the shared table are
    replaced by their numeric, zero-filled versions. *)
Definition coerce_fill (s : Series) : result Series :=
  fillna 0 <$> to_numeric ErrorsCoerce s.

Definition coerce_column (raw_data : ref) (c : string) : M unit :=
  col ← ref_getitem raw_data c;
  col' ← lift (coerce_fill col);
  ref_setitem raw_data c col'.

(** The same two assignments on the table itself. *)
Definition coerced (raw : DataFrame) : result DataFrame :=
  score ← getitem raw "valoracionPonderada";
  score' ← coerce_fill score;
  let raw1 := setitem raw "valoracionPonderada" score' in
  income ← getitem raw1 "Ingresos operacionales";
  income' ← coerce_fill income;
  mret (setitem raw1 "Ingresos operacionales" income').

(** Chart 4, lines 222-243. The colour midpoint of the treemap is
    [np.average] of the totals weighted by the incomes, which raises when
    there is no row. *)
Definition company_agg_data (raw : DataFrame) : result (list company) :=
  agg ← company_agg raw;
  positive_income agg.

Definition chart04 (raw_data : ref) : M (list company) :=
  coerce_column raw_data "valoracionPonderada";;
  coerce_column raw_data "Ingresos operacionales";;
  df ← deref raw_data;
  rows ← lift (company_agg_data df);
  (match rows with
   | [] => lift (Raise ZeroDivisionError)
   | _ :: _ => mret tt
   end);;
  emit (FigTreemap rows)
       "04_treemap_sustainability.html" "04_treemap_sustainability.png";;
  mret rows.

(** Chart 5, lines 260-269 *)
Definition bubble_table (names scores incomes sectors years : Series)
  : result (list bubble) :=
  rows ← company_table names scores incomes sectors;
  mret (map (fun c => mkBubble c (agg_first (group_values names years (razon_social c))))
            rows).

Definition bubble_chart_data (raw : DataFrame) : result (list bubble) :=
  names ← getitem raw "Razón social";
  scores ← getitem raw "valoracionPonderada";
  incomes ← getitem raw "Ingresos operacionales";
  sectors ← getitem raw "Macrosector";
  years ← getitem raw "Año de fundación";
  rows ← bubble_table names scores incomes sectors years;
  let kept := filter (fun b => ano_fundacion b <> NaN /\ ingresos (bubble_company b) <> NaN) rows in
  kept' ← filter_rows (fun b => gt_zero (ingresos (bubble_company b))) kept;
  mapM (fun b => y ← astype_int (ano_fundacion b); mret (mkBubble (bubble_company b) y)) kept'.

Definition chart05 (raw_data : ref) : M unit :=
  years ← ref_getitem raw_data "Año de fundación";
  years' ← lift (to_numeric ErrorsCoerce years);
  ref_setitem raw_data "Año de fundación" years';;
  df ← deref raw_data;
  rows ← lift (bubble_chart_data df);
  emit (FigBubble rows)
       "05_bubble_chart_sustainability_vs_age.html"
       "05_bubble_chart_sustainability_vs_age.png".

(** Chart 7, lines 334-343 *)
Definition sankey_data (raw : DataFrame) : result (list entry) :=
  bloque ← getitem raw "Bloque";
  pilar ← getitem raw "Nombre Pilar";
  score ← getitem raw "valoracionPonderada";
  flow1 ← groupby2 agg_sum bloque pilar score;
  sector ← getitem raw "Macrosector";
  flow2 ← groupby2 agg_sum pilar sector score;
  filter_rows (fun e => gt_zero (entry_val e)) (flow1 ++ flow2).

Definition unique_nodes (flows : list entry) : list cell :=
  unique (ravel_K order (map fst flows)).

(** [{node: i for i, node in enumerate(nodes)}], from position [i] on. *)
Fixpoint enumerate_dict (i : nat) (nodes : list cell) (d : gmap cell nat)
  : gmap cell nat :=
  match nodes with
  | [] => d
  | node :: rest => enumerate_dict (S i) rest (<[node := i]> d)
  end.

Definition node_mapping (nodes : list cell) : gmap cell nat :=
  enumerate_dict 0 nodes ∅.

Definition sankey_links (flows : list entry) : list link :=
  let d := node_mapping (unique_nodes flows) in
  map (fun e => mkLink (entry_row e) (entry_col e) (entry_val e)
                  (d !! entry_row e) (d !! entry_col e))
      flows.

Definition chart07 (raw_data : ref) : M unit :=
  df ← deref raw_data;
  flows ← lift (sankey_data df);
  emit (FigSankey (unique_nodes flows) (sankey_links flows))
       "07_sankey_diagram_sustainability_flows.html"
       "07_sankey_diagram_sustainability_flows.png".

(** The mean total score of the companies of a sector. *)
Definition sector_mean (rows : list company) (sector : cell) : Qc :=
  let peers := filter (fun c => macrosector c = sector) rows in
  Qc_sum (map (fun c => num_value (puntaje_total c)) peers)
  / Qc_of_nat (length peers).

(** Chart 10, lines 409-414 *)
Definition sector_avg_score (rows : list company) : result (list (cell * cell)) :=
  groupby1 agg_mean (map macrosector rows) (map puntaje_total rows).

(** [pd.merge(rows, avg, on='Macrosector')]: the inner join. *)
Definition merge_on_sector (rows : list company) (avg : list (cell * cell))
  : list (company * cell) :=
  flat_map (fun c => map (fun a => (c, snd a))
                         (filter (fun a => fst a = macrosector c) avg))
           rows.

Definition relative_label (b : bool) : string :=
  if b then "Superior al Promedio" else "Inferior al Promedio".

Definition diverging_row (p : company * cell) : result diverging :=
  d ← py_sub (puntaje_total (fst p)) (snd p);
  b ← ge_zero d;
  mret (mkDiverging (fst p) (snd p) d (relative_label b)).

Definition diverging_data (rows : list company) : result (list diverging) :=
  avg ← sector_avg_score rows;
  merged ← mapM diverging_row (merge_on_sector rows avg);
  mret (sort_values
          (fun d => (macrosector (of_company d), diferencia_vs_promedio d))
          merged).

Definition chart10 (company_rows : list company) : M unit :=
  rows ← lift (diverging_data company_rows);
  emit (FigDiverging rows)
       "10_diverging_bar_performance_vs_sector.html"
       "10_diverging_bar_performance_vs_sector.png".

(** Chart 13, lines 501-506 *)
Definition var_importance_matrix (raw : DataFrame) : result matrix :=
  sector ← getitem raw "Macrosector";
  variable ← getitem raw "Variable";
  score ← getitem raw "valoracionPonderada";
  long ← groupby2 agg_mean sector variable score;
  m ← pivot (map (fun e => (entry_col e, entry_row e, entry_val e)) long);
  mret (fillna_matrix 0 m).

Definition chart13 (raw_data : ref) : M unit :=
  df ← deref raw_data;
  m ← lift (var_importance_matrix df);
  emit (FigHeatmap m)
       "13_variable_importance_heatmap.html" "13_variable_importance_heatmap.png".

(** Chart 14, line 526 *)
Definition scatter_data (company_rows : list company) : result (list company) :=
  positive_income company_rows.

Definition chart14 (company_rows : list company) : M unit :=
  rows ← lift (scatter_data company_rows);
  emit (FigScatter rows)
       "14_scatter_trend_income_vs_sustainability.html"
       "14_scatter_trend_income_vs_sustainability.png".

(** Chart 15, lines 550-555 *)
Definition chord_matrix (raw : DataFrame) : result matrix :=
  sector ← getitem raw "Macrosector";
  pilar ← getitem raw "Nombre Pilar";
  score ← getitem raw "valoracionPonderada";
  long ← groupby2 agg_sum sector pilar score;
  m ← pivot long;
  mret (fillna_matrix 0 m).

Definition chart15 (raw_data : ref) : M unit :=
  df ← deref raw_data;
  m ← lift (chord_matrix df);
  emit (FigHeatmap m)
       "15_chord_alternative_macrosector_vs_pillar.html"
       "15_chord_alternative_macrosector_vs_pillar.png".

(** A chart whose data preparation is not embedded: the files it writes. *)
Definition other_chart (html png : string) : M unit := emit FigOther html png.

(** The charts, in the order of the script. *)
Definition charts (raw_data : ref) : M unit :=
  chart01 raw_data;;
  other_chart "02_heatmap_performance.html" "02_heatmap_performance.png";;
  other_chart "03_violin_plot_performance.html" "03_violin_plot_performance.png";;
  company_rows ← chart04 raw_data;
  chart05 raw_data;;
  other_chart "06_parallel_coordinates_sustainability_profiles.html"
              "06_parallel_coordinates_sustainability_profiles.png";;
  chart07 raw_data;;
  other_chart "08_sunburst_performance_hierarchy.html"
              "08_sunburst_performance_hierarchy.png";;
  other_chart "09_correlation_matrix_sustainability_pillars.html"
              "09_correlation_matrix_sustainability_pillars.png";;
  chart10 company_rows;;
  other_chart "11_boxplot_performance_by_property_type.html"
              "11_boxplot_performance_by_property_type.png";;
  other_chart "12_density_plot_multinational_vs_national.html"
              "12_density_plot_multinational_vs_national.png";;
  chart13 raw_data;;
  chart14 company_rows;;
  chart15 raw_data;;
  other_chart "16_nested_bars_variables_by_pillar_and_sector.html"
              "16_nested_bars_variables_by_pillar_and_sector.png";;
  other_chart "17_nested_scatter_variables_by_pillar_and_sector.html"
              "17_nested_scatter_variables_by_pillar_and_sector.png".

(** The whole script. *)
Definition script : M unit :=
  load_brand;;
  raw_data ← load_raw_data;
  charts raw_data.

End Script.

End V3.

(** ** Dashboradv2/index.py *)

Module V2.

Section Script.
Context `{FloatParser}.
(** [os.getcwd()] *)
Variable cwd : string.

Local Open Scope Qc_scope.

(** Lines 33-54 *)
Definition make_template (brand_config : json) : result template :=
  chart_colors ← json_path brand_config ["colorPalette"; "chartColors"];
  family ← json_path brand_config ["typography"; "defaultFontFamily"];
  color ← json_path brand_config ["colorPalette"; "text"; "primary"];
  paper ← json_path brand_config ["colorPalette"; "background"; "main"];
  plot ← json_path brand_config ["colorPalette"; "background"; "highlight"];
  title_family ← json_path brand_config ["typography"; "styles"; "heading2"; "fontFamily"];
  mret (mkTemplate family color title_family paper plot chart_colors).

Definition not_found_message (filename : string) : string :=
  ("Error: No se encontró el archivo " ++ filename
   ++ ". Asegúrate de que los archivos 'empresasEafit.csv' y 'eafitBrand.json' estén en el mismo directorio.")%string.

(** Lines 10-57 *)
Definition setup_environment : M (option ref * option json) :=
  e ← path_exists "charts";
  (if e : bool then mret tt
   else (makedirs "charts";; print "Directorio 'charts/' creado."));;
  loaded ← try_except_FileNotFoundError
             (df ← read_csv "empresasEafit.csv";
              brand_config ← load_json "eafitBrand.json";
              mret (Some (df, brand_config)))
             (fun filename => print (not_found_message filename);; mret None);
  match loaded with
  | None => mret (None, None)
  | Some (df, brand_config) =>
      t ← lift (make_template brand_config);
      set_default_template t;;
      print "Entorno configurado exitosamente.";;
      mret (Some df, Some brand_config)
  end.

(** Lines 59-87 *)
Definition save_chart_as_html (fig : figure) (filename : string) : M unit :=
  write_file "charts" filename (HtmlFile fig);;
  print ("Gráfico guardado en: charts/" ++ filename)%string.

(** Lines 140-168 *)
Definition company_performance (df_chart : DataFrame) : result (list company) :=
  company_agg df_chart.

Definition plot_data (df_chart : DataFrame) : result (list company) :=
  rows ← company_performance df_chart;
  positive_income rows.

Definition generate_chart_05_scatter_income_vs_performance (df : ref) : M unit :=
  df_chart ← ref_copy df;
  income ← ref_getitem df_chart "Ingresos operacionales";
  income' ← lift (to_numeric ErrorsCoerce income);
  ref_setitem df_chart "Ingresos operacionales" income';;
  column ← ref_getitem df_chart "Ingresos operacionales";
  ref_setitem df_chart "Ingresos operacionales" (fillna 0 column);;
  t ← deref df_chart;
  rows ← lift (plot_data t);
  save_chart_as_html (FigScatter rows) "05_scatter_income_vs_performance.html".

(** The income column as chart 5 prepares it, on the table itself. *)
Definition income_coerced (df : DataFrame) : result DataFrame :=
  income ← getitem df "Ingresos operacionales";
  income' ← to_numeric ErrorsCoerce income;
  let df1 := setitem df "Ingresos operacionales" income' in
  column ← getitem df1 "Ingresos operacionales";
  mret (setitem df1 "Ingresos operacionales" (fillna 0 column)).

(** A chart whose data preparation is not embedded: the file it writes. *)
Definition other_chart (filename : string) : M unit :=
  save_chart_as_html FigOther filename.

Definition newline : string := String (ascii_of_nat 10) "".

(** Lines 314-338 *)
Definition main : M unit :=
  r ← setup_environment;
  match r with
  | (Some df, Some brand_config) =>
      print (newline ++ "--- Iniciando generación de gráficos ---")%string;;
      other_chart "01_radar_macroeconomic.html";;
      other_chart "02_bar_performance_by_pillar.html";;
      other_chart "03_treemap_companies_by_sector.html";;
      other_chart "04_box_performance_distribution.html";;
      generate_chart_05_scatter_income_vs_performance df;;
      other_chart "06_bar_multinational_comparison.html";;
      other_chart "07_bar_listed_comparison.html";;
      other_chart "08_sunburst_blocks_and_pillars.html";;
      other_chart "09_bar_top10_companies.html";;
      other_chart "10_bar_bottom10_companies.html";;
      other_chart "11_histogram_foundation_year.html";;
      other_chart "12_pie_property_type.html";;
      other_chart "13_scatter_materiality_vs_performance.html";;
      other_chart "14_bar_performance_by_macrosector.html";;
      other_chart "15_bar_family_business_comparison.html";;
      print (newline ++ "--- Proceso de generación de gráficos completado. ---")%string;;
      print ("Se han creado 15 archivos .html en la carpeta '" ++ cwd ++ "/charts'")%string
  | _ => mret tt
  end.

End Script.

End V2.

(** ** A parser of decimal literals and a small table, for the examples *)

Module Fixture.

Local Open Scope Qc_scope.

Definition digit_value (c : ascii) : option Z :=
  let n := Z.of_nat (nat_of_ascii c) in
  if ((48 <=? n) && (n <=? 57))%Z then Some (n - 48)%Z else None.

(** Value and number of digits of a run of digits. *)
Fixpoint digits_from (acc : Z) (count : nat) (s : string) : option (Z * nat) :=
  match s with
  | EmptyString => Some (acc, count)
  | String c rest =>
      match digit_value c with
      | Some d => digits_from (10 * acc + d)%Z (S count) rest
      | None => None
      end
  end.

Fixpoint cut_at_dot (s : string) : string * option string :=
  match s with
  | EmptyString => (EmptyString, None)
  | String c rest =>
      if Ascii.eqb c "."%char then (EmptyString, Some rest)
      else let '(a, b) := cut_at_dot rest in (String c a, b)
  end.

Definition unsigned_decimal (s : string) : option Qc :=
  let '(whole, frac) := cut_at_dot s in
  match digits_from 0 0 whole with
  | Some (w, S _) =>
      match frac with
      | None => Some (Qc_of_Z w)
      | Some f =>
          match digits_from 0 0 f with
          | Some (v, n) => Some (Qc_of_Z w + Q2Qc (v # Pos.of_nat (10 ^ n)))
          | None => None
          end
      end
  | _ => None
  end.

(** Literals such as [12], [3.5] and [-0.25]. *)
Definition decimal (s : string) : option Qc :=
  match s with
  | String "-"%char rest => Qcopp <$> unsigned_decimal rest
  | _ => unsigned_decimal s
  end.

Definition decimal_parser : FloatParser := decimal.

Definition tab : string := String (ascii_of_nat 9) "".

Definition header : list string :=
  ["Razón social"; " Macrosector "; "Bloque"; "Nombre Pilar"; "Variable";
   "valoracionPonderada"; "Ingresos operacionales"; "Año de fundación"].

Definition n (z : Z) : cell := Num (Qc_of_Z z).

(** Two companies, two pillars; one score is missing, one income is not a
    number, and one row carries a placeholder sector. *)
Definition table : DataFrame :=
  mkDataFrame header
    [ [Str "Alfa"; Str "Industria"; Str "Ambiental"; Str "Agua"; Str "Consumo";
       n 10; Str "1500"; Str "1990"];
      [Str "Alfa"; Str "Industria"; Str "Social"; Str "Empleo"; Str "Rotacion";
       NaN; Str "1500"; Str "1990"];
      [Str "Beta"; Str "Servicios"; Str "Ambiental"; Str "Agua"; Str "Consumo";
       n 4; Str "sin dato"; Str "2005"];
      [Str "Beta"; Str "Servicios"; Str "Social"; Str "Empleo"; Str "Rotacion";
       n 6; Str "sin dato"; Str "2005"];
      [Str "Gama"; Str "No informa"; Str "Social"; Str "Empleo"; Str "Rotacion";
       n 7; Str "900"; Str "2010"] ].

Definition brand : json :=
  JObject
    [ ("colorPalette",
       JObject [ ("text", JObject [("primary", JString "#000066")]);
                 ("background", JObject [("main", JString "#FFFFFF");
                                         ("highlight", JString "#F2F2F2")]);
                 ("chartColors", JArray [JString "#000066"; JString "#00A9E0"]) ]);
      ("typography",
       JObject [ ("defaultFontFamily", JString "Arial");
                 ("styles", JObject [ ("title", JObject [("fontFamily", JString "Arial")]);
                                      ("heading2", JObject [("fontFamily", JString "Arial")]) ]) ]) ].

Definition files : gmap string file :=
  <["empresasEafit.csv" := CsvFile table]>
    (<["eafitBrand.json" := JsonFile brand]> (<["img" := Directory]> ∅)).

Definition world0 : world := mkWorld files [] [] None.


(** The state once v3 has loaded the dataset, and the table it then holds. *)
Definition world1 : world := snd (V3.load_raw_data world0).
Definition raw_data1 : ref := 1%nat.
Definition table1 : DataFrame :=
  mkDataFrame (map strip header)
    (filter (fun row => ~ V3.is_sentinel (cell_of 1 row)) (values table)).

(** The columns of [table1]. *)
Definition names1 : Series := [Str "Alfa"; Str "Alfa"; Str "Beta"; Str "Beta"].
Definition sectors1 : Series :=
  [Str "Industria"; Str "Industria"; Str "Servicios"; Str "Servicios"].
Definition pilares1 : Series := [Str "Agua"; Str "Empleo"; Str "Agua"; Str "Empleo"].
Definition variables1 : Series :=
  [Str "Consumo"; Str "Rotacion"; Str "Consumo"; Str "Rotacion"].
Definition scores1 : Series := [n 10; NaN; n 4; n 6].

(** Two flows of the Sankey chart. *)
Definition flows1 : list entry :=
  [ (Str "Ambiental", Str "Agua", n 14); (Str "Agua", Str "Industria", n 10) ].

(** A company table with two companies of one sector. *)
Definition company_rows1 : list company :=
  [ mkCompany (Str "Alfa") (n 10) (n 1500) (Str "Industria");
    mkCompany (Str "Delta") (n 4) (n 200) (Str "Industria") ].



Definition world_no_json : world :=
  mkWorld (delete "eafitBrand.json" files) [] [] None.

End Fixture.

Import Fixture.
Import Text.


(** ** Notions that the proofs use *)

Module Notions.

(** The sum of the lengths of the words of a line. *)
Definition words_length (line : list string) : Z :=
  foldr (fun w n => (len w + n)%Z) 0%Z line.

(** What the loop of [wrap_text] leaves, with the last line closed. *)
Definition close_lines (st : list string * list string) : list string :=
  if negb (bool_decide (snd st = [])) then fst st ++ [join " " (snd st)] else fst st.

(** A word: not empty, and without whitespace. *)
Definition word (w : string) : Prop := nonempty w = true /\ no_space w = true.


(** The state after the first lines of [setup_environment], which make
    sure that the directory of the charts is there. *)
Definition with_charts_dir (w : world) : world :=
  if bool_decide (is_Some (fs w !! "charts")) then w
  else mkWorld (<["charts" := Directory]> (fs w)) (heap w)
         (stdout w ++ ["Directorio 'charts/' creado."]) (default_template w).

(** [triple P m Q]: from a state in [P], the step [m] ends, with a value or
    an exception, in a state that [Q] relates to that outcome. *)
Definition triple {A} (P : world -> Prop) (m : M A) (Q : result A -> world -> Prop)
  : Prop :=
  forall w, P w -> Q (fst (m w)) (snd (m w)).

(** A property of the state that a step keeps, whatever its outcome. *)
Definition keeps {A} (I : world -> Prop) (m : M A) : Prop :=
  triple I m (fun _ w => I w).

(** The objects are [h]. *)
Definition heap_is (h : list DataFrame) (w : world) : Prop := heap w = h.

(** The object [r] holds the table [t]. *)
Definition holds (r : ref) (t : DataFrame) (w : world) : Prop :=
  heap w !! r = Some t.


(** The company of a row has a strictly positive income. *)
Definition has_income `{FloatParser} (names incomes : Series) (c : company) : Prop :=
  (0 < first_income names incomes (razon_social c))%Qc.

#[global] Instance has_income_dec `{FloatParser} names incomes c :
  Decision (has_income names incomes c).
Proof. unfold has_income. apply _. Defined.

(** A cell after [fillna(0)]. *)
Definition fill0 (v : cell) : cell := if isna v then Num 0%Qc else v.

(** The mean of a group as a cell. *)
Definition mean_cell (vals : Series) : cell := from_option Num NaN (group_mean vals).


End Notions.

Import Notions.


(** ** Further notions *)

Module Shapes.

(** A text of whitespace only. *)
Fixpoint blank (s : string) : bool :=
  match s with
  | EmptyString => true
  | String c s' => isspace c && blank s'
  end.

(** A line fits the threshold, or it is a single word. *)
Definition fits (max_length : Z) (line : list string) : Prop :=
  (len (join " " line) <= max_length)%Z \/ exists w, line = [w].

(** The row of the diverging-bar table for a company of the company table
    [rows]. *)
Definition diverging_of (rows : list company) (c : company) : diverging :=
  let difference :=
    (num_value (puntaje_total c) - V3.sector_mean rows (macrosector c))%Qc in
  mkDiverging c (Num (V3.sector_mean rows (macrosector c))) (Num difference)
    (V3.relative_label (Qc_leb 0 difference)).


(** A cell after [pd.to_numeric(errors='coerce')]: a string that is no
    number becomes null. *)
Definition coerce_cell `{FloatParser} (c : cell) : cell :=
  match c with
  | Str s => from_option Num NaN (parse_float s)
  | _ => c
  end.


(** A number above zero. *)
Definition positive (c : cell) : Prop :=
  match c with
  | Num q => (0 < q)%Qc
  | _ => False
  end.

#[global] Instance positive_dec c : Decision (positive c).
Proof. destruct c; apply _. Defined.


(** The rows whose key did not occur before, among [seen] or earlier in the
    list. *)
Fixpoint firsts_from {A} (key : A -> cell) (seen : Series) (rows : list A) : list A :=
  match rows with
  | [] => []
  | r :: rest =>
      if decide (key r ∈ seen) then firsts_from key seen rest
      else r :: firsts_from key (key r :: seen) rest
  end.

End Shapes.

Import Shapes.

(** ** More of Dashboradv2/index.py: the tables of charts 2, 9, 10, 11
       and 14 *)

Module V2Data.

(** The order that [sort_values] puts on the values of a series: a null
    comes last, whatever the direction. *)
Definition value_leb (ascending : bool) (a b : cell) : bool :=
  match a, b with
  | _, NaN => true
  | NaN, _ => false
  | _, _ => if ascending then cell_leb a b else cell_leb b a
  end.

(** The same order on the rows (label, value) of a series. *)
Definition value_le (ascending : bool) (a b : cell * cell) : Prop :=
  value_leb ascending (snd a) (snd b) = true.

#[global] Instance value_le_dec ascending : RelDecision (value_le ascending).
Proof. intros a b. unfold value_le. apply _. Defined.

(** Numbers and strings cannot be compared with each other. *)
Definition comparable (vals : Series) : bool :=
  forallb (fun c => negb (is_str c)) vals || forallb (fun c => negb (numeric c)) vals.

(** [s.sort_values(ascending=...)] on a series with its labels. Among equal
    values the order is the one of the sort; pandas leaves it open. *)
Definition sort_values_series (ascending : bool) (s : list (cell * cell))
  : result (list (cell * cell)) :=
  if comparable (map snd s)
  then Ok (merge_sort (value_le ascending) s)
  else Raise TypeError.

(** [s.head(n)] *)
Definition head {A} (n : nat) (l : list A) : list A := take n l.

(** Line 205, chart 9:
    [df.groupby('Razón social')['valoracionPonderada'].sum()
       .sort_values(ascending=False).head(10).reset_index()] *)
Definition top10_company_performance (df : DataFrame) : result (list (cell * cell)) :=
  names ← getitem df "Razón social";
  scores ← getitem df "valoracionPonderada";
  totals ← groupby1 agg_sum names scores;
  sorted ← sort_values_series false totals;
  mret (head 10 sorted).

(** Line 219, chart 10: the same with [ascending=True]. *)
Definition bottom10_company_performance (df : DataFrame) : result (list (cell * cell)) :=
  names ← getitem df "Razón social";
  scores ← getitem df "valoracionPonderada";
  totals ← groupby1 agg_sum names scores;
  sorted ← sort_values_series true totals;
  mret (head 10 sorted).

(** Lines 109 and 289, charts 2 and 14:
    [df.groupby(label)['valoracionPonderada'].mean()
       .sort_values(ascending=False).reset_index()] *)
Definition mean_ranking (label : string) (df : DataFrame) : result (list (cell * cell)) :=
  labels ← getitem df label;
  scores ← getitem df "valoracionPonderada";
  means ← groupby1 agg_mean labels scores;
  sort_values_series false means.

Definition performance_by_pillar (df : DataFrame) : result (list (cell * cell)) :=
  mean_ranking "Nombre Pilar" df.

Definition performance_by_macrosector (df : DataFrame) : result (list (cell * cell)) :=
  mean_ranking "Macrosector" df.

(** [s.duplicated()]: whether the value occurred before; nulls count as
    equal to each other. *)
Fixpoint duplicated_from (seen : Series) (s : Series) : list bool :=
  match s with
  | [] => []
  | x :: rest => bool_decide (x ∈ seen) :: duplicated_from (x :: seen) rest
  end.

Definition duplicated (s : Series) : list bool := duplicated_from [] s.

(** Lines 233-239, chart 11: on a copy, the founding year is coerced, the
    rows without year are dropped, and of the rows of one company the first
    stays. *)
Definition unique_companies `{FloatParser} (df : DataFrame) : result DataFrame :=
  years ← getitem df "Año de fundación";
  years' ← to_numeric ErrorsCoerce years;
  let df_chart := setitem df "Año de fundación" years' in
  column ← getitem df_chart "Año de fundación";
  let with_year := select_rows df_chart (map notna column) in
  names ← getitem with_year "Razón social";
  mret (select_rows with_year (map negb (duplicated names))).

End V2Data.

Import V2Data.

(** ** More of Dashboardv3/GenerateCharts.py: the tables of charts 6, 8, 11
       and 12 *)

Module V3Data.

(** [df.drop_duplicates()]: of equal rows the first stays; nulls count as
    equal to each other. *)
Definition drop_duplicates {A} `{EqDecision A} (rows : list A) : list A :=
  unique rows.

(** [raw_data[['Razón social', column]].drop_duplicates()] *)
Definition attribute_data (column : string) (raw : DataFrame)
  : result (list (cell * cell)) :=
  names ← getitem raw "Razón social";
  attribute ← getitem raw column;
  mret (drop_duplicates (zip names attribute)).

(** Line 440 *)
Definition property_type_data (raw : DataFrame) : result (list (cell * cell)) :=
  attribute_data "Tipo de propiedad (Privada, Pública, Mixta)" raw.

(** Line 464 *)
Definition multinational_info (raw : DataFrame) : result (list (cell * cell)) :=
  attribute_data "¿Multinacional? Si/No" raw.

(** [pd.merge(left, right, on='Razón social')]: the inner join. The rows
    follow the order of the left table, the matches of one row the order of
    the right table. *)
Definition merge_on_name (left : list company) (right : list (cell * cell))
  : list (company * cell) :=
  flat_map (fun c => map (fun p => (c, snd p))
                         (filter (fun p => fst p = razon_social c) right))
           left.

(** Lines 441-442 *)
Definition boxplot_data (company_agg_data : list company) (raw : DataFrame)
  : result (list (company * cell)) :=
  pairs ← property_type_data raw;
  mret (filter (fun r => snd r <> NaN) (merge_on_name company_agg_data pairs)).

(** Lines 465-466 *)
Definition density_data (company_agg_data : list company) (raw : DataFrame)
  : result (list (company * cell)) :=
  pairs ← multinational_info raw;
  mret (filter (fun r => snd r <> NaN) (merge_on_name company_agg_data pairs)).

(** A row of [parallel_coords_df]: the company, its scores by pillar, and
    the two columns that the merge adds. *)
Record profile := mkProfile {
  profile_company : cell;
  profile_scores : Series;
  profile_macrosector : cell;
  profile_total : cell
}.

(** [pd.merge(left, right[['Razón social', 'Macrosector',
    'Puntaje_Total_Sostenibilidad']], on='Razón social', how='left')]: every
    row of the left table stays; a row without match gets nulls. *)
Definition merge_left (left : list (cell * Series)) (right : list company)
  : list profile :=
  flat_map (fun l =>
              match filter (fun c => razon_social c = fst l) right with
              | [] => [mkProfile (fst l) (snd l) NaN NaN]
              | c :: more =>
                  map (fun c => mkProfile (fst l) (snd l) (macrosector c) (puntaje_total c))
                      (c :: more)
              end)
           left.

(** Lines 299-310 *)
Definition parallel_coords_df (raw : DataFrame) (company_agg_data : list company)
  : result (list profile) :=
  names ← getitem raw "Razón social";
  pilar ← getitem raw "Nombre Pilar";
  score ← getitem raw "valoracionPonderada";
  pivoted_data ← groupby2 agg_sum names pilar score;
  m ← pivot pivoted_data;
  let wide := fillna_matrix 0 m in
  mret (merge_left (zip (index wide) (data wide)) company_agg_data).

(** [df.dropna(subset=[a, b])]: the rows in which neither column is null. *)
Definition dropna_subset2 (df : DataFrame) (a b : string) : result DataFrame :=
  col_a ← getitem df a;
  col_b ← getitem df b;
  mret (select_rows df (zip_with andb (map notna col_a) (map notna col_b))).

(** Lines 366-367 *)
Definition sunburst_data (raw : DataFrame) : result DataFrame :=
  kept ← dropna_subset2 raw "Bloque" "Nombre Pilar";
  score ← getitem kept "valoracionPonderada";
  mask ← mapM gt_zero score;
  mret (select_rows kept mask).

(** A row of [df_agg]: the pillar and the variable, the sector, and the mean
    score of the three. *)
Definition agg_row : Type := (cell * cell) * cell * cell.
Definition agg_pair (r : agg_row) : cell * cell := fst (fst r).
Definition agg_sector (r : agg_row) : cell := snd (fst r).
Definition agg_value (r : agg_row) : cell := snd r.

(** Lines 574 and 606 *)
Definition df_agg (raw : DataFrame) : result (list agg_row) :=
  pilar ← getitem raw "Nombre Pilar";
  variable ← getitem raw "Variable";
  sector ← getitem raw "Macrosector";
  score ← getitem raw "valoracionPonderada";
  let keys := zip (zip pilar variable) sector in
  mapM (fun k => v ← agg_mean (group_values keys score k); mret (k, v))
       (group_keys keys).

(** [idxmax] of one group, the values given with their row labels: the label
    of the first of the largest values, nulls skipped; no label when every
    value is null. A string cannot be compared with a number. *)
Fixpoint idxmax_from (best : option (nat * Qc)) (l : list (nat * cell))
  : result (option nat) :=
  match l with
  | [] => Ok (fst <$> best)
  | (i, c) :: rest =>
      match c with
      | NaN => idxmax_from best rest
      | Num q =>
          match best with
          | Some (_, b) =>
              if Qc_ltb b q then idxmax_from (Some (i, q)) rest
              else idxmax_from best rest
          | None => idxmax_from (Some (i, q)) rest
          end
      | Str _ => Raise TypeError
      end
  end.

Definition idxmax (l : list (nat * cell)) : result (option nat) :=
  idxmax_from None l.

(** Lines 575 and 608: [df_agg] has the row labels 0, 1, ... *)
Definition idx (rows : list agg_row) : result (list (option nat)) :=
  let keys := map agg_pair rows in
  let labelled := zip (List.seq 0 (length rows)) (map agg_value rows) in
  mapM (fun k => idxmax (group_values keys labelled k)) (group_keys keys).

(** [df_agg.loc[idx]]: the rows with these labels. With a label missing (a
    group whose means are all null) there is no table: pandas stops with an
    exception, in [idxmax] or in the lookup, by its version. *)
Definition loc (rows : list agg_row) (labels : list (option nat))
  : option (list agg_row) :=
  mapM (fun label => i ← label; rows !! i) labels.

(** [pd.merge(left, right, on=['Nombre Pilar', 'Variable'])]: the inner
    join. *)
Definition merge_on_pair (left : list entry) (right : list (cell * cell * cell))
  : list (entry * cell) :=
  flat_map (fun e => map (fun r => (e, snd r))
                         (filter (fun r => fst r = fst e) right))
           left.

(** A row of [df_plot_data]. *)
Record leader_row := mkLeaderRow {
  leader_pilar : cell;
  leader_variable : string;
  leader_value : cell;
  sector_lider : cell
}.

(** Lines 574-580 and 606-615; [None] when [df_agg.loc[idx]] has no
    table. *)
Definition df_plot_data (raw : DataFrame) : result (option (list leader_row)) :=
  agg ← df_agg raw;
  labels ← idx agg;
  match loc agg labels with
  | None => Ok None
  | Some picked =>
      let df_leaders := map (fun r => (agg_pair r, agg_sector r)) picked in
      plot ← groupby2 agg_mean (map (fun r => fst (agg_pair r)) agg)
                      (map (fun r => snd (agg_pair r)) agg) (map agg_value agg);
      rows ← mapM (fun m =>
                     variable ← V3.wrap_label 30 (entry_col (fst m));
                     mret (mkLeaderRow (entry_row (fst m)) variable
                                       (entry_val (fst m)) (snd m)))
                  (merge_on_pair plot df_leaders);
      mret (Some rows)
  end.

End V3Data.

Import V3Data.

(** ** The leader of a group *)

Module Leading.

(** Some dataset row has the pillar [p], the variable [v] and the sector
    [s], none of them null: the three make a group of [df_agg]. *)
Definition grouped (pilar variable sector : Series) (p v s : cell) : Prop :=
  (exists i, pilar !! i = Some p /\ variable !! i = Some v /\ sector !! i = Some s)
  /\ p <> NaN /\ v <> NaN /\ s <> NaN.

(** The mean score of the rows of a pillar, a variable and a sector, null
    when none of these scores is a number. *)
Definition mean_of (pilar variable sector score : Series) (p v s : cell) : cell :=
  mean_cell (group_values (zip (zip pilar variable) sector) score (p, v, s)).

(** Row [i] of [rows] leads the group [k]: it belongs to the group, its
    mean is a number, no mean of the group is larger, and the means of the
    group in the rows before it are smaller. *)
Definition leads (rows : list agg_row) (k : cell * cell) (i : nat) : Prop :=
  exists r q,
    rows !! i = Some r /\ agg_pair r = k /\ agg_value r = Num q
    /\ forall j r' q',
         rows !! j = Some r' -> agg_pair r' = k -> agg_value r' = Num q' ->
         (q' <= q)%Qc /\ ((j < i)%nat -> (q' < q)%Qc).

(** What [idx] holds for a group: the label of its leader, or nothing when
    every mean of the group is null. *)
Definition labelled (rows : list agg_row) (k : cell * cell) (label : option nat)
  : Prop :=
  match label with
  | Some i => leads rows k i
  | None => forall r, r ∈ rows -> agg_pair r = k -> agg_value r = NaN
  end.

End Leading.

Import Leading.

(** ** More cases, for the examples *)

Module Cases.

(** A brand file with the style 'title' but without the style 'heading2'. *)
Definition brand_title_only : json :=
  JObject
    [ ("colorPalette",
       JObject [ ("text", JObject [("primary", JString "#000066")]);
                 ("background", JObject [("main", JString "#FFFFFF");
                                         ("highlight", JString "#F2F2F2")]);
                 ("chartColors", JArray [JString "#000066"; JString "#00A9E0"]) ]);
      ("typography",
       JObject [ ("defaultFontFamily", JString "Arial");
                 ("styles", JObject [ ("title", JObject [("fontFamily", JString "Arial")]) ]) ]) ].

Definition world_title_only : world :=
  mkWorld (<["eafitBrand.json" := JsonFile brand_title_only]> files) [] [] None.


(** A dataset without the sector column. *)
Definition table_no_sector : DataFrame :=
  mkDataFrame ["Razón social"; "valoracionPonderada"]
    [ [Str "Alfa"; Num 1%Qc] ].

Definition world_no_sector : world :=
  mkWorld (<["empresasEafit.csv" := CsvFile table_no_sector]> files) [] [] None.



(** Three dataset rows with the attributes of charts 11 and 12: one company
    with two property types, one without any. *)
Definition table_attributes : DataFrame :=
  mkDataFrame
    ["Razón social"; "Tipo de propiedad (Privada, Pública, Mixta)";
     "¿Multinacional? Si/No"]
    [ [Str "Alfa"; Str "Privada"; Str "Si"];
      [Str "Alfa"; Str "Mixta"; Str "Si"];
      [Str "Delta"; NaN; Str "No"] ].

End Cases.

Import Cases.

(** * Properties of the text helpers *)

Section TextFacts.

#[local] Arguments String.append : simpl nomatch.


Lemma append_assoc (a b c : string) : ((a ++ b) ++ c = a ++ (b ++ c))%string.
Proof. induction a; simpl; congruence. Qed.

Lemma length_append (a b : string) :
  String.length (a ++ b) = (String.length a + String.length b)%nat.
Proof. induction a; simpl; congruence. Qed.

Lemma len_append (a b : string) : len (a ++ b) = (len a + len b)%Z.
Proof. unfold len. rewrite length_append. lia. Qed.

Lemma len_nonneg (s : string) : (0 <= len s)%Z.
Proof. unfold len. lia. Qed.

Lemma join_cons_cons sep (x y : string) (l : list string) :
  join sep (x :: y :: l) = (x ++ sep ++ join sep (y :: l))%string.
Proof. reflexivity. Qed.

Lemma join_snoc (line : list string) (w : string) :
  line <> [] -> join " " (line ++ [w]) = (join " " line ++ " " ++ w)%string.
Proof.
  induction line as [|x [|y l] IH]; intros Hne; [done| reflexivity |].
  change (join " " ((x :: y :: l) ++ [w]))
    with (x ++ " " ++ join " " ((y :: l) ++ [w]))%string.
  rewrite IH by done. rewrite join_cons_cons, !append_assoc. reflexivity.
Qed.

Lemma words_length_snoc line w :
  words_length (line ++ [w]) = (words_length line + len w)%Z.
Proof. induction line; simpl; lia. Qed.

Lemma len_join line :
  line <> [] ->
  len (join " " line) = (words_length line + Z.of_nat (length line) - 1)%Z.
Proof.
  induction line as [|x [|y l] IH]; intros Hne; [done | |].
  - simpl. unfold len. simpl. lia.
  - rewrite join_cons_cons, !len_append, IH by done.
    change (len " ") with 1%Z. simpl length. simpl words_length. lia.
Qed.

Lemma len_cons c (s : string) : len (String c s) = (1 + len s)%Z.
Proof. unfold len. simpl String.length. lia. Qed.

Lemma wrap_loop_pack max_length words : forall lines line,
  line <> [] ->
  close_lines (wrap_loop max_length words lines line (words_length line))
  = lines ++ pack_from max_length (join " " line) words.
Proof.
  induction words as [|w rest IH]; intros lines line Hne.
  - unfold close_lines. simpl. rewrite bool_decide_eq_false_2 by done. done.
  - cbn [wrap_loop pack_from].
    rewrite (bool_decide_eq_false_2 _ Hne). simpl negb. rewrite andb_true_r.
    rewrite !len_append, len_join by done. change (len " ") with 1%Z.
    replace (words_length line + len w + Z.of_nat (length line) >? max_length)%Z
      with (words_length line + Z.of_nat (length line) - 1 + (1 + len w) >? max_length)%Z
      by (f_equal; lia).
    destruct (_ >? _)%Z.
    + replace (len w) with (words_length [w]) at 1 by (simpl; lia).
      rewrite IH by done. rewrite <- app_assoc. reflexivity.
    + rewrite <- words_length_snoc, IH by (by destruct line).
      rewrite join_snoc by done. reflexivity.
Qed.

Lemma wrap_text_long text max_length :
  (len text <=? max_length)%Z = false ->
  wrap_text text max_length = join "<br>" (greedy_lines max_length (split text)).
Proof.
  intros Hlong. unfold wrap_text. rewrite Hlong.
  destruct (split text) as [|w rest] eqn:Hw; [reflexivity|].
  cbn [wrap_loop greedy_lines]. rewrite bool_decide_eq_true_2 by done.
  cbn [negb andb]. rewrite andb_false_r. rewrite Z.add_0_l.
  pose proof (wrap_loop_pack max_length rest [] [w] ltac:(done)) as Hp.
  simpl words_length in Hp. rewrite Z.add_0_r in Hp.
  change ([] ++ [w]) with [w].
  destruct (wrap_loop max_length rest [] [w] (len w)) as [lines line].
  unfold close_lines in Hp. cbn [fst snd] in Hp. rewrite Hp. reflexivity.
Qed.

End TextFacts.

Section TextFacts2.

#[local] Arguments String.append : simpl nomatch.

Lemma map_join_group max_length words : forall line,
  line <> [] ->
  map (join " ") (group_from max_length line words)
  = pack_from max_length (join " " line) words.
Proof.
  induction words as [|w rest IH]; intros line Hne; [reflexivity|].
  cbn [group_from pack_from]. rewrite join_snoc by done.
  destruct (_ >? _)%Z.
  - cbn [map]. rewrite IH by done. reflexivity.
  - rewrite IH by (by destruct line). rewrite join_snoc by done. reflexivity.
Qed.

Lemma greedy_groups_lines max_length words :
  map (join " ") (greedy_groups max_length words) = greedy_lines max_length words.
Proof. destruct words; [reflexivity|]. by apply map_join_group. Qed.






(** Words of [split]. *)
Lemma no_space_app a b : no_space (a ++ b) = no_space a && no_space b.
Proof. induction a; simpl; [done|]. rewrite IHa. by rewrite andb_assoc. Qed.

Definition word (w : string) : Prop := nonempty w = true /\ no_space w = true.

Lemma nonempty_snoc cur c : nonempty (cur ++ String c "") = true.
Proof. by destruct cur. Qed.

Lemma split_from_words s : forall cur,
  no_space cur = true -> Forall word (split_from cur s).
Proof.
  induction s as [|c s IH]; intros cur Hcur; cbn [split_from].
  - destruct (nonempty cur) eqn:Hne; by repeat constructor.
  - destruct (isspace c) eqn:Hc.
    + destruct (nonempty cur) eqn:Hne; [constructor; [done|]|]; by apply IH.
    + apply IH. rewrite no_space_app, Hcur. simpl. by rewrite Hc.
Qed.

Lemma split_words text : Forall word (split text).
Proof. by apply split_from_words. Qed.

End TextFacts2.

Section Marker.

#[local] Arguments String.append : simpl nomatch.




Lemma append_cons c (s t : string) : (String c s ++ t)%string = String c (s ++ t).
Proof. reflexivity. Qed.


Lemma prefix_nil_r a s : String.prefix (String a s) "" = false.
Proof. reflexivity. Qed.












End Marker.

Section Spaces.

#[local] Arguments String.append : simpl nomatch.




Lemma no_space_plain w : no_space w = true -> plain_spaces w = true.
Proof.
  induction w as [|c w IH]; [done|]. simpl. intros [Hc Hw]%andb_prop.
  by rewrite Hc, IH.
Qed.

Lemma plain_spaces_app a b :
  plain_spaces (a ++ b) = plain_spaces a && plain_spaces b.
Proof. induction a; simpl; [done|]. rewrite IHa. by rewrite andb_assoc. Qed.

Lemma join_plain_spaces line :
  Forall word line -> plain_spaces (join " " line) = true.
Proof.
  induction line as [|x [|y l] IH]; intros Hall; [done| |].
  - apply Forall_cons in Hall as [[_ ?] _]. by apply no_space_plain.
  - apply Forall_cons in Hall as [[_ Hx] Hall]. rewrite join_cons_cons.
    rewrite !plain_spaces_app, no_space_plain, IH by done. reflexivity.
Qed.



End Spaces.

(** ** The claims about [wrap_text] *)

(** C6: [wrap_text] returns a text that is not longer than the threshold
    unchanged. A longer text is split into its whitespace-separated words,
    the words are packed greedily into lines (the next word opens a new
    line when, put after a space, it would make the line longer than the
    threshold) and the lines are joined by the marker '<br>'. *)
Theorem wrap_text_greedy (text : string) (max_length : Z) :
  wrap_text text max_length
  = if (len text <=? max_length)%Z then text
    else join "<br>" (greedy_lines max_length (split text)).
Proof.
  destruct (len text <=? max_length)%Z eqn:Hlen.
  - unfold wrap_text. by rewrite Hlen.
  - by apply wrap_text_long.
Qed.





(** * Properties of the loaders *)

Section Loader.

Lemma mask_filter {A} (g : A -> bool) (l : list A) :
  map fst (filter (fun p => snd p = true) (zip l (map g l)))
  = filter (fun x => g x = true) l.
Proof.
  induction l as [|x l IH]; [reflexivity|].
  cbn [map zip zip_with]. rewrite !filter_cons. cbn [snd].
  destruct (decide (g x = true)); cbn [map fst]; by rewrite IH.
Qed.

Lemma not_isin_sentinel c :
  negb (match c with Str x => bool_decide (x ∈ V3.sentinels) | _ => false end) = true
  <-> ~ V3.is_sentinel c.
Proof.
  destruct c as [|q|s]; simpl.
  - split; [|done]. intros _ (s' & ? & _). discriminate.
  - split; [|done]. intros _ (s' & ? & _). discriminate.
  - rewrite negb_true_iff, bool_decide_eq_false. split.
    + intros Hs (s' & [= ->] & ?). done.
    + intros Hs Hin. apply Hs. by exists s.
Qed.

Lemma drop_sentinels_rows df i :
  col_index "Macrosector" (columns df) = Some i ->
  V3.drop_sentinels df
  = Ok (mkDataFrame (columns df)
          (filter (fun row => ~ V3.is_sentinel (cell_of i row)) (values df))).
Proof.
  intros Hi. unfold V3.drop_sentinels, getitem. rewrite Hi. simpl.
  unfold mret, result_ret. f_equal. unfold select_rows. f_equal.
  unfold isin. rewrite !map_map.
  rewrite (mask_filter (fun row => negb match cell_of i row with
                                        | Str x => bool_decide (x ∈ V3.sentinels)
                                        | _ => false end)).
  apply list_filter_iff. intros row. apply not_isin_sentinel.
Qed.


(** Running a step after another. *)
Lemma bind_run {A B} (m : M A) (f : A -> M B) (w : world) :
  (m ≫= f) w
  = match m w with
    | (Ok a, w') => f a w'
    | (Raise e, w') => (Raise e, w')
    end.
Proof. reflexivity. Qed.

Lemma seq_run {A} (m : M unit) (k : M A) (w : world) :
  (m ;; k) w
  = match m w with
    | (Ok _, w') => k w'
    | (Raise e, w') => (Raise e, w')
    end.
Proof. unfold seq. rewrite bind_run. by destruct (m w) as [[[]|] ?]. Qed.

Lemma load_raw_data_run (w : world) (df : DataFrame) (i : nat) :
  fs w !! "empresasEafit.csv" = Some (CsvFile df) ->
  col_index "Macrosector" (map strip (columns df)) = Some i ->
  V3.load_raw_data w
  = (Ok (S (length (heap w))),
     mkWorld (fs w)
       ((heap w ++ [rename_columns strip df])
        ++ [mkDataFrame (map strip (columns df))
              (filter (fun row => ~ V3.is_sentinel (cell_of i row)) (values df))])
       (stdout w) (default_template w)).
Proof.
  intros Hcsv Hi. unfold V3.load_raw_data.
  rewrite bind_run. unfold read_csv at 1. rewrite Hcsv. unfold alloc at 1.
  rewrite seq_run. unfold update at 1. cbn [heap].
  rewrite lookup_app_r, Nat.sub_diag by done. cbn [lookup list_lookup].
  rewrite bind_run. unfold deref at 1. cbn [heap].
  rewrite insert_app_r_alt, Nat.sub_diag by done. cbn [insert list_insert].
  rewrite lookup_app_r, Nat.sub_diag by done. cbn [lookup list_lookup].
  rewrite bind_run. unfold lift at 1.
  rewrite (drop_sentinels_rows _ i) by done.
  unfold alloc. cbn [heap fs stdout default_template rename_columns columns values].
  rewrite length_app. cbn [length]. do 2 f_equal. lia.
Qed.

Lemma setup_environment_run (w : world) (df : DataFrame) (b : json) :
  fs w !! "empresasEafit.csv" = Some (CsvFile df) ->
  fs w !! "eafitBrand.json" = Some (JsonFile b) ->
  is_Ok (V2.make_template b) ->
  exists w',
    V2.setup_environment w = (Ok (Some (length (heap w)), Some b), w')
    /\ heap w' = heap w ++ [df].
Proof.
  intros Hcsv Hjson [t Ht]. unfold V2.setup_environment.
  rewrite bind_run. unfold path_exists at 1. rewrite seq_run.
  assert ("charts" <> "empresasEafit.csv") as Hne1 by done.
  assert ("charts" <> "eafitBrand.json") as Hne2 by done.
  destruct (bool_decide (is_Some (fs w !! "charts"))).
  - unfold mret at 1, M_ret at 1. rewrite bind_run.
    unfold try_except_FileNotFoundError. rewrite bind_run.
    unfold read_csv at 1. rewrite Hcsv. unfold alloc at 1.
    rewrite bind_run. unfold load_json at 1. cbn [fs]. rewrite Hjson.
    unfold mret at 1, M_ret at 1.
    rewrite bind_run. unfold lift at 1. rewrite Ht.
    eexists. split; [reflexivity|]. reflexivity.
  - rewrite seq_run. unfold makedirs at 1, print at 1. rewrite bind_run.
    unfold try_except_FileNotFoundError. rewrite bind_run.
    unfold read_csv at 1. cbn [fs]. rewrite lookup_insert_ne, Hcsv by done.
    unfold alloc at 1.
    rewrite bind_run. unfold load_json at 1. cbn [fs].
    rewrite lookup_insert_ne, Hjson by done.
    unfold mret at 1, M_ret at 1.
    rewrite bind_run. unfold lift at 1. rewrite Ht.
    eexists. split; [reflexivity|]. reflexivity.
Qed.

(** ** The claim about the loaders *)

(** C3, as stated, fails for the loader of v2, which filters nothing: the
    row of the fixture with the placeholder sector 'No informa' is in the
    table that [setup_environment] returns. *)
Lemma loader_counterexample :
  exists w',
    V2.setup_environment world0 = (Ok (Some 0%nat, Some brand), w')
    /\ heap w' !! 0%nat = Some table
    /\ exists row,
         values table !! 4%nat = Some row /\ row !! 1%nat = Some (Str "No informa").
Proof.
  eexists. split; [vm_compute; reflexivity|]. split; [reflexivity|].
  eexists. split; reflexivity.
Qed.

(** C3, amended: the loader of v3 trims the column names and keeps, in
    their order, exactly the rows whose sector cell is none of the
    placeholders '0', 'No', 'No informa', 'SI', 'Si'; the loader of v2,
    [setup_environment], returns the table of the file as it is. *)
Theorem loaders_and_sentinels (w : world) (df : DataFrame) :
  fs w !! "empresasEafit.csv" = Some (CsvFile df) ->
  (forall i, col_index "Macrosector" (map strip (columns df)) = Some i ->
     exists raw_data w',
       V3.load_raw_data w = (Ok raw_data, w')
       /\ heap w' !! raw_data
          = Some (mkDataFrame (map strip (columns df))
                    (filter (fun row => ~ V3.is_sentinel (cell_of i row)) (values df))))
  /\ (forall b, fs w !! "eafitBrand.json" = Some (JsonFile b) ->
       is_Ok (V2.make_template b) ->
       exists r w',
         V2.setup_environment w = (Ok (Some r, Some b), w')
         /\ heap w' !! r = Some df).
Proof.
  intros Hcsv. split.
  - intros i Hi. eexists _, _. split; [by apply load_raw_data_run|].
    cbn [heap]. rewrite lookup_app_r; rewrite length_app; cbn [length]; [|lia].
    replace (S (length (heap w)) - (length (heap w) + 1))%nat with 0%nat by lia.
    reflexivity.
  - intros b Hjson Ht.
    destruct (setup_environment_run w df b Hcsv Hjson Ht) as (w' & Hrun & Hheap).
    eexists _, w'. split; [exact Hrun|].
    rewrite Hheap, lookup_app_r, Nat.sub_diag by done. reflexivity.
Qed.

Lemma loaders_and_sentinels_witness :
  fs world0 !! "empresasEafit.csv" = Some (CsvFile table)
  /\ exists raw_data w',
       V3.load_raw_data world0 = (Ok raw_data, w')
       /\ heap w' !! raw_data
          = Some (mkDataFrame (map strip (columns table))
                    (filter (fun row => ~ V3.is_sentinel (cell_of 1 row)) (values table))).
Proof.
  split; [reflexivity|].
  apply (loaders_and_sentinels world0 table); reflexivity.
Defined.

End Loader.


(** * A required input file is missing *)

Section MissingInput.
Context `{FloatParser}.

Lemma with_charts_dir_other (w : world) (path : string) :
  path <> "charts" -> fs (with_charts_dir w) !! path = fs w !! path.
Proof.
  intros Hne. unfold with_charts_dir.
  destruct (bool_decide _); [done|]. cbn [fs]. by rewrite lookup_insert_ne.
Qed.

Lemma with_charts_dir_no_chart (w : world) : no_chart_written w (with_charts_dir w).
Proof.
  intros path fig Hfig. destruct (decide (path = "charts")) as [->|Hne].
  - unfold with_charts_dir in *. destruct (bool_decide _); [done|].
    cbn [fs] in Hfig. rewrite lookup_insert_eq in Hfig. by destruct Hfig.
  - by apply with_charts_dir_other.
Qed.



(** ** The claim about missing input files *)


End MissingInput.



(** * The shared table *)

Section Hoare.

Lemma triple_bind {A B} (P : world -> Prop) (m : M A) (f : A -> M B)
    (Q : result A -> world -> Prop) (R : result B -> world -> Prop) :
  triple P m Q ->
  (forall a, triple (Q (Ok a)) (f a) R) ->
  (forall e w, Q (Raise e) w -> R (Raise e) w) ->
  triple P (m ≫= f) R.
Proof.
  intros Hm Hf He w Hw. rewrite bind_run. specialize (Hm w Hw).
  destruct (m w) as [[a|e] w']; cbn [fst snd] in *.
  - by apply Hf.
  - by apply He.
Qed.

Lemma triple_seq {A} (P : world -> Prop) (m : M unit) (k : M A)
    (Q : result unit -> world -> Prop) (R : result A -> world -> Prop) :
  triple P m Q ->
  triple (Q (Ok tt)) k R ->
  (forall e w, Q (Raise e) w -> R (Raise e) w) ->
  triple P (m ;; k) R.
Proof.
  intros Hm Hk He. unfold seq. eapply triple_bind; [exact Hm| |exact He].
  by intros [].
Qed.

Lemma triple_weaken {A} (P P' : world -> Prop) (m : M A)
    (Q Q' : result A -> world -> Prop) :
  triple P' m Q' -> (forall w, P w -> P' w) -> (forall r w, Q' r w -> Q r w) ->
  triple P m Q.
Proof. intros Hm HP HQ w Hw. by apply HQ, Hm, HP. Qed.

Lemma triple_pre_and {A} (F : Prop) (P : world -> Prop) (m : M A)
    (Q : result A -> world -> Prop) :
  (F -> triple P m Q) -> triple (fun w => F /\ P w) m Q.
Proof. intros Hm w [HF Hw]. by apply Hm. Qed.

Lemma keeps_bind {A B} I (m : M A) (f : A -> M B) :
  keeps I m -> (forall a, keeps I (f a)) -> keeps I (m ≫= f).
Proof. intros Hm Hf. eapply triple_bind; [exact Hm|exact Hf|done]. Qed.

Lemma keeps_seq {A} I (m : M unit) (k : M A) :
  keeps I m -> keeps I k -> keeps I (m ;; k).
Proof. intros Hm Hk. unfold seq. apply keeps_bind; [done|]. by intros []. Qed.

Lemma keeps_ret {A} I (a : A) : keeps I (mret a).
Proof. by intros w Hw. Qed.

Lemma keeps_lift {A} I (r : result A) : keeps I (lift r).
Proof. by intros w Hw. Qed.

(** Steps that leave the objects alone. *)
Lemma keeps_heap_deref h r : keeps (heap_is h) (deref r).
Proof. intros w Hw. unfold deref. by destruct (heap w !! r). Qed.

Lemma keeps_heap_path_exists h p : keeps (heap_is h) (path_exists p).
Proof. by intros w Hw. Qed.

Lemma keeps_heap_makedirs h p : keeps (heap_is h) (makedirs p).
Proof. by intros w Hw. Qed.

Lemma keeps_heap_print h s : keeps (heap_is h) (print s).
Proof. by intros w Hw. Qed.

Lemma keeps_heap_write_file h d n f : keeps (heap_is h) (write_file d n f).
Proof.
  intros w Hw. unfold write_file. by destruct (fs w !! d) as [[]|].
Qed.

Lemma keeps_heap_emit h fig html png : keeps (heap_is h) (V3.emit fig html png).
Proof.
  unfold V3.emit, V3.save_chart_as_html, V3.write_image.
  apply keeps_seq; [|apply keeps_heap_write_file].
  apply keeps_bind; [apply keeps_heap_path_exists|]. intros e.
  apply keeps_seq; [|apply keeps_heap_write_file].
  destruct e; [apply keeps_ret|apply keeps_heap_makedirs].
Qed.

Lemma keeps_heap_save_v2 h fig name : keeps (heap_is h) (V2.save_chart_as_html fig name).
Proof.
  unfold V2.save_chart_as_html.
  apply keeps_seq; [apply keeps_heap_write_file|apply keeps_heap_print].
Qed.

Lemma keeps_heap_read_only {A} h (r : ref) (f : DataFrame -> M A) :
  (forall df, keeps (heap_is h) (f df)) -> keeps (heap_is h) (deref r ≫= f).
Proof. intros Hf. apply keeps_bind; [apply keeps_heap_deref|done]. Qed.

End Hoare.

Section ReadOnlyCharts.
Context `{FloatParser}.

Lemma chart01_reads h r : keeps (heap_is h) (V3.chart01 r).
Proof.
  apply keeps_heap_read_only. intros df.
  apply keeps_bind; [apply keeps_lift|]. intros m.
  apply keeps_bind; [apply keeps_lift|]. intros th. apply keeps_heap_emit.
Qed.

Lemma chart07_reads order h r : keeps (heap_is h) (V3.chart07 order r).
Proof.
  apply keeps_heap_read_only. intros df.
  apply keeps_bind; [apply keeps_lift|]. intros m. apply keeps_heap_emit.
Qed.

Lemma chart13_reads h r : keeps (heap_is h) (V3.chart13 r).
Proof.
  apply keeps_heap_read_only. intros df.
  apply keeps_bind; [apply keeps_lift|]. intros m. apply keeps_heap_emit.
Qed.

Lemma chart15_reads h r : keeps (heap_is h) (V3.chart15 r).
Proof.
  apply keeps_heap_read_only. intros df.
  apply keeps_bind; [apply keeps_lift|]. intros m. apply keeps_heap_emit.
Qed.

Lemma to_numeric_coerce_ok (s : Series) : is_Ok (to_numeric ErrorsCoerce s).
Proof.
  unfold to_numeric. induction s as [|c s [s' IH]]; [by eexists|].
  cbn [mapM]. rewrite IH.
  destruct c as [|q|x]; cbn; try by eexists.
  destruct (parse_float x); by eexists.
Qed.

Lemma holds_heap_is r t w : holds r t w -> heap_is (heap w) w.
Proof. done. Qed.

(** A step that leaves the objects alone keeps what [r] holds. *)
Lemma keeps_holds {A} r t (m : M A) :
  (forall h, keeps (heap_is h) m) -> keeps (holds r t) m.
Proof.
  intros Hm w Hw. unfold holds in *. specialize (Hm (heap w) w eq_refl).
  cbn beta in Hm. unfold heap_is in Hm. by rewrite Hm.
Qed.

Lemma coerce_column_eq r c t col col' w :
  heap w !! r = Some t ->
  getitem t c = Ok col -> V3.coerce_fill col = Ok col' ->
  V3.coerce_column r c w
  = (Ok tt, mkWorld (fs w) (<[r := setitem t c col']> (heap w)) (stdout w)
              (default_template w)).
Proof.
  intros Hw Hcol Hfill. unfold V3.coerce_column.
  rewrite bind_run. unfold ref_getitem. rewrite bind_run. unfold deref at 1.
  rewrite Hw. unfold lift at 1. rewrite Hcol.
  rewrite bind_run. unfold lift at 1. rewrite Hfill.
  unfold ref_setitem, update. by rewrite Hw.
Qed.

Lemma coerce_column_run r c t col col' :
  getitem t c = Ok col -> V3.coerce_fill col = Ok col' ->
  triple (holds r t) (V3.coerce_column r c)
    (fun res w => res = Ok tt /\ holds r (setitem t c col') w).
Proof.
  intros Hcol Hfill w Hw. rewrite (coerce_column_eq r c t col col') by done.
  cbn [fst snd]. split; [done|]. unfold holds. cbn [heap].
  apply list_lookup_insert_eq. by eapply lookup_lt_Some.
Qed.

Lemma chart04_updates r t t' :
  V3.coerced t = Ok t' ->
  triple (holds r t) (V3.chart04 r) (fun _ w => holds r t' w).
Proof.
  unfold V3.coerced. intros Hco.
  destruct (getitem t "valoracionPonderada") as [score|] eqn:Hscore; [|done].
  cbn in Hco. destruct (V3.coerce_fill score) as [score'|] eqn:Hfill1; [|done].
  cbn in Hco.
  destruct (getitem (setitem t "valoracionPonderada" score') "Ingresos operacionales")
    as [income|] eqn:Hincome; [|done].
  cbn in Hco. destruct (V3.coerce_fill income) as [income'|] eqn:Hfill2; [|done].
  cbn in Hco. injection Hco as <-.
  unfold V3.chart04.
  eapply triple_seq; [by eapply coerce_column_run| |by intros e w [? _]].
  eapply triple_weaken with (P' := holds r (setitem t "valoracionPonderada" score'));
    [|by intros w [_ ?]|intros res w Hres; exact Hres].
  eapply triple_seq; [by eapply coerce_column_run| |by intros e w [? _]].
  eapply triple_weaken; [|by intros w [_ Hw]; exact Hw|intros res w Hres; exact Hres].
  apply keeps_holds. intros h.
  apply keeps_heap_read_only. intros df.
  apply keeps_bind; [apply keeps_lift|]. intros rows.
  apply keeps_seq; [destruct rows; [apply keeps_lift|apply keeps_ret]|].
  apply keeps_seq; [apply keeps_heap_emit|apply keeps_ret].
Qed.

Lemma chart05_updates r t years years' :
  getitem t "Año de fundación" = Ok years ->
  to_numeric ErrorsCoerce years = Ok years' ->
  triple (holds r t) (V3.chart05 r)
    (fun _ w => holds r (setitem t "Año de fundación" years') w).
Proof.
  intros Hyears Hnum. unfold V3.chart05.
  eapply triple_bind with
    (Q := fun res w => res = Ok years /\ holds r t w).
  { intros w Hw. unfold ref_getitem. rewrite bind_run. unfold deref, holds in *.
    rewrite Hw. unfold lift. by rewrite Hyears. }
  2: by intros e w [? _].
  intros ?. apply triple_pre_and. intros [= ->].
  eapply triple_bind with
    (Q := fun res w => res = Ok years' /\ holds r t w).
  { intros w Hw. unfold lift. by rewrite Hnum. }
  2: by intros e w [? _].
  intros ?. apply triple_pre_and. intros [= ->].
  eapply triple_seq with
    (Q := fun res w => holds r (setitem t "Año de fundación" years') w).
  { intros w Hw. unfold ref_setitem, update, holds in *. rewrite Hw.
    cbn [fst snd heap]. apply list_lookup_insert_eq. by eapply lookup_lt_Some. }
  2: done.
  apply keeps_holds. intros h. apply keeps_heap_read_only. intros df.
  apply keeps_bind; [apply keeps_lift|]. intros rows. apply keeps_heap_emit.
Qed.

(** Chart 5 of v2 copies the table and changes the copy. *)
Lemma generate_chart_05_copies r t :
  keeps (holds r t) (V2.generate_chart_05_scatter_income_vs_performance r).
Proof.
  intros w Hw. unfold holds in Hw.
  assert (r < length (heap w))%nat as Hlt by by eapply lookup_lt_Some.
  unfold V2.generate_chart_05_scatter_income_vs_performance.
  rewrite bind_run. unfold ref_copy at 1. rewrite bind_run. unfold deref at 1.
  rewrite Hw. unfold alloc at 1.
  set (n := length (heap w)).
  set (w1 := mkWorld (fs w) (heap w ++ [t]) (stdout w) (default_template w)).
  (* every later step changes at most the copy [n] *)
  set (I := fun w' : world => holds r t w' /\ (n < length (heap w'))%nat).
  assert (I w1) as HI.
  { split; [by apply lookup_app_l_Some|]. cbn [w1 heap]. rewrite length_app.
    cbn [length]. lia. }
  assert (forall A (m : M A), keeps I m -> holds r t (snd (m w1))) as Hgo.
  { intros A m Hm. by apply Hm. }
  assert (r < n)%nat as Hrn by done.
  apply Hgo. clear Hgo HI. clearbody n w1. clear Hlt Hw w w1.
  assert (forall A (m : M A), (forall h, keeps (heap_is h) m) -> keeps I m) as Hro.
  { intros A m Hm w [Hw Hn]. specialize (Hm (heap w) w eq_refl).
    cbn beta in Hm. unfold heap_is in Hm. unfold I, holds. by rewrite Hm. }
  assert (forall c, keeps I (ref_getitem n c)) as Hget.
  { intros c. apply Hro. intros h. apply keeps_heap_read_only. intros df.
    apply keeps_lift. }
  assert (forall c s, keeps I (ref_setitem n c s)) as Hset.
  { intros c s w [Hw Hn]. unfold ref_setitem, update, I, holds in *.
    case_match; cbn [fst snd]; [|by split].
    cbn [heap]. rewrite length_insert.
    split; [|done]. rewrite list_lookup_insert_ne by lia. done. }
  apply keeps_bind; [apply Hget|]. intros income.
  apply keeps_bind; [apply keeps_lift|]. intros income'.
  apply keeps_seq; [apply Hset|].
  apply keeps_bind; [apply Hget|]. intros column.
  apply keeps_seq; [apply Hset|].
  apply Hro. intros h. apply keeps_heap_read_only. intros df.
  apply keeps_bind; [apply keeps_lift|]. intros rows. apply keeps_heap_save_v2.
Qed.

Lemma chart10_reads h rows : keeps (heap_is h) (V3.chart10 rows).
Proof. apply keeps_bind; [apply keeps_lift|]. intros d. apply keeps_heap_emit. Qed.

Lemma chart14_reads h rows : keeps (heap_is h) (V3.chart14 rows).
Proof. apply keeps_bind; [apply keeps_lift|]. intros d. apply keeps_heap_emit. Qed.

(** ** The claim about the shared table *)

(** C1, amended: chart 5 of v2 works on a copy, so the table that [main]
    shares is the same after it. In v3 the chart sections 1, 7, 10, 13, 14
    and 15 only read, but section 4 replaces, in the shared table itself,
    the score and income columns by their numeric zero-filled versions, and
    section 5 replaces the founding-year column by its numeric version: the
    sections before them read the table as loaded, the ones after them the
    changed table. *)
Theorem shared_table_updates (order : mem_order) (w : world) (r : ref)
    (t : DataFrame) :
  heap w !! r = Some t ->
  heap (snd (V2.generate_chart_05_scatter_income_vs_performance r w)) !! r = Some t
  /\ heap (snd (V3.chart01 r w)) = heap w
  /\ heap (snd (V3.chart07 order r w)) = heap w
  /\ (forall rows, heap (snd (V3.chart10 rows w)) = heap w)
  /\ heap (snd (V3.chart13 r w)) = heap w
  /\ (forall rows, heap (snd (V3.chart14 rows w)) = heap w)
  /\ heap (snd (V3.chart15 r w)) = heap w
  /\ (forall t', V3.coerced t = Ok t' ->
       heap (snd (V3.chart04 r w)) !! r = Some t')
  /\ (forall years years',
       getitem t "Año de fundación" = Ok years ->
       to_numeric ErrorsCoerce years = Ok years' ->
       heap (snd (V3.chart05 r w)) !! r
       = Some (setitem t "Año de fundación" years')).
Proof.
  intros Hw.
  split; [by apply (generate_chart_05_copies r t w)|].
  split; [by apply (chart01_reads (heap w) r w)|].
  split; [by apply (chart07_reads order (heap w) r w)|].
  split; [intros rows; by apply (chart10_reads (heap w) rows w)|].
  split; [by apply (chart13_reads (heap w) r w)|].
  split; [intros rows; by apply (chart14_reads (heap w) rows w)|].
  split; [by apply (chart15_reads (heap w) r w)|].
  split.
  - intros t' Ht'. by apply (chart04_updates r t t' Ht' w).
  - intros years years' Hy Hn. by apply (chart05_updates r t years years' Hy Hn w).
Qed.

End ReadOnlyCharts.

Lemma shared_table_updates_witness :
  heap world1 !! raw_data1 = Some table1
  /\ heap (snd (@V2.generate_chart_05_scatter_income_vs_performance
                  decimal_parser raw_data1 world1)) !! raw_data1
     = Some table1.
Proof.
  split; [reflexivity|].
  apply (@shared_table_updates decimal_parser RowMajor world1 raw_data1 table1).
  reflexivity.
Defined.

(** C1, as stated, fails in v3: chart 1 reads the table as loaded; then
    chart 4 runs, and the table that chart 7 and the later charts read has
    other cells (a missing score has become 0, the income strings have
    become numbers). *)
Lemma shared_table_counterexample :
  exists w2 rows w3,
    V3.chart01 raw_data1 world1 = (Ok tt, w2)
    /\ heap w2 !! raw_data1 = Some table1
    /\ @V3.chart04 decimal_parser raw_data1 w2 = (Ok rows, w3)
    /\ heap w3 !! raw_data1 <> Some table1.
Proof.
  eexists _, _, _. split; [vm_compute; reflexivity|].
  split; [reflexivity|]. split; [vm_compute; reflexivity|].
  vm_compute. discriminate.
Qed.


(** * Distinct values and their numbering *)

Section Unique.
Context {A : Type} `{EqDecision A}.

Lemma elem_of_unique_from (seen l : list A) (x : A) :
  x ∈ unique_from seen l <-> x ∈ l /\ x ∉ seen.
Proof.
  revert seen. induction l as [|a l IH]; intros seen; cbn [unique_from].
  - rewrite !elem_of_nil. tauto.
  - destruct (decide (a ∈ seen)) as [Hin|Hout].
    + rewrite IH, elem_of_cons. split; [tauto|].
      intros [[->|?] ?]; tauto.
    + rewrite !elem_of_cons, IH, not_elem_of_cons. split.
      * intros [->|(? & ? & ?)]; tauto.
      * intros [[->|?] ?]; [tauto|]. destruct (decide (x = a)); tauto.
Qed.

Lemma elem_of_unique (l : list A) (x : A) : x ∈ unique l <-> x ∈ l.
Proof.
  unfold unique. rewrite elem_of_unique_from, elem_of_nil. tauto.
Qed.

Lemma NoDup_unique_from (seen l : list A) : NoDup (unique_from seen l).
Proof.
  revert seen. induction l as [|a l IH]; intros seen; cbn [unique_from].
  - constructor.
  - destruct (decide (a ∈ seen)); [apply IH|].
    constructor; [|apply IH].
    rewrite elem_of_unique_from, not_elem_of_cons. tauto.
Qed.

Lemma NoDup_unique (l : list A) : NoDup (unique l).
Proof. apply NoDup_unique_from. Qed.

Lemma index_of_cons_ne (a x : A) (l : list A) :
  a <> x -> index_of x (a :: l) = S <$> index_of x l.
Proof. intros Hne. cbn [index_of]. by rewrite decide_False. Qed.

Lemma index_of_elem (x : A) (l : list A) :
  x ∈ l -> exists p, index_of x l = Some p.
Proof.
  induction l as [|a l IH]; intros Hin; [by apply elem_of_nil in Hin|].
  cbn [index_of]. destruct (decide (a = x)); [by eexists|].
  apply elem_of_cons in Hin as [->|Hin]; [done|].
  destruct (IH Hin) as [p ->]. by eexists.
Qed.

Lemma index_of_lookup (x : A) (l : list A) (p : nat) :
  index_of x l = Some p -> l !! p = Some x.
Proof.
  revert p. induction l as [|a l IH]; intros p; cbn [index_of]; [done|].
  destruct (decide (a = x)) as [->|Hne]; [by intros [= <-]|].
  destruct (index_of x l) as [q|]; [|done]. intros [= <-]. by apply IH.
Qed.

Lemma index_of_NoDup (x : A) (l : list A) (p : nat) :
  NoDup l -> l !! p = Some x -> index_of x l = Some p.
Proof.
  intros Hnd. revert p. induction Hnd as [|a l Hnotin Hnd IH]; intros p Hp; [done|].
  cbn [index_of]. destruct p as [|p]; cbn in Hp.
  - injection Hp as ->. by rewrite decide_True.
  - rewrite decide_False.
    + by rewrite (IH p Hp).
    + intros ->. apply Hnotin. by eapply list_elem_of_lookup_2.
Qed.

(** The distinct values come in the order in which they first appear. *)
Lemma unique_from_order (seen l : list A) (i j : nat) (x y : A) :
  unique_from seen l !! i = Some x -> unique_from seen l !! j = Some y ->
  (i < j)%nat ->
  exists p q, index_of x l = Some p /\ index_of y l = Some q /\ (p < q)%nat.
Proof.
  revert seen i j. induction l as [|a l IH]; intros seen i j; cbn [unique_from]; [done|].
  destruct (decide (a ∈ seen)) as [Hin|Hout].
  - intros Hx Hy Hij. destruct (IH _ _ _ Hx Hy Hij) as (p & q & Hp & Hq & Hpq).
    assert (a <> x).
    { intros ->. apply list_elem_of_lookup_2, elem_of_unique_from in Hx. tauto. }
    assert (a <> y).
    { intros ->. apply list_elem_of_lookup_2, elem_of_unique_from in Hy. tauto. }
    exists (S p), (S q). rewrite !index_of_cons_ne, Hp, Hq by done.
    repeat split; try done. lia.
  - intros Hx Hy Hij. destruct j as [|j]; [lia|]. cbn in Hy.
    assert (a <> y) as Hay.
    { intros ->. apply list_elem_of_lookup_2, elem_of_unique_from in Hy.
      rewrite not_elem_of_cons in Hy. tauto. }
    destruct i as [|i]; cbn in Hx.
    + injection Hx as ->.
      apply list_elem_of_lookup_2, elem_of_unique_from in Hy as [Hy _].
      destruct (index_of_elem y l Hy) as [q Hq].
      exists 0%nat, (S q). split; [|split; [|lia]].
      * cbn [index_of]. by rewrite decide_True.
      * by rewrite index_of_cons_ne, Hq.
    + assert (a <> x).
      { intros ->. apply list_elem_of_lookup_2, elem_of_unique_from in Hx.
        rewrite not_elem_of_cons in Hx. tauto. }
      destruct (IH _ _ _ Hx Hy ltac:(lia)) as (p & q & Hp & Hq & Hpq).
      exists (S p), (S q). rewrite !index_of_cons_ne, Hp, Hq by done.
      repeat split; try done. lia.
Qed.

End Unique.

Section Sankey.

Lemma enumerate_dict_notin (nodes : list cell) : forall i d x,
  x ∉ nodes -> V3.enumerate_dict i nodes d !! x = d !! x.
Proof.
  induction nodes as [|a nodes IH]; intros i d x Hx; [done|].
  apply not_elem_of_cons in Hx as [Hne Hx]. cbn [V3.enumerate_dict].
  rewrite IH by done. by rewrite lookup_insert_ne.
Qed.

Lemma enumerate_dict_lookup (nodes : list cell) : forall i d k x,
  NoDup nodes -> nodes !! k = Some x ->
  V3.enumerate_dict i nodes d !! x = Some (i + k)%nat.
Proof.
  induction nodes as [|a nodes IH]; intros i d k x Hnd Hk; [done|].
  apply NoDup_cons in Hnd as [Ha Hnd]. cbn [V3.enumerate_dict].
  destruct k as [|k]; cbn in Hk.
  - injection Hk as ->. rewrite enumerate_dict_notin by done.
    rewrite lookup_insert_eq. f_equal. lia.
  - rewrite (IH _ _ k x) by done. f_equal. lia.
Qed.

Lemma node_mapping_lookup (nodes : list cell) (x : cell) (i : nat) :
  NoDup nodes ->
  V3.node_mapping nodes !! x = Some i <-> nodes !! i = Some x.
Proof.
  intros Hnd. unfold V3.node_mapping. split.
  - intros Hx. destruct (decide (x ∈ nodes)) as [Hin|Hout].
    + apply list_elem_of_lookup in Hin as [k Hk].
      rewrite (enumerate_dict_lookup nodes 0 ∅ k x) in Hx by done.
      injection Hx as <-. done.
    + rewrite enumerate_dict_notin in Hx by done. done.
  - intros Hi. by rewrite (enumerate_dict_lookup nodes 0 ∅ i x).
Qed.

Lemma elem_of_ravel_K (order : mem_order) (pairs : list (cell * cell)) (x : cell) :
  x ∈ ravel_K order pairs <-> exists p, p ∈ pairs /\ (x = fst p \/ x = snd p).
Proof.
  destruct order; cbn [ravel_K].
  - rewrite list_elem_of_In, in_flat_map. split.
    + intros (p & Hp & Hx). exists p. rewrite list_elem_of_In. split; [done|].
      cbn in Hx. intuition.
    + intros (p & Hp & Hx). exists p. rewrite <- list_elem_of_In. split; [done|].
      cbn. intuition.
  - rewrite elem_of_app, !list_elem_of_fmap. split.
    + intros [(p & -> & Hp)|(p & -> & Hp)]; exists p; tauto.
    + intros (p & Hp & [->| ->]); [left|right]; by exists p.
Qed.

(** ** The claim about the Sankey nodes *)

(** C5: the node list of the Sankey chart holds each category of the
    source and target columns of the concatenated flows exactly once; the
    integer that [node_mapping] gives to a node is its position in the
    list, so the ids are 0..n-1 and injective; and the nodes stand in the
    order of their first appearance in the flattened array of sources and
    targets (whatever its memory order). The ids of the links are the
    positions of their ends. *)
Theorem sankey_nodes (order : mem_order) (flows : list entry) :
  let nodes := V3.unique_nodes order flows in
  let flat := ravel_K order (map fst flows) in
  NoDup nodes
  /\ (forall x, x ∈ nodes <->
        exists e, e ∈ flows /\ (x = entry_row e \/ x = entry_col e))
  /\ (forall x i, V3.node_mapping nodes !! x = Some i <-> nodes !! i = Some x)
  /\ (forall x i, V3.node_mapping nodes !! x = Some i -> (i < length nodes)%nat)
  /\ (forall i j x y, nodes !! i = Some x -> nodes !! j = Some y -> (i < j)%nat ->
        exists p q, index_of x flat = Some p /\ index_of y flat = Some q /\ (p < q)%nat)
  /\ (forall l, l ∈ V3.sankey_links order flows ->
        exists i j, source_id l = Some i /\ target_id l = Some j
                    /\ nodes !! i = Some (source l) /\ nodes !! j = Some (target l)).
Proof.
  intros nodes flat.
  assert (NoDup nodes) as Hnd by apply NoDup_unique.
  assert (forall x, x ∈ nodes <->
            exists e, e ∈ flows /\ (x = entry_row e \/ x = entry_col e)) as Hmem.
  { intros x. unfold nodes, V3.unique_nodes.
    rewrite elem_of_unique, elem_of_ravel_K. split.
    - intros (p & Hp & Hx). apply list_elem_of_fmap in Hp as (e & -> & He).
      by exists e.
    - intros (e & He & Hx). exists (fst e). split; [|done].
      apply list_elem_of_fmap. by exists e. }
  assert (forall x i, V3.node_mapping nodes !! x = Some i <-> nodes !! i = Some x)
    as Hmap by (intros; by apply node_mapping_lookup).
  split; [done|]. split; [done|]. split; [done|]. split; [|split].
  - intros x i Hx. apply Hmap in Hx. by eapply lookup_lt_Some.
  - intros i j x y. apply unique_from_order.
  - intros l Hl. unfold V3.sankey_links in Hl.
    apply list_elem_of_fmap in Hl as (e & -> & He). cbn [source target source_id target_id].
    assert (entry_row e ∈ nodes) as Hr by (apply Hmem; eauto).
    assert (entry_col e ∈ nodes) as Hc by (apply Hmem; eauto).
    apply list_elem_of_lookup in Hr as [i Hi], Hc as [j Hj].
    exists i, j. fold nodes. rewrite <- !Hmap in Hi, Hj. rewrite Hi, Hj.
    rewrite !Hmap in Hi, Hj. done.
Qed.

End Sankey.


(** * Facts about the pandas operations *)

(** Unfolding of the steps of a computation that may raise. *)
Ltac result_simpl :=
  cbn [mbind result_bind mret result_ret fmap result_fmap].

Section Results.
Context {A B : Type}.

Lemma mapM_Ok (f : A -> result B) (l : list A) (k : list B) :
  mapM f l = Ok k <-> Forall2 (fun x y => f x = Ok y) l k.
Proof.
  revert k. induction l as [|x l IH]; intros k; cbn [mapM].
  - split; [intros [= <-]; constructor|]. by intros ->%Forall2_nil_inv_l.
  - split.
    + destruct (f x) as [y|] eqn:Hx; [|done]. cbn.
      destruct (mapM f l) as [k'|] eqn:Hl; [|done]. cbn. intros [= <-].
      constructor; [done|]. by apply IH.
    + intros (y & k' & Hy & Hk & ->)%Forall2_cons_inv_l.
      rewrite Hy. cbn. apply IH in Hk. rewrite Hk. done.
Qed.

Lemma mapM_total (f : A -> result B) (g : A -> B) (l : list A) :
  Forall (fun x => f x = Ok (g x)) l -> mapM f l = Ok (map g l).
Proof.
  intros Hall. apply mapM_Ok. induction Hall; constructor; done.
Qed.

Lemma filter_rows_total (p : A -> result bool) (q : A -> bool) (l : list A) :
  Forall (fun x => p x = Ok (q x)) l ->
  filter_rows p l = Ok (filter (fun x => q x = true) l).
Proof.
  induction 1 as [|x l Hx _ IH]; [done|]. cbn [filter_rows].
  rewrite Hx, IH. result_simpl. rewrite filter_cons.
  destruct (q x); [by rewrite decide_True|by rewrite decide_False].
Qed.

End Results.

Section Frames.

Lemma col_index_lt c cols i : col_index c cols = Some i -> (i < length cols)%nat.
Proof.
  revert i. induction cols as [|c' cols IH]; intros i; cbn; [done|].
  destruct (decide (c' = c)); [intros [= <-]; lia|].
  destruct (col_index c cols) as [j|]; [|done]. intros [= <-].
  specialize (IH j eq_refl). lia.
Qed.

Lemma col_index_inj c c' cols i :
  col_index c cols = Some i -> col_index c' cols = Some i -> c = c'.
Proof.
  revert i. induction cols as [|x cols IH]; intros i; cbn; [done|].
  destruct (decide (x = c)) as [Hc|Hc], (decide (x = c')) as [Hc'|Hc'];
    [congruence| | |].
  - intros [= <-]. by destruct (col_index c' cols).
  - intros H [= <-]. by destruct (col_index c cols).
  - destruct (col_index c cols) as [j|], (col_index c' cols) as [j'|]; try done.
    intros [= <-] [= ->]. by eapply IH.
Qed.

Lemma getitem_length df c s : getitem df c = Ok s -> length s = length (values df).
Proof.
  unfold getitem. destruct (col_index c (columns df)); [|done].
  intros [= <-]. by rewrite length_map.
Qed.

Lemma cell_of_insert i x row :
  (i < length row)%nat -> cell_of i (<[i:=x]> row) = x.
Proof. intros Hi. unfold cell_of. by rewrite list_lookup_insert_eq. Qed.

Lemma cell_of_insert_ne i j x row :
  i <> j -> cell_of j (<[i:=x]> row) = cell_of j row.
Proof. intros Hi. unfold cell_of. by rewrite list_lookup_insert_ne. Qed.

(** Replacing a column that is there: the header stays, the column reads
    back as written, the other columns read as before. *)
Lemma setitem_same df c s i :
  rectangular df -> col_index c (columns df) = Some i ->
  length s = length (values df) ->
  columns (setitem df c s) = columns df
  /\ rectangular (setitem df c s)
  /\ getitem (setitem df c s) c = Ok s
  /\ (forall c', c' <> c -> getitem (setitem df c s) c' = getitem df c').
Proof.
  intros Hrect Hi Hlen. unfold setitem. rewrite Hi. cbn [columns].
  pose proof (col_index_lt _ _ _ Hi) as Hlt.
  split; [done|]. unfold rectangular, getitem in *. cbn [columns values].
  revert s Hlen. induction Hrect as [|row rows Hrow Hrows IH]; intros s Hlen.
  - destruct s; [|done]. rewrite Hi. cbn. split; [constructor|]. split; [done|].
    intros c' _. by destruct (col_index c' _).
  - destruct s as [|x s]; [done|]. injection Hlen as Hlen.
    destruct (IH s Hlen) as (IH1 & IH2 & IH3). cbn [zip_with].
    split; [constructor; [by rewrite length_insert|done]|].
    rewrite Hi in IH2 |- *. split.
    + injection IH2 as IH2. cbn [map]. rewrite IH2.
      rewrite cell_of_insert by lia. done.
    + intros c' Hc'. specialize (IH3 c' Hc').
      destruct (col_index c' (columns df)) as [j|] eqn:Hj; [|done].
      injection IH3 as IH3. cbn [map]. rewrite IH3. rewrite cell_of_insert_ne; [done|].
      intros ->. apply Hc'. by eapply col_index_inj.
Qed.

End Frames.


Section Groups.
Context {K : Type} `{EqDecision K, GroupKey K}.

Lemma elem_of_group_keys (keys : list K) (k : K) :
  k ∈ group_keys keys <-> k ∈ keys /\ key_notna k = true.
Proof.
  unfold group_keys. rewrite merge_sort_Permutation, elem_of_unique.
  rewrite list_elem_of_filter. rewrite Is_true_true. tauto.
Qed.

Lemma NoDup_group_keys (keys : list K) : NoDup (group_keys keys).
Proof.
  unfold group_keys. rewrite merge_sort_Permutation. apply NoDup_unique.
Qed.



Lemma elem_of_group_values {V} (keys : list K) (vals : list V) (k : K) (v : V) :
  v ∈ group_values keys vals k <->
  exists i, keys !! i = Some k /\ vals !! i = Some v.
Proof.
  unfold group_values. rewrite list_elem_of_fmap. split.
  - intros ([k' v'] & -> & Hin). apply list_elem_of_filter in Hin as [Hk Hin].
    cbn in Hk. subst k'. apply list_elem_of_lookup in Hin as [i Hi].
    apply lookup_zip_with_Some in Hi as (x & y & [= <- <-] & Hx & Hy). eauto.
  - intros (i & Hk & Hv). exists (k, v). split; [done|].
    apply list_elem_of_filter. split; [done|].
    apply list_elem_of_lookup. exists i.
    apply lookup_zip_with_Some. eauto.
Qed.

End Groups.

Section Aggregates.
Context `{FloatParser}.
Local Open Scope Qc_scope.

Lemma coerce_fill_values (s : Series) :
  V3.coerce_fill s = Ok (map (fun c => Num (coerced_value c)) s).
Proof.
  unfold V3.coerce_fill, to_numeric.
  rewrite (mapM_total _ (fun c => match c with
                                  | Str x => match parse_float x with
                                             | Some q => Num q
                                             | None => NaN
                                             end
                                  | _ => c
                                  end)).
  - result_simpl. f_equal. unfold fillna. rewrite map_map. apply map_ext.
    intros [|q|x]; cbn; try done. by destruct (parse_float x).
  - apply Forall_forall. intros [|q|x] _; cbn; try done.
    by destruct (parse_float x).
Qed.


Lemma py_sum_from_nums (acc : Qc) (l : list Qc) :
  py_sum_from (Num acc) (map Num l) = Ok (Num (acc + Qc_sum l)).
Proof.
  revert acc. induction l as [|x l IH]; intros acc; cbn [py_sum_from map Qc_sum foldr].
  - by rewrite Qcplus_0_r.
  - cbn [py_add]. result_simpl. rewrite IH. by rewrite Qcplus_assoc.
Qed.

Lemma dropna_nums (l : list Qc) : dropna (map Num l) = map Num l.
Proof.
  unfold dropna. induction l as [|x l IH]; [done|].
  change (map Num (x :: l)) with (Num x :: map Num l).
  rewrite filter_cons. rewrite decide_True by done. by rewrite IH.
Qed.




End Aggregates.


(** * Coercion and the company table *)

Section Coercion.
Context `{FloatParser}.
Local Open Scope Qc_scope.

Lemma getitem_col_index df c s :
  getitem df c = Ok s -> exists i, col_index c (columns df) = Some i.
Proof. unfold getitem. destruct (col_index c (columns df)); [eauto|done]. Qed.

Lemma length_filled s : length (filled s) = length s.
Proof. apply length_map. Qed.

(** Lines 222-223 on a rectangular table: what each column reads as
    afterwards. *)
Lemma coerced_run (raw : DataFrame) (scores incomes : Series) :
  rectangular raw ->
  getitem raw "valoracionPonderada" = Ok scores ->
  getitem raw "Ingresos operacionales" = Ok incomes ->
  exists raw',
    V3.coerced raw = Ok raw'
    /\ rectangular raw'
    /\ columns raw' = columns raw
    /\ getitem raw' "valoracionPonderada" = Ok (filled scores)
    /\ getitem raw' "Ingresos operacionales" = Ok (filled incomes)
    /\ (forall c, c <> "valoracionPonderada" -> c <> "Ingresos operacionales" ->
          getitem raw' c = getitem raw c).
Proof.
  intros Hrect Hs Hi.
  destruct (getitem_col_index _ _ _ Hs) as [i1 Hi1].
  destruct (getitem_col_index _ _ _ Hi) as [i2 Hi2].
  destruct (setitem_same raw "valoracionPonderada" (filled scores) i1 Hrect Hi1)
    as (Hc1 & Hr1 & Hg1 & Ho1).
  { rewrite length_filled. by eapply getitem_length. }
  set (raw1 := setitem raw "valoracionPonderada" (filled scores)) in *.
  destruct (setitem_same raw1 "Ingresos operacionales" (filled incomes) i2 Hr1)
    as (Hc2 & Hr2 & Hg2 & Ho2).
  { by rewrite Hc1. }
  { rewrite length_filled. rewrite (getitem_length _ _ _ Hi).
    symmetry. erewrite <- (getitem_length raw1); [|exact Hg1].
    rewrite length_filled. by eapply getitem_length. }
  exists (setitem raw1 "Ingresos operacionales" (filled incomes)).
  split.
  - unfold V3.coerced. rewrite Hs. result_simpl. rewrite coerce_fill_values.
    result_simpl. fold (filled scores). fold raw1.
    rewrite Ho1, Hi by done. result_simpl. rewrite coerce_fill_values. done.
  - split; [done|]. split; [by rewrite Hc2|]. split; [|split; [done|]].
    + rewrite Ho2 by done. done.
    + intros c Hcs Hci. rewrite Ho2, Ho1 by done. done.
Qed.











Lemma agg_sum_no_str (l : Series) :
  Forall (fun c => is_str c = false) l ->
  agg_sum l = Ok (Num (Qc_sum (map coerced_value l))).
Proof.
  intros Hall.
  assert (dropna l = map Num (map coerced_value (dropna l))
          /\ Qc_sum (map coerced_value (dropna l)) = Qc_sum (map coerced_value l))
    as [Hd Hs].
  { unfold dropna. induction Hall as [|c l Hc _ [IH1 IH2]]; [done|].
    rewrite filter_cons. destruct c as [|q|x]; [| |done].
    - rewrite decide_False by (by intros []).
      change (Qc_sum (map coerced_value (NaN :: l)))
        with (0 + Qc_sum (map coerced_value l)).
      split; [done|]. by rewrite Qcplus_0_l.
    - rewrite decide_True by done.
      change (Qc_sum (map coerced_value (Num q :: l)))
        with (q + Qc_sum (map coerced_value l)).
      change (map coerced_value (Num q :: ?t)) with (q :: map coerced_value t).
      change (Qc_sum (q :: ?t)) with (q + Qc_sum t).
      cbn [map]. split; [by rewrite <- IH1|]. by rewrite <- IH2. }
  unfold agg_sum. rewrite Hd, <- Hs.
  destruct (map coerced_value (dropna l)) as [|x qs]; [done|].
  cbn [map]. by rewrite py_sum_from_nums.
Qed.

End Coercion.


(** ** The claims about coercion and about the income scatter *)

Section CoercionClaims.
Context `{FloatParser}.
Local Open Scope Qc_scope.



End CoercionClaims.


(** * The difference to the sector mean *)

Section Diverging.
Local Open Scope Qc_scope.

Lemma group_values_rows {A} (f : A -> cell) {V} (g : A -> V) (rows : list A) (s : cell) :
  group_values (map f rows) (map g rows) s
  = map g (filter (fun c => f c = s) rows).
Proof.
  unfold group_values. induction rows as [|c rows IH]; [done|].
  cbn [map zip_with]. rewrite !filter_cons. cbn [fst].
  destruct (decide (f c = s)); cbn [map snd]; by rewrite IH.
Qed.

Lemma forallb_numeric_nums (l : list Qc) : forallb numeric (map Num l) = true.
Proof. induction l as [|x l IH]; [done|]. cbn [map forallb numeric]. done. Qed.

Lemma agg_mean_nums (l : list Qc) :
  l <> [] -> agg_mean (map Num l) = Ok (Num (Qc_sum l / Qc_of_nat (length l))).
Proof.
  intros Hne. unfold agg_mean. rewrite dropna_nums.
  pose proof (forallb_numeric_nums l) as Hall.
  assert (map num_value (map Num l) = l) as Hval.
  { rewrite map_map. cbn [num_value]. apply map_id. }
  assert (length (map Num l) = length l) as Hlen by apply length_map.
  destruct (map Num l) as [|c cs] eqn:Hmap.
  - destruct l; done.
  - by rewrite Hall, Hval, Hlen.
Qed.

Lemma numeric_totals (rows : list company) :
  Forall (fun c => numeric (puntaje_total c) = true) rows ->
  map puntaje_total rows = map Num (map (fun c => num_value (puntaje_total c)) rows).
Proof.
  induction 1 as [|c rows Hc _ IH]; [done|]. cbn [map]. rewrite <- IH.
  f_equal. by destruct (puntaje_total c).
Qed.

Lemma sector_avg_score_run (rows : list company) :
  Forall (fun c => numeric (puntaje_total c) = true) rows ->
  V3.sector_avg_score rows
  = Ok (map (fun s => (s, Num (V3.sector_mean rows s)))
            (group_keys (map macrosector rows))).
Proof.
  intros Hnum. unfold V3.sector_avg_score, groupby1.
  apply mapM_total, Forall_forall. intros s Hs.
  apply elem_of_group_keys in Hs as [Hs _].
  rewrite group_values_rows.
  assert (Forall (fun c => numeric (puntaje_total c) = true)
                 (filter (fun c => macrosector c = s) rows)) as Hpeers.
  { apply Forall_forall. intros c [_ Hc]%list_elem_of_filter.
    rewrite Forall_forall in Hnum. by apply Hnum. }
  rewrite (numeric_totals _ Hpeers), agg_mean_nums.
  - result_simpl. unfold V3.sector_mean. by rewrite length_map.
  - apply list_elem_of_fmap in Hs as (c & -> & Hc).
    intros Hnil%map_eq_nil. 
    assert (c ∈ filter (fun c' => macrosector c' = macrosector c) rows) as Hin
      by by apply list_elem_of_filter.
    rewrite Hnil in Hin. by apply elem_of_nil in Hin.
Qed.

Lemma filter_key_table {V} (v : cell -> V) (keys : list cell) (s : cell) :
  NoDup keys ->
  filter (fun a => fst a = s) (map (fun k => (k, v k)) keys)
  = if decide (s ∈ keys) then [(s, v s)] else [].
Proof.
  induction 1 as [|k keys Hk Hnd IH]; [done|].
  cbn [map]. rewrite filter_cons. cbn [fst]. rewrite IH.
  destruct (decide (k = s)) as [->|Hne].
  - rewrite decide_False by done. rewrite decide_True by left. done.
  - destruct (decide (s ∈ keys)).
    + rewrite decide_True by by right. done.
    + rewrite decide_False; [done|]. intros [->|?]%elem_of_cons; done.
Qed.

Lemma merge_on_sector_run (v : cell -> cell) (rows : list company) :
  V3.merge_on_sector rows
    (map (fun s => (s, v s)) (group_keys (map macrosector rows)))
  = map (fun c => (c, v (macrosector c)))
        (filter (fun c => macrosector c <> NaN) rows).
Proof.
  unfold V3.merge_on_sector.
  assert (forall c, c ∈ rows ->
            map (fun a : cell * cell => (c, snd a))
                (filter (fun a => fst a = macrosector c)
                   (map (fun s => (s, v s)) (group_keys (map macrosector rows))))
            = if decide (macrosector c <> NaN) then [(c, v (macrosector c))] else [])
    as Hone.
  { intros c Hc. rewrite filter_key_table by apply NoDup_group_keys.
    destruct (decide (macrosector c ∈ group_keys (map macrosector rows))) as [Hin|Hout].
    - apply elem_of_group_keys in Hin as [_ Hna].
      rewrite decide_True; [done|]. intros Hnan. by rewrite Hnan in Hna.
    - rewrite decide_False; [done|]. intros Hna. apply Hout.
      apply elem_of_group_keys. split.
      + apply list_elem_of_fmap. by exists c.
      + by destruct (macrosector c). }
  revert Hone. generalize (map (fun s => (s, v s)) (group_keys (map macrosector rows))).
  intros avg Hone. induction rows as [|c rows IH]; [done|].
  cbn [flat_map]. rewrite Hone by left. rewrite IH.
  - rewrite filter_cons. by destruct (decide (macrosector c <> NaN)).
  - intros c' Hc'. apply Hone. by right.
Qed.

Lemma diverging_row_run (c : company) (m : Qc) :
  numeric (puntaje_total c) = true ->
  V3.diverging_row (c, Num m)
  = Ok (mkDiverging c (Num m) (Num (num_value (puntaje_total c) - m))
          (V3.relative_label (Qc_leb 0 (num_value (puntaje_total c) - m)))).
Proof.
  intros Hc. unfold V3.diverging_row. cbn [fst snd].
  destruct (puntaje_total c) as [|t|]; try done.
Qed.

(** ** The claim about the diverging bars *)


End Diverging.


(** * Pivoted matrices *)

Section Pivot.
Local Open Scope Qc_scope.

Lemma elem_of_sort_labels (l : list cell) (x : cell) : x ∈ sort_labels l <-> x ∈ l.
Proof. unfold sort_labels. by rewrite merge_sort_Permutation, elem_of_unique. Qed.

Lemma entry_value_in (entries : list entry) (r c v : cell) :
  NoDup (map fst entries) -> (r, c, v) ∈ entries -> entry_value entries r c = v.
Proof.
  unfold entry_value. induction entries as [|e entries IH]; intros Hnd Hin.
  - by apply elem_of_nil in Hin.
  - cbn [map] in Hnd. apply NoDup_cons in Hnd as [Hne Hnd]. rewrite filter_cons.
    apply elem_of_cons in Hin as [<-|Hin].
    + by rewrite decide_True.
    + rewrite decide_False; [by apply IH|].
      intros [Hr Hc]. apply Hne. apply list_elem_of_fmap. exists (r, c, v).
      split; [|done]. destruct e as [[r' c'] v']. unfold entry_row, entry_col in *.
      cbn in *. by subst.
Qed.

Lemma entry_value_out (entries : list entry) (r c : cell) :
  (forall v, (r, c, v) ∉ entries) -> entry_value entries r c = NaN.
Proof.
  intros Hout. unfold entry_value.
  destruct (filter _ entries) as [|e rest] eqn:Hf; [done|].
  assert (e ∈ filter (fun e => entry_row e = r /\ entry_col e = c) entries) as He
    by (rewrite Hf; left).
  apply list_elem_of_filter in He as [[Hr Hc] He]. exfalso.
  apply (Hout (entry_val e)). destruct e as [[r' c'] v'].
  unfold entry_row, entry_col, entry_val in *. cbn in *. by subst.
Qed.

Lemma entry_value_cases (entries : list entry) (r c : cell) :
  entry_value entries r c = NaN
  \/ exists e, e ∈ entries /\ entry_value entries r c = entry_val e.
Proof.
  unfold entry_value. destruct (filter _ entries) as [|e rest] eqn:Hf; [by left|].
  right. exists e. split; [|done].
  assert (e ∈ filter (fun e => entry_row e = r /\ entry_col e = c) entries) as He
    by (rewrite Hf; left).
  by apply list_elem_of_filter in He as [_ He].
Qed.

(** The cells of a pivoted and zero-filled matrix. *)
Lemma cell_at_unstack (entries : list entry) (r c : cell) :
  r ∈ map entry_row entries -> c ∈ map entry_col entries ->
  cell_at (fillna_matrix 0 (unstack entries)) r c
  = Some (fill0 (entry_value entries r c)).
Proof.
  intros Hr Hc. unfold cell_at, fillna_matrix, unstack. cbn [index mcolumns data].
  apply elem_of_sort_labels in Hr, Hc.
  destruct (index_of_elem _ _ Hr) as [i Hi]. destruct (index_of_elem _ _ Hc) as [j Hj].
  rewrite Hi, Hj. cbn. apply index_of_lookup in Hi, Hj.
  rewrite !list_lookup_fmap, Hi. cbn. unfold fillna.
  rewrite !list_lookup_fmap, Hj. done.
Qed.

Lemma index_unstack (entries : list entry) (r : cell) :
  r ∈ index (fillna_matrix 0 (unstack entries)) <-> r ∈ map entry_row entries.
Proof. apply elem_of_sort_labels. Qed.

Lemma columns_unstack (entries : list entry) (c : cell) :
  c ∈ mcolumns (fillna_matrix 0 (unstack entries)) <-> c ∈ map entry_col entries.
Proof. apply elem_of_sort_labels. Qed.


Lemma agg_mean_no_str (l : Series) :
  Forall (fun c => is_str c = false) l -> agg_mean l = Ok (mean_cell l).
Proof.
  intros Hall. unfold agg_mean, mean_cell, group_mean.
  assert (forallb numeric (dropna l) = true) as Hnum.
  { apply forallb_forall. intros c Hc. apply list_elem_of_In in Hc.
    apply list_elem_of_filter in Hc as [Hna Hc].
    rewrite Forall_forall in Hall. specialize (Hall c Hc). by destruct c. }
  destruct (dropna l) as [|x rest]; [done|]. by rewrite Hnum.
Qed.

Lemma agg_sum_cell_no_str (l : Series) :
  Forall (fun c => is_str c = false) l ->
  exists q, agg_sum l = Ok (Num q).
Proof.
  intros Hall.
  assert (forall (FP : FloatParser), agg_sum l = Ok (Num (Qc_sum (map coerced_value l)))) as Hs
    by (intros FP; by apply agg_sum_no_str).
  eexists. apply (Hs (fun _ => None)).
Qed.

Lemma group_values_no_str {K} `{EqDecision K} (keys : list K) (vals : Series) (k : K) :
  Forall (fun c => is_str c = false) vals ->
  Forall (fun c => is_str c = false) (group_values keys vals k).
Proof.
  intros Hall. apply Forall_forall. intros c Hc.
  apply elem_of_group_values in Hc as (i & _ & Hc).
  rewrite Forall_forall in Hall. apply Hall. by eapply list_elem_of_lookup_2.
Qed.




End Pivot.


Section PivotTable.
Local Open Scope Qc_scope.

Lemma is_str_mean_cell vals : is_str (mean_cell vals) = false.
Proof. unfold mean_cell. by destruct (group_mean vals). Qed.



Lemma filter_none {A} (P : A -> Prop) `{forall x, Decision (P x)} (l : list A) :
  (forall x, x ∈ l -> ~ P x) -> filter P l = [].
Proof.
  induction l as [|x l IH]; intros Hno; [done|].
  rewrite filter_cons, decide_False by (apply Hno; left).
  apply IH. intros y Hy. apply Hno. by right.
Qed.



End PivotTable.


Section Matrices.
Local Open Scope Qc_scope.

(** A matrix made of entries that come from the rows of a table: every
    pair of labels has a number, and a pair without a row has zero. *)
Lemma matrix_of_entries (es : list entry) (rows cols : Series) :
  (forall r c v, (r, c, v) ∈ es ->
     (exists i, rows !! i = Some r /\ cols !! i = Some c) /\ is_str v = false) ->
  let m := fillna_matrix 0 (unstack es) in
  (forall r c, r ∈ index m -> c ∈ mcolumns m -> exists q, cell_at m r c = Some (Num q))
  /\ (forall r c, r ∈ index m -> c ∈ mcolumns m ->
        (forall i, ~ (rows !! i = Some r /\ cols !! i = Some c)) ->
        cell_at m r c = Some (Num 0)).
Proof.
  intros Hes m. split.
  - intros r c Hr Hc. apply index_unstack in Hr. apply columns_unstack in Hc.
    unfold m. rewrite cell_at_unstack by done.
    destruct (entry_value_cases es r c) as [->|([[r' c'] v] & He & ->)]; [by eexists|].
    destruct (Hes _ _ _ He) as [_ Hv]. unfold entry_val. cbn [snd].
    destruct v; try done; by eexists.
  - intros r c Hr Hc Hno. apply index_unstack in Hr. apply columns_unstack in Hc.
    unfold m. rewrite cell_at_unstack by done. rewrite entry_value_out; [done|].
    intros v Hin. destruct (Hes _ _ _ Hin) as [(i & Hi) _]. by apply (Hno i).
Qed.

Lemma matrix_entry (es : list entry) (r c v : cell) :
  NoDup (map fst es) -> (r, c, v) ∈ es ->
  let m := fillna_matrix 0 (unstack es) in
  r ∈ index m /\ c ∈ mcolumns m /\ cell_at m r c = Some (fill0 v).
Proof.
  intros Hnd Hin m.
  assert (r ∈ map entry_row es) as Hr.
  { apply list_elem_of_fmap. by exists (r, c, v). }
  assert (c ∈ map entry_col es) as Hc.
  { apply list_elem_of_fmap. by exists (r, c, v). }
  split; [by apply index_unstack|]. split; [by apply columns_unstack|].
  unfold m. rewrite cell_at_unstack by done. by rewrite (entry_value_in es r c v).
Qed.


(** ** The claim about the pivoted matrices *)


End Matrices.



(** * The claims on the fixtures *)






Lemma sankey_nodes_witness :
  NoDup (V3.unique_nodes ColumnMajor flows1)
  /\ V3.node_mapping (V3.unique_nodes ColumnMajor flows1) !! Str "Agua" = Some 1%nat.
Proof.
  destruct (sankey_nodes ColumnMajor flows1) as (Hnd & _ & Hmap & _).
  split; [exact Hnd|]. apply Hmap. reflexivity.
Defined.


(** * The tables of the charts are the ones written *)

Section Written.
Context `{FloatParser}.

Lemma write_file_Ok dir name f w w' :
  write_file dir name f w = (Ok tt, w') ->
  fs w' = <[(dir ++ "/" ++ name)%string := f]> (fs w) /\ heap w' = heap w.
Proof.
  unfold write_file. destruct (fs w !! dir) as [[]|]; try done.
  by intros [= <-].
Qed.

Lemma emit_Ok fig html png w w' :
  V3.emit fig html png w = (Ok tt, w') ->
  fs w' !! ("charts/" ++ html)%string = Some (HtmlFile fig) /\ heap w' = heap w.
Proof.
  unfold V3.emit, V3.save_chart_as_html, V3.write_image.
  rewrite seq_run, bind_run. unfold path_exists at 1. rewrite seq_run.
  destruct (bool_decide _).
  - unfold mret at 1, M_ret at 1.
    destruct (write_file "charts" html (HtmlFile fig) w) as [[[]|] w1] eqn:H1; [|done].
    intros H2. apply write_file_Ok in H1 as [H1 H1'], H2 as [H2 H2'].
    split; [|congruence]. rewrite H2, H1.
    rewrite lookup_insert_ne by done. by rewrite lookup_insert_eq.
  - unfold makedirs at 1.
    match goal with |- context [write_file "charts" html (HtmlFile fig) ?w0] =>
      destruct (write_file "charts" html (HtmlFile fig) w0) as [[[]|] w1] eqn:H1; [|done]
    end.
    intros H2. apply write_file_Ok in H1 as [H1 H1'], H2 as [H2 H2'].
    split; [|by rewrite H2', H1']. rewrite H2, H1.
    rewrite lookup_insert_ne by done. by rewrite lookup_insert_eq.
Qed.

(** The rows that chart 4 of v3 returns and draws are the company table of
    the coerced shared table. *)
Lemma chart04_returns r t t' w rows w' :
  heap w !! r = Some t -> V3.coerced t = Ok t' ->
  V3.chart04 r w = (Ok rows, w') ->
  V3.company_agg_data t' = Ok rows
  /\ fs w' !! "charts/04_treemap_sustainability.html" = Some (HtmlFile (FigTreemap rows)).
Proof.
  intros Hw Hco. unfold V3.coerced in Hco.
  destruct (getitem t "valoracionPonderada") as [score|] eqn:Hscore; [|done].
  cbn in Hco. destruct (V3.coerce_fill score) as [score'|] eqn:Hfill1; [|done].
  cbn in Hco.
  destruct (getitem (setitem t "valoracionPonderada" score') "Ingresos operacionales")
    as [income|] eqn:Hincome; [|done].
  cbn in Hco. destruct (V3.coerce_fill income) as [income'|] eqn:Hfill2; [|done].
  cbn in Hco. injection Hco as <-.
  assert (r < length (heap w))%nat as Hlt by by eapply lookup_lt_Some.
  unfold V3.chart04. rewrite seq_run.
  rewrite (coerce_column_eq r _ t score score') by done.
  rewrite seq_run.
  rewrite (coerce_column_eq r _ (setitem t "valoracionPonderada" score') income income');
    [|by cbn [heap]; apply list_lookup_insert_eq|done|done].
  cbn [heap fs stdout default_template]. rewrite list_insert_insert_eq.
  rewrite bind_run. unfold deref at 1. cbn [heap].
  rewrite list_lookup_insert_eq by done.
  rewrite bind_run. unfold lift at 1.
  destruct (V3.company_agg_data _) as [rows'|] eqn:Hrows; [|done].
  rewrite seq_run. destruct rows' as [|c0 rows']; [done|].
  unfold mret at 1, M_ret at 1. rewrite seq_run.
  match goal with |- context [V3.emit ?fig ?html ?png ?w0] =>
    destruct (V3.emit fig html png w0) as [[[]|] w1] eqn:Hemit; [|done]
  end.
  intros [= <- <-]. split; [done|]. by apply emit_Ok in Hemit as [? _].
Qed.

(** The rows that chart 5 of v2 draws are the filtered company table of the
    copy with the coerced income column. *)
Lemma generate_chart_05_draws r t w w' :
  heap w !! r = Some t ->
  V2.generate_chart_05_scatter_income_vs_performance r w = (Ok tt, w') ->
  exists df_chart rows,
    V2.income_coerced t = Ok df_chart
    /\ V2.plot_data df_chart = Ok rows
    /\ fs w' !! "charts/05_scatter_income_vs_performance.html"
       = Some (HtmlFile (FigScatter rows)).
Proof.
  intros Hw. unfold V2.generate_chart_05_scatter_income_vs_performance.
  rewrite bind_run. unfold ref_copy at 1. rewrite bind_run. unfold deref at 1.
  rewrite Hw. unfold alloc at 1.
  set (n := length (heap w)).
  assert (forall w0 : world, heap w0 = heap w ++ [t] -> heap w0 !! n = Some t) as Hn.
  { intros w0 ->. by rewrite lookup_app_r, Nat.sub_diag. }
  rewrite bind_run. unfold ref_getitem at 1. rewrite bind_run. unfold deref at 1.
  rewrite Hn by done. unfold lift at 1. unfold V2.income_coerced.
  destruct (getitem t "Ingresos operacionales") as [income|] eqn:Hincome; [|done].
  rewrite bind_run. unfold lift at 1.
  destruct (to_numeric ErrorsCoerce income) as [income'|] eqn:Hnum; [|done].
  result_simpl.
  rewrite seq_run. unfold ref_setitem at 1, update at 1. rewrite Hn by done.
  cbn [heap fs stdout default_template].
  rewrite insert_app_r_alt, Nat.sub_diag by done. cbn [insert list_insert].
  rewrite bind_run. unfold ref_getitem at 1. rewrite bind_run. unfold deref at 1.
  cbn [heap]. rewrite lookup_app_r, Nat.sub_diag by done. cbn [lookup list_lookup].
  unfold lift at 1.
  destruct (getitem (setitem t "Ingresos operacionales" income') "Ingresos operacionales")
    as [column|] eqn:Hcolumn; [|done].
  result_simpl.
  rewrite seq_run. unfold ref_setitem at 1, update at 1. cbn [heap].
  rewrite lookup_app_r, Nat.sub_diag by done. cbn [lookup list_lookup].
  cbn [heap fs stdout default_template].
  rewrite insert_app_r_alt, Nat.sub_diag by done. cbn [insert list_insert].
  rewrite bind_run. unfold deref at 1. cbn [heap].
  rewrite lookup_app_r, Nat.sub_diag by done. cbn [lookup list_lookup].
  rewrite bind_run. unfold lift at 1.
  destruct (V2.plot_data _) as [rows|] eqn:Hrows; [|done].
  unfold V2.save_chart_as_html. rewrite seq_run.
  match goal with |- context [write_file ?d ?nm ?f ?w0] =>
    destruct (write_file d nm f w0) as [[[]|] w1] eqn:Hwrite; [|done]
  end.
  unfold print. intros [= <-]. cbn [fs].
  apply write_file_Ok in Hwrite as [Hfs _].
  exists (setitem (setitem t "Ingresos operacionales" income')
            "Ingresos operacionales" (fillna 0 column)), rows.
  split; [|split; [exact Hrows|]].
  - rewrite ?Hnum. result_simpl. rewrite ?Hcolumn. done.
  - rewrite Hfs. apply lookup_insert_eq.
Qed.

End Written.


(** * More about [wrap_text] *)

Section Lines.

#[local] Arguments String.append : simpl nomatch.

Lemma group_from_fits max_length words : forall line,
  fits max_length line ->
  Forall (fits max_length) (group_from max_length line words).
Proof.
  induction words as [|w rest IH]; intros line Hline; cbn [group_from].
  - by constructor.
  - destruct (_ >? _)%Z eqn:Hgt.
    + constructor; [done|]. apply IH. right. by exists w.
    + apply IH. left. lia.
Qed.

Lemma greedy_groups_fits max_length words :
  Forall (fits max_length) (greedy_groups max_length words).
Proof.
  destruct words as [|w rest]; [constructor|].
  apply group_from_fits. right. by exists w.
Qed.

Lemma wrap_text_groups text max_length :
  (max_length < len text)%Z ->
  wrap_text text max_length
  = join "<br>" (map (join " ") (greedy_groups max_length (split text))).
Proof.
  intros Hlong. rewrite wrap_text_long by lia.
  by rewrite greedy_groups_lines.
Qed.

(** The first line of a packing starts with the words it was given. *)
Lemma group_from_head max_length words : forall line,
  exists more rest, group_from max_length line words = (line ++ more) :: rest.
Proof.
  induction words as [|w ws IH]; intros line; cbn [group_from].
  - exists [], []. by rewrite app_nil_r.
  - destruct (_ >? _)%Z.
    + exists [], (group_from max_length [w] ws). by rewrite app_nil_r.
    + destruct (IH (line ++ [w])) as (more & rest & ->).
      exists (w :: more), rest. by rewrite <- app_assoc.
Qed.

Lemma group_from_forced max_length words : forall line i g w g',
  group_from max_length line words !! i = Some g ->
  group_from max_length line words !! S i = Some (w :: g') ->
  (max_length < len (join " " (g ++ [w])))%Z.
Proof.
  induction words as [|w0 ws IH]; intros line i g w g'; cbn [group_from].
  - by destruct i.
  - destruct (_ >? _)%Z eqn:Hgt.
    + destruct i as [|i]; cbn [lookup list_lookup].
      * intros [= <-] Hnext.
        destruct (group_from_head max_length ws [w0]) as (more & rest & Heq).
        rewrite Heq in Hnext. injection Hnext as -> _. lia.
      * apply IH.
    + apply IH.
Qed.

End Lines.

(** X1: in the output of [wrap_text] for a text longer than the threshold,
    every line is at most as long as the threshold, except a line that
    consists of a single word. *)
Theorem wrap_text_lines_fit (text : string) (max_length : Z) :
  (max_length < len text)%Z ->
  wrap_text text max_length
  = join "<br>" (map (join " ") (greedy_groups max_length (split text)))
  /\ Forall (fun line => (len (join " " line) <= max_length)%Z \/ exists w, line = [w])
            (greedy_groups max_length (split text)).
Proof.
  intros Hlong. split; [by apply wrap_text_groups|].
  apply greedy_groups_fits.
Qed.

Lemma wrap_text_lines_fit_witness :
  (25 < len "Gobierno corporativo y transparencia empresarial")%Z
  /\ Forall (fun line => (len (join " " line) <= 25)%Z \/ exists w, line = [w])
       (greedy_groups 25 (split "Gobierno corporativo y transparencia empresarial")).
Proof.
  split; [reflexivity|].
  apply (wrap_text_lines_fit "Gobierno corporativo y transparencia empresarial" 25).
  reflexivity.
Defined.

(** X2: [wrap_text] breaks a line only where it has to: the word that opens
    a line, put after a space at the end of the line before, would have made
    that line longer than the threshold. *)
Theorem wrap_text_breaks_forced (text : string) (max_length : Z)
    (i : nat) (line : list string) (w : string) (next : list string) :
  (max_length < len text)%Z ->
  greedy_groups max_length (split text) !! i = Some line ->
  greedy_groups max_length (split text) !! S i = Some (w :: next) ->
  wrap_text text max_length
  = join "<br>" (map (join " ") (greedy_groups max_length (split text)))
  /\ (max_length < len (join " " (line ++ [w])))%Z.
Proof.
  intros Hlong Hi Hnext. split; [by apply wrap_text_groups|].
  destruct (split text) as [|w0 ws]; [done|].
  by eapply group_from_forced.
Qed.

Lemma wrap_text_breaks_forced_witness :
  (25 < len (join " " (["Gobierno"; "corporativo"; "y"] ++ ["transparencia"])))%Z.
Proof.
  apply (wrap_text_breaks_forced
           "Gobierno corporativo y transparencia empresarial" 25 0
           ["Gobierno"; "corporativo"; "y"] "transparencia" ["empresarial"]);
    reflexivity.
Defined.

Section Blank.

#[local] Arguments String.append : simpl nomatch.

Lemma split_from_blank s : blank s = true -> split_from "" s = [].
Proof.
  induction s as [|c s IH]; [done|]. cbn [blank split_from].
  intros [Hc Hs]%andb_true_iff. rewrite Hc. cbn [nonempty]. auto.
Qed.

Lemma split_from_cur_nonempty s : forall cur,
  nonempty cur = true -> split_from cur s <> [].
Proof.
  induction s as [|c s IH]; intros cur Hcur; cbn [split_from].
  - by rewrite Hcur.
  - destruct (isspace c); [by rewrite Hcur|].
    apply IH, nonempty_snoc.
Qed.

Lemma split_nil_blank s : split_from "" s = [] -> blank s = true.
Proof.
  induction s as [|c s IH]; [done|]. cbn [blank split_from nonempty].
  destruct (isspace c) eqn:Hc; [done|].
  intros Hnil. by apply split_from_cur_nonempty in Hnil.
Qed.

Lemma join_nonempty (sep : string) (w : string) (ws : list string) :
  nonempty w = true -> nonempty (join sep (w :: ws)) = true.
Proof.
  intros Hw. destruct w as [|c w]; [done|].
  destruct ws; [done|]. rewrite join_cons_cons. by rewrite append_cons.
Qed.

Lemma pack_from_head max_length words : forall line,
  nonempty line = true ->
  exists l ls, pack_from max_length line words = l :: ls /\ nonempty l = true.
Proof.
  induction words as [|w ws IH]; intros line Hline; cbn [pack_from].
  - by exists line, [].
  - destruct (_ >? _)%Z.
    + by exists line, (pack_from max_length w ws).
    + apply IH. destruct line; [done|]. by rewrite append_cons.
Qed.

Lemma join_lines_plain lines :
  Forall (fun l => plain_spaces l = true) lines ->
  plain_spaces (join "<br>" lines) = true.
Proof.
  induction lines as [|l [|l' ls] IH]; intros Hall; [done| |].
  - by inversion Hall.
  - rewrite join_cons_cons, !plain_spaces_app.
    inversion Hall as [|? ? Hl Hrest]; subst.
    rewrite Hl, (IH Hrest). reflexivity.
Qed.

Lemma group_from_words max_length words : forall line,
  Forall word line -> Forall word words ->
  Forall (Forall word) (group_from max_length line words).
Proof.
  induction words as [|w ws IH]; intros line Hline Hwords; cbn [group_from].
  - by constructor.
  - inversion Hwords as [|? ? Hw Hws]; subst.
    destruct (_ >? _)%Z.
    + constructor; [done|]. apply IH; [by constructor|done].
    + apply IH; [|done]. apply Forall_app. split; [done|by constructor].
Qed.

Lemma greedy_groups_words max_length words :
  Forall word words -> Forall (Forall word) (greedy_groups max_length words).
Proof.
  destruct words as [|w ws]; [constructor|].
  intros Hall. inversion Hall; subst.
  apply group_from_words; [by constructor|done].
Qed.

Lemma pack_from_single max_length words : forall line,
  (max_length <= 0)%Z -> Forall word words ->
  pack_from max_length line words = line :: words.
Proof.
  induction words as [|w ws IH]; intros line Hmax Hwords; cbn [pack_from]; [done|].
  inversion Hwords as [|? ? [Hw _] Hws]; subst.
  destruct (_ >? _)%Z eqn:Hgt.
  - by rewrite IH.
  - rewrite !len_append in Hgt. change (len " ") with 1%Z in Hgt.
    pose proof (len_nonneg line). pose proof (len_nonneg w). lia.
Qed.

End Blank.

(** X3: for a text longer than the threshold, [wrap_text] leaves no
    whitespace in its output other than single space characters, and the
    output is the empty string exactly when the text is whitespace only. *)
Theorem wrap_text_whitespace (text : string) (max_length : Z) :
  (max_length < len text)%Z ->
  plain_spaces (wrap_text text max_length) = true
  /\ (wrap_text text max_length = "" <-> blank text = true).
Proof.
  intros Hlong. split.
  - rewrite wrap_text_groups by done.
    apply join_lines_plain, Forall_fmap.
    eapply Forall_impl; [apply greedy_groups_words, split_words|].
    intros line Hline. by apply join_plain_spaces.
  - rewrite wrap_text_long by lia. split.
    + intros Hempty. apply split_nil_blank.
      pose proof (split_words text) as Hwords. unfold split in *.
      destruct (split_from "" text) as [|w ws]; [done|].
      inversion Hwords as [|? ? [Hw _] _]; subst.
      destruct (pack_from_head max_length ws w Hw) as (l & ls & Heq & Hl).
      cbn [greedy_lines] in Hempty. rewrite Heq in Hempty.
      apply (join_nonempty "<br>" l ls) in Hl. by rewrite Hempty in Hl.
    + intros Hblank. unfold split. by rewrite split_from_blank.
Qed.

Lemma wrap_text_whitespace_witness :
  (25 < len ("Gobierno corporativo" ++ tab ++ "y transparencia"))%Z
  /\ plain_spaces (wrap_text ("Gobierno corporativo" ++ tab ++ "y transparencia") 25)
     = true.
Proof.
  split; [reflexivity|].
  apply (wrap_text_whitespace ("Gobierno corporativo" ++ tab ++ "y transparencia") 25).
  reflexivity.
Defined.

(** X4: with a threshold of zero or less, [wrap_text] puts every word of
    the text on a line of its own. *)
Theorem wrap_text_nonpositive (text : string) (max_length : Z) :
  (max_length <= 0)%Z ->
  wrap_text text max_length = join "<br>" (split text).
Proof.
  intros Hmax. destruct (len text <=? max_length)%Z eqn:Hle.
  - unfold wrap_text. rewrite Hle. destruct text; [done|].
    rewrite len_cons in Hle. pose proof (len_nonneg text). lia.
  - rewrite wrap_text_long by done.
    pose proof (split_words text) as Hwords.
    destruct (split text) as [|w ws]; [done|]. cbn [greedy_lines].
    f_equal. apply pack_from_single; [done|]. by inversion Hwords.
Qed.

Lemma wrap_text_nonpositive_witness :
  wrap_text "Agua y energia" 0 = join "<br>" (split "Agua y energia").
Proof. apply (wrap_text_nonpositive "Agua y energia" 0). lia. Defined.


(** * Files and folders *)

Section Folders.
Context `{FloatParser}.

Lemma save_chart_run fig filename w :
  fs w !! "charts" = None \/ fs w !! "charts" = Some Directory ->
  V3.save_chart_as_html fig filename w
  = (Ok tt,
     mkWorld (<[("charts/" ++ filename)%string := HtmlFile fig]>
                (<["charts" := Directory]> (fs w)))
       (heap w) (stdout w) (default_template w)).
Proof.
  intros Hdir. unfold V3.save_chart_as_html.
  rewrite bind_run. unfold path_exists at 1. rewrite seq_run.
  destruct Hdir as [Hdir|Hdir].
  - rewrite bool_decide_eq_false_2 by (rewrite Hdir; by intros [? ?]).
    unfold makedirs at 1. unfold write_file. cbn [fs heap stdout default_template].
    by rewrite lookup_insert_eq.
  - rewrite bool_decide_eq_true_2 by (by rewrite Hdir).
    unfold mret at 1, M_ret at 1. unfold write_file. rewrite Hdir.
    by rewrite (insert_id (fs w) "charts" Directory).
Qed.

Lemma load_brand_run w b t :
  fs w !! "eafitBrand.json" = Some (JsonFile b) ->
  V3.make_template b = Ok t ->
  V3.load_brand w = (Ok tt, mkWorld (fs w) (heap w) (stdout w) (Some t)).
Proof.
  intros Hjson Ht. unfold V3.load_brand.
  rewrite bind_run. unfold load_json at 1. rewrite Hjson.
  rewrite bind_run. unfold lift at 1. by rewrite Ht.
Qed.

Lemma load_brand_raises w b e :
  fs w !! "eafitBrand.json" = Some (JsonFile b) ->
  V3.make_template b = Raise e ->
  V3.load_brand w = (Raise e, w).
Proof.
  intros Hjson Ht. unfold V3.load_brand.
  rewrite bind_run. unfold load_json at 1. rewrite Hjson.
  rewrite bind_run. unfold lift at 1. by rewrite Ht.
Qed.


End Folders.

(** X5: [save_chart_as_html] of v3 makes the folder 'charts' when it is not
    there, writes the figure to 'charts/<filename>' and does not fail; it
    touches no other path, no table and prints nothing. The file name is a
    plain one, as the names that the script passes. *)
Theorem save_chart_as_html_makes_folder (fig : figure) (filename : string)
    (w : world) :
  filename <> "" -> contains "/" filename = false ->
  fs w !! "charts" = None \/ fs w !! "charts" = Some Directory ->
  exists w',
    V3.save_chart_as_html fig filename w = (Ok tt, w')
    /\ fs w' !! "charts" = Some Directory
    /\ fs w' !! ("charts/" ++ filename)%string = Some (HtmlFile fig)
    /\ (forall path, path <> "charts" -> path <> ("charts/" ++ filename)%string ->
          fs w' !! path = fs w !! path)
    /\ heap w' = heap w /\ stdout w' = stdout w.
Proof.
  intros _ _ Hdir. eexists. split; [by apply save_chart_run|].
  cbn [fs heap stdout]. split; [|split; [|split; [|done]]].
  - rewrite lookup_insert_ne by done. by rewrite lookup_insert_eq.
  - by rewrite lookup_insert_eq.
  - intros path H1 H2. by rewrite !lookup_insert_ne.
Qed.

Lemma save_chart_as_html_makes_folder_witness :
  exists w',
    V3.save_chart_as_html FigOther "02_heatmap_performance.html" world0 = (Ok tt, w')
    /\ fs w' !! "charts" = Some Directory.
Proof.
  destruct (save_chart_as_html_makes_folder FigOther "02_heatmap_performance.html" world0)
    as (w' & Hrun & Hdir & _); [done|reflexivity|by left|].
  by exists w'.
Defined.

Section Folders2.
Context `{FloatParser}.


End Folders2.



Section Setup.
Context `{FloatParser}.

Lemma keeps_try {A} I (body : M A) (handler : string -> M A) :
  keeps I body -> (forall name, keeps I (handler name)) ->
  keeps I (try_except_FileNotFoundError body handler).
Proof.
  intros Hbody Hhandler w Hw. unfold try_except_FileNotFoundError.
  specialize (Hbody w Hw). destruct (body w) as [[a|[name| | | |]] w1]; try done.
  apply (Hhandler name w1). exact Hbody.
Qed.

Lemma keeps_fs_read_csv F path : keeps (fun w => fs w = F) (read_csv path).
Proof. intros w Hw. unfold read_csv. by destruct (fs w !! path) as [[]|]. Qed.

Lemma keeps_fs_load_json F path : keeps (fun w => fs w = F) (load_json path).
Proof. intros w Hw. unfold load_json. by destruct (fs w !! path) as [[]|]. Qed.

Lemma keeps_fs_print F line : keeps (fun w => fs w = F) (print line).
Proof. by intros w Hw. Qed.

Lemma keeps_fs_template F t : keeps (fun w => fs w = F) (set_default_template t).
Proof. by intros w Hw. Qed.

Lemma charts_dir_step (w : world) :
  (if bool_decide (is_Some (fs w !! "charts")) then mret ()
   else makedirs "charts";; print "Directorio 'charts/' creado.") w
  = (Ok tt, with_charts_dir w).
Proof.
  unfold with_charts_dir. destruct (bool_decide _); [reflexivity|].
  rewrite seq_run. reflexivity.
Qed.

Lemma setup_environment_fs (w : world) :
  fs (snd (V2.setup_environment w)) = fs (with_charts_dir w).
Proof.
  unfold V2.setup_environment.
  rewrite bind_run. unfold path_exists at 1. rewrite seq_run, charts_dir_step.
  match goal with |- fs (snd (?m _)) = _ =>
    assert (keeps (fun w' => fs w' = fs (with_charts_dir w)) m) as Hkeeps
  end.
  { apply keeps_bind.
    - apply keeps_try.
      + apply keeps_bind; [apply keeps_fs_read_csv|]. intros df.
        apply keeps_bind; [apply keeps_fs_load_json|]. intros b.
        apply keeps_ret.
      + intros name. apply keeps_seq; [apply keeps_fs_print|apply keeps_ret].
    - intros [[df b]|]; [|apply keeps_ret].
      apply keeps_bind; [apply keeps_lift|]. intros t.
      apply keeps_seq; [apply keeps_fs_template|].
      apply keeps_seq; [apply keeps_fs_print|apply keeps_ret]. }
  by apply Hkeeps.
Qed.

Lemma with_charts_dir_some (w : world) : is_Some (fs (with_charts_dir w) !! "charts").
Proof.
  unfold with_charts_dir. destruct (bool_decide _) eqn:Hb.
  - by apply bool_decide_eq_true_1 in Hb.
  - cbn [fs]. by rewrite lookup_insert_eq.
Qed.

End Setup.

(** X7: whatever its outcome, [setup_environment] of v2 leaves the folder
    'charts' in place and changes no other path; when the folder was there
    already, the file system stays as it was. *)
Theorem setup_environment_folder (w : world) :
  is_Some (fs (snd (V2.setup_environment w)) !! "charts")
  /\ (forall path, path <> "charts" ->
        fs (snd (V2.setup_environment w)) !! path = fs w !! path)
  /\ (is_Some (fs w !! "charts") -> fs (snd (V2.setup_environment w)) = fs w).
Proof.
  rewrite setup_environment_fs. split; [apply with_charts_dir_some|]. split.
  - intros path Hne. by apply with_charts_dir_other.
  - intros Hsome. unfold with_charts_dir. by rewrite bool_decide_eq_true_2.
Qed.

(** X8: [save_chart_as_html] of v2 does not make the folder 'charts'
    itself: without the folder it raises FileNotFoundError and prints
    nothing. After [setup_environment] it writes the figure to
    'charts/<filename>' and prints the path. The file name is a plain one,
    as the names that the chart functions pass. *)
Theorem save_chart_as_html_needs_setup (fig : figure)
    (filename : string) (w : world) :
  filename <> "" -> contains "/" filename = false ->
  fs w !! "charts" = None ->
  V2.save_chart_as_html fig filename w
  = (Raise (FileNotFoundError ("charts/" ++ filename)%string), w)
  /\ exists w',
       V2.save_chart_as_html fig filename (snd (V2.setup_environment w)) = (Ok tt, w')
       /\ fs w' !! ("charts/" ++ filename)%string = Some (HtmlFile fig)
       /\ last (stdout w')
          = Some ("Gráfico guardado en: charts/" ++ filename)%string.
Proof.
  intros _ _ Hdir. split.
  - unfold V2.save_chart_as_html. rewrite seq_run. unfold write_file. by rewrite Hdir.
  - unfold V2.save_chart_as_html. rewrite seq_run. unfold write_file at 1.
    rewrite setup_environment_fs. unfold with_charts_dir at 1 2.
    rewrite bool_decide_eq_false_2 by (rewrite Hdir; by intros [? ?]).
    cbn [fs]. rewrite lookup_insert_eq. unfold print.
    eexists. split; [reflexivity|]. cbn [fs stdout]. split.
    + by rewrite lookup_insert_eq.
    + by rewrite last_snoc.
Qed.

Lemma save_chart_as_html_needs_setup_witness :
  V2.save_chart_as_html FigOther "01_radar_macroeconomic.html" world0
  = (Raise (FileNotFoundError "charts/01_radar_macroeconomic.html"), world0).
Proof.
  apply (save_chart_as_html_needs_setup FigOther
           "01_radar_macroeconomic.html" world0); [done|reflexivity|reflexivity].
Defined.

Section Brand.
Context `{FloatParser}.

Lemma json_get_error (j : json) (key : string) (e : exn) :
  json_get j key = Raise e -> e = KeyError key \/ e = TypeError.
Proof.
  unfold json_get. destruct j as [s|items|fields]; try (intros [= <-]; by right).
  destruct (list_find _ fields) as [[? [? ?]]|]; [done|]. intros [= <-]. by left.
Qed.

Lemma json_path_error (keys : list string) : forall (j : json) (e : exn),
  json_path j keys = Raise e -> (exists key, e = KeyError key) \/ e = TypeError.
Proof.
  induction keys as [|k rest IH]; intros j e; cbn [json_path]; [done|].
  destruct (json_get j k) as [v|e'] eqn:Hget; result_simpl.
  - apply IH.
  - intros [= <-]. apply json_get_error in Hget as [->| ->]; eauto.
Qed.

Lemma v2_make_template_error (b : json) (e : exn) :
  V2.make_template b = Raise e -> (exists key, e = KeyError key) \/ e = TypeError.
Proof.
  unfold V2.make_template.
  repeat (match goal with
          | |- context [json_path b ?p] =>
              let Hp := fresh "Hp" in
              destruct (json_path b p) eqn:Hp; result_simpl;
              [|intros [= <-]; by eapply json_path_error]
          end).
  done.
Qed.

Lemma main_brand_raises (cwd : string) (w : world) (df : DataFrame) (b : json) (e : exn) :
  fs w !! "empresasEafit.csv" = Some (CsvFile df) ->
  fs w !! "eafitBrand.json" = Some (JsonFile b) ->
  V2.make_template b = Raise e ->
  V2.main cwd w
  = (Raise e,
     mkWorld (fs (with_charts_dir w)) (heap w ++ [df]) (stdout (with_charts_dir w))
       (default_template w)).
Proof.
  intros Hcsv Hjson Hb. unfold V2.main. rewrite bind_run.
  unfold V2.setup_environment.
  rewrite bind_run. unfold path_exists at 1. rewrite seq_run, charts_dir_step.
  rewrite bind_run. unfold try_except_FileNotFoundError. rewrite bind_run.
  unfold read_csv at 1. rewrite with_charts_dir_other, Hcsv by done.
  unfold alloc at 1. rewrite bind_run. unfold load_json at 1. cbn [fs].
  rewrite with_charts_dir_other, Hjson by done.
  unfold mret at 1, M_ret at 1. rewrite bind_run. unfold lift at 1.
  rewrite Hb. do 2 f_equal.
  - unfold with_charts_dir. by destruct (bool_decide _).
  - unfold with_charts_dir. by destruct (bool_decide _).
Qed.

End Brand.

(** X9: the [try] of [setup_environment] catches a missing file only. When
    both files are there but the brand file lacks a key that the template of
    v2 reads, [main] of v2 ends with that KeyError (or TypeError, when a
    value that is indexed is no object), having printed at most the notice
    about the new folder, and writes no chart. In v3 such a brand file stops
    the script before the dataset is read, with the state untouched. *)
Theorem brand_key_missing `{FloatParser} (order : mem_order) (cwd : string)
    (w : world) (df : DataFrame) (b : json) (e : exn) :
  fs w !! "eafitBrand.json" = Some (JsonFile b) ->
  (V3.make_template b = Raise e -> V3.script order w = (Raise e, w))
  /\ (fs w !! "empresasEafit.csv" = Some (CsvFile df) ->
      V2.make_template b = Raise e ->
      ((exists key, e = KeyError key) \/ e = TypeError)
      /\ exists w',
           V2.main cwd w = (Raise e, w')
           /\ no_chart_written w w'
           /\ (stdout w' = stdout w
               \/ stdout w' = stdout w ++ ["Directorio 'charts/' creado."])).
Proof.
  intros Hjson. split.
  - intros Hb. unfold V3.script. rewrite seq_run.
    by rewrite (load_brand_raises w b e).
  - intros Hcsv Hb. split; [by apply (v2_make_template_error b)|].
    eexists. split; [by apply (main_brand_raises cwd w df b e)|]. split.
    + pose proof (with_charts_dir_no_chart w) as Hn.
      intros path fig Hfile. by apply (Hn path fig).
    + cbn [stdout]. unfold with_charts_dir. destruct (bool_decide _); auto.
Qed.

Lemma brand_key_missing_witness :
  fs world_title_only !! "eafitBrand.json" = Some (JsonFile brand_title_only)
  /\ is_Ok (V3.make_template brand_title_only)
  /\ exists w',
       @V2.main decimal_parser "/home/eafit" world_title_only
       = (Raise (KeyError "heading2"), w')
       /\ no_chart_written world_title_only w'.
Proof.
  split; [reflexivity|]. split; [by eexists|].
  destruct (@brand_key_missing decimal_parser RowMajor "/home/eafit"
              world_title_only table brand_title_only (KeyError "heading2"))
    as [_ Hv2]; [reflexivity|].
  destruct Hv2 as (_ & w' & Hrun & Hno & _); [reflexivity|reflexivity|].
  by exists w'.
Defined.

Section MissingColumn.
Context `{FloatParser}.

Lemma col_index_None (c : string) (cols : list string) :
  col_index c cols = None <-> c ∉ cols.
Proof.
  induction cols as [|c' rest IH]; cbn [col_index].
  - split; [intros _; by apply not_elem_of_nil|done].
  - rewrite not_elem_of_cons. destruct (decide (c' = c)) as [->|Hne].
    + split; [done|]. by intros [? _].
    + destruct (col_index c rest); cbn [fmap option_fmap option_map].
      * split; [done|]. intros [_ Hout]. by apply IH in Hout.
      * split; [|done]. intros _. split; [done|]. by apply IH.
Qed.

Lemma load_raw_data_raises (w : world) (df : DataFrame) :
  fs w !! "empresasEafit.csv" = Some (CsvFile df) ->
  "Macrosector" ∉ map strip (columns df) ->
  V3.load_raw_data w
  = (Raise (KeyError "Macrosector"),
     mkWorld (fs w) (heap w ++ [rename_columns strip df]) (stdout w)
       (default_template w)).
Proof.
  intros Hcsv Hout. apply col_index_None in Hout. unfold V3.load_raw_data.
  rewrite bind_run. unfold read_csv at 1. rewrite Hcsv. unfold alloc at 1.
  rewrite seq_run. unfold update at 1. cbn [heap].
  rewrite lookup_app_r, Nat.sub_diag by done. cbn [lookup list_lookup].
  rewrite bind_run. unfold deref at 1. cbn [heap].
  rewrite insert_app_r_alt, Nat.sub_diag by done. cbn [insert list_insert].
  rewrite lookup_app_r, Nat.sub_diag by done. cbn [lookup list_lookup].
  rewrite bind_run. unfold lift at 1.
  unfold V3.drop_sentinels, getitem. cbn [rename_columns columns].
  by rewrite Hout.
Qed.

End MissingColumn.

(** X10: when no column name of the dataset, once trimmed, is
    'Macrosector', the loader of v3 raises KeyError for that name, and the
    script ends with it before any chart: no file is written. *)
Theorem loader_without_sector_column `{FloatParser} (order : mem_order)
    (w : world) (b : json) (df : DataFrame) :
  fs w !! "eafitBrand.json" = Some (JsonFile b) ->
  is_Ok (V3.make_template b) ->
  fs w !! "empresasEafit.csv" = Some (CsvFile df) ->
  "Macrosector" ∉ map strip (columns df) ->
  fst (V3.load_raw_data w) = Raise (KeyError "Macrosector")
  /\ fst (V3.script order w) = Raise (KeyError "Macrosector")
  /\ fs (snd (V3.script order w)) = fs w.
Proof.
  intros Hjson [t Ht] Hcsv Hout. split.
  - by rewrite (load_raw_data_raises w df).
  - unfold V3.script. rewrite seq_run, (load_brand_run w b t) by done.
    rewrite bind_run, (load_raw_data_raises _ df) by done. done.
Qed.

Lemma loader_without_sector_column_witness :
  ("Macrosector" ∉ map strip (columns table_no_sector))
  /\ fst (@V3.script decimal_parser RowMajor world_no_sector)
     = Raise (KeyError "Macrosector").
Proof.
  assert ("Macrosector" ∉ map strip (columns table_no_sector)) as Hout.
  { apply col_index_None. reflexivity. }
  split; [exact Hout|].
  apply (@loader_without_sector_column decimal_parser RowMajor world_no_sector
           brand table_no_sector); [reflexivity|by eexists|reflexivity|exact Hout].
Defined.


(** * The order of the labels *)

Section Order.

Lemma ascii_compare_trans (a b c : ascii) (o : comparison) :
  Ascii.compare a b = o -> Ascii.compare b c = o -> Ascii.compare a c = o.
Proof.
  unfold Ascii.compare. destruct o.
  - rewrite !N.compare_eq_iff. congruence.
  - rewrite !N.compare_lt_iff. lia.
  - rewrite !N.compare_gt_iff. lia.
Qed.

Lemma string_leb_trans (a b c : string) :
  String.leb a b = true -> String.leb b c = true -> String.leb a c = true.
Proof.
  unfold String.leb. revert b c.
  induction a as [|x a IH]; intros [|y b] [|z c]; cbn [String.compare]; try done.
  destruct (Ascii.compare x y) eqn:Hxy; [| |done].
  - apply Ascii.compare_eq_iff in Hxy as ->.
    destruct (Ascii.compare y z); [apply IH|done|done].
  - destruct (Ascii.compare y z) eqn:Hyz; [| |done].
    + apply Ascii.compare_eq_iff in Hyz as <-. by rewrite Hxy.
    + by rewrite (ascii_compare_trans x y z Lt).
Qed.

Lemma Qc_leb_true (x y : Qc) : Qc_leb x y = true <-> (x <= y)%Qc.
Proof. unfold Qc_leb. apply bool_decide_eq_true. Qed.

#[global] Instance cell_le_trans : Transitive (key_le (K:=cell)).
Proof.
  intros [|x|s] [|y|t] [|z|u]; unfold key_le; cbn [key_leb cell_GroupKey cell_leb];
    try done.
  - rewrite !Qc_leb_true. apply Qcle_trans.
  - apply string_leb_trans.
Qed.

#[global] Instance cell_le_total : Total (key_le (K:=cell)).
Proof.
  intros [|x|s] [|y|t]; unfold key_le; cbn [key_leb cell_GroupKey cell_leb]; auto.
  - rewrite !Qc_leb_true. destruct (Qclt_le_dec x y) as [Hlt|Hle]; [|by right].
    left. by apply Qclt_le_weak.
  - apply String.leb_total.
Qed.

Lemma pair_le_cases {A B} `{GroupKey A, GroupKey B} (p q : A * B) :
  key_le p q <->
  key_le (fst p) (fst q) /\ (key_le (fst q) (fst p) -> key_le (snd p) (snd q)).
Proof.
  unfold key_le. cbn [key_leb pair_GroupKey].
  destruct (key_leb (fst p) (fst q)), (key_leb (fst q) (fst p));
    split; try done; try tauto; intros [? ?]; done.
Qed.

#[global] Instance pair_le_trans {A B} `{GroupKey A, GroupKey B}
  `{!Transitive (key_le (K:=A)), !Transitive (key_le (K:=B))} :
  Transitive (key_le (K:=A * B)).
Proof.
  intros p q r. rewrite !pair_le_cases. intros [Hpq Hpq'] [Hqr Hqr'].
  split; [by etrans|]. intros Hrp.
  etrans; [apply Hpq'|apply Hqr']; by etrans.
Qed.

#[global] Instance pair_le_total {A B} `{GroupKey A, GroupKey B}
  `{!Total (key_le (K:=A)), !Total (key_le (K:=B))} :
  Total (key_le (K:=A * B)).
Proof.
  intros p q. rewrite !pair_le_cases.
  destruct (total key_le (fst p) (fst q)) as [H1|H1];
    destruct (decide (key_le (fst q) (fst p))) as [H2|H2];
    destruct (decide (key_le (fst p) (fst q))) as [H3|H3];
    destruct (total key_le (snd p) (snd q)); naive_solver.
Qed.

(** The keys of the groups come in ascending order. *)
Lemma group_keys_sorted {K} `{EqDecision K, GroupKey K}
  `{!Transitive (key_le (K:=K)), !Total (key_le (K:=K))} (keys : list K) :
  StronglySorted key_le (group_keys keys).
Proof. unfold group_keys. by apply StronglySorted_merge_sort. Qed.

Lemma sorted_lookup {A} (R : relation A) (l : list A) (i j : nat) (x y : A) :
  StronglySorted R l -> l !! i = Some x -> l !! j = Some y -> (i < j)%nat -> R x y.
Proof.
  intros Hs. revert i j. induction Hs as [|a l Hs IH Hall]; intros i j; [done|].
  destruct i as [|i], j as [|j]; cbn [lookup list_lookup]; try lia.
  - intros [= <-] Hy _. rewrite Forall_forall in Hall.
    apply Hall. by eapply list_elem_of_lookup_2.
  - intros Hx Hy Hlt. apply (IH i j); [done|done|lia].
Qed.

Lemma NoDup_lookup_ne {A} (l : list A) (i j : nat) (x y : A) :
  NoDup l -> l !! i = Some x -> l !! j = Some y -> (i < j)%nat -> x <> y.
Proof.
  intros Hnd Hi Hj Hlt ->. pose proof (NoDup_lookup l i j y Hnd Hi Hj). lia.
Qed.

End Order.

(** * The company table *)

Section Companies.
Context `{FloatParser}.

Lemma company_table_names (names scores incomes sectors : Series) (rows : list company) :
  company_table names scores incomes sectors = Ok rows ->
  map razon_social rows = group_keys names.
Proof.
  unfold company_table. intros Hrows. apply mapM_Ok in Hrows.
  induction Hrows as [|k c ks cs Hk _ IH]; [done|].
  cbn [map]. f_equal; [|done].
  destruct (agg_sum _); result_simpl; [|done]. by injection Hk as <-.
Qed.

Lemma company_agg_names (df : DataFrame) (names : Series) (rows : list company) :
  getitem df "Razón social" = Ok names ->
  company_agg df = Ok rows ->
  map razon_social rows = group_keys names.
Proof.
  intros Hnames. unfold company_agg. rewrite Hnames. result_simpl.
  destruct (getitem df "valoracionPonderada"); result_simpl; [|done].
  destruct (getitem df "Ingresos operacionales"); result_simpl; [|done].
  destruct (getitem df "Macrosector"); result_simpl; [|done].
  apply company_table_names.
Qed.

Lemma setitem_own_column (df : DataFrame) (c : string) (s : Series) :
  getitem df c = Ok s -> setitem df c s = df.
Proof.
  unfold getitem, setitem. destruct (col_index c (columns df)) as [i|]; [|done].
  intros [= <-]. destruct df as [cols vals]. cbn [columns values]. f_equal.
  induction vals as [|row vals IH]; [done|]. cbn [map zip_with]. f_equal; [|done].
  unfold cell_of. destruct (row !! i) as [x|] eqn:Hrow; cbn [default].
  - by apply list_insert_id.
  - apply lookup_ge_None in Hrow. by apply list_insert_ge.
Qed.

Lemma filled_filled (s : Series) : filled (filled s) = filled s.
Proof. unfold filled. rewrite map_map. done. Qed.

End Companies.

(** X11: the coercion of chart 4 of v3 is idempotent: on the table that it
    leaves, running the two assignments again changes nothing. *)
Theorem coerced_idempotent `{FloatParser} (raw raw' : DataFrame) :
  rectangular raw ->
  V3.coerced raw = Ok raw' ->
  V3.coerced raw' = Ok raw'.
Proof.
  intros Hrect Hraw.
  destruct (getitem raw "valoracionPonderada") as [scores|e] eqn:Hs.
  2:{ unfold V3.coerced in Hraw. by rewrite Hs in Hraw. }
  destruct (getitem raw "Ingresos operacionales") as [incomes|e] eqn:Hi.
  2:{ unfold V3.coerced in Hraw. rewrite Hs in Hraw. revert Hraw. result_simpl.
      rewrite coerce_fill_values. result_simpl.
      destruct (getitem_col_index _ _ _ Hs) as [i Hcol].
      destruct (setitem_same raw "valoracionPonderada"
                  (map (fun c => Num (coerced_value c)) scores) i)
        as (_ & _ & _ & Hother); [done|done| |].
      { rewrite length_map. by eapply getitem_length. }
      rewrite Hother, Hi by done. done. }
  destruct (coerced_run raw scores incomes Hrect Hs Hi)
    as (t & Ht & Hrect' & Hcols & Hs' & Hi' & _).
  rewrite Hraw in Ht. injection Ht as <-.
  unfold V3.coerced. rewrite Hs'. result_simpl.
  rewrite coerce_fill_values. result_simpl.
  change (map (fun c => Num (coerced_value c)) (filled scores))
    with (filled (filled scores)).
  rewrite filled_filled, (setitem_own_column raw') by done.
  rewrite Hi'. result_simpl. rewrite coerce_fill_values. result_simpl.
  change (map (fun c => Num (coerced_value c)) (filled incomes))
    with (filled (filled incomes)).
  by rewrite filled_filled, (setitem_own_column raw').
Qed.

Lemma coerced_idempotent_witness :
  exists raw',
    @V3.coerced decimal_parser table1 = Ok raw'
    /\ @V3.coerced decimal_parser raw' = Ok raw'.
Proof.
  eexists. split; [vm_compute; reflexivity|].
  apply (@coerced_idempotent decimal_parser table1).
  - repeat constructor.
  - vm_compute. reflexivity.
Defined.

(** X12: the company table (chart 4 of v3, chart 5 of v2) has one row for
    each distinct company name that is not null, and the rows come in
    ascending order of the name. *)
Theorem company_rows_by_name (df : DataFrame) (names : Series) (rows : list company) :
  getitem df "Razón social" = Ok names ->
  company_agg df = Ok rows ->
  NoDup (map razon_social rows)
  /\ (forall k, k ∈ map razon_social rows <-> k ∈ names /\ k <> NaN)
  /\ (forall i j c c' s s',
        rows !! i = Some c -> rows !! j = Some c' -> (i < j)%nat ->
        razon_social c = Str s -> razon_social c' = Str s' ->
        String.leb s s' = true /\ s <> s').
Proof.
  intros Hnames Hrows. pose proof (company_agg_names df names rows Hnames Hrows) as Hkeys.
  split; [|split].
  - rewrite Hkeys. apply NoDup_group_keys.
  - intros k. rewrite Hkeys, elem_of_group_keys.
    cbn [key_notna cell_GroupKey]. unfold notna.
    destruct k; cbn [isna negb]; split; intros [? ?]; split; done.
  - intros i j c c' s s' Hi Hj Hlt Hs Hs'.
    assert (map razon_social rows !! i = Some (Str s)) as Hi'.
    { by rewrite list_lookup_fmap, Hi, <- Hs. }
    assert (map razon_social rows !! j = Some (Str s')) as Hj'.
    { by rewrite list_lookup_fmap, Hj, <- Hs'. }
    rewrite Hkeys in Hi', Hj'. split.
    + exact (sorted_lookup key_le _ i j _ _ (group_keys_sorted names) Hi' Hj' Hlt).
    + pose proof (NoDup_lookup_ne _ i j _ _ (NoDup_group_keys names) Hi' Hj' Hlt).
      congruence.
Qed.

Lemma company_rows_by_name_witness :
  exists rows,
    company_agg table1 = Ok rows
    /\ NoDup (map razon_social rows).
Proof.
  eexists. split; [vm_compute; reflexivity|].
  eapply (company_rows_by_name table1 names1); reflexivity.
Defined.

Section Conservation.
Context `{FloatParser}.
Local Open Scope Qc_scope.




End Conservation.



Section Treemap.
Context `{FloatParser}.



End Treemap.




(** * The diverging bars, once more *)

Section Bars.
Local Open Scope Qc_scope.

Lemma diverging_data_run (rows : list company) :
  Forall (fun c => numeric (puntaje_total c) = true) rows ->
  V3.diverging_data rows
  = Ok (sort_values
          (fun d => (macrosector (of_company d), diferencia_vs_promedio d))
          (map (diverging_of rows) (filter (fun c => macrosector c <> NaN) rows))).
Proof.
  intros Hnum. unfold V3.diverging_data.
  rewrite sector_avg_score_run by done. result_simpl.
  rewrite merge_on_sector_run.
  rewrite (mapM_total _ (fun p : company * cell => diverging_of rows (fst p))).
  2:{ apply Forall_forall. intros p Hp.
      apply list_elem_of_fmap in Hp as (c & -> & Hc).
      apply list_elem_of_filter in Hc as [_ Hc]. cbn [fst].
      rewrite Forall_forall in Hnum. by apply diverging_row_run, Hnum. }
  result_simpl. by rewrite map_map.
Qed.

Lemma sort_values_sorted {A K} `{GroupKey K}
  `{!Transitive (key_le (K:=K)), !Total (key_le (K:=K))} (key : A -> K) (rows : list A) :
  StronglySorted (fun a b => key_le (key a) (key b)) (sort_values key rows).
Proof.
  unfold sort_values. apply StronglySorted_merge_sort.
  - intros a b c. apply transitivity.
  - intros a b. apply (total key_le).
Qed.

Lemma sort_values_Permutation {A K} `{GroupKey K} (key : A -> K) (rows : list A) :
  sort_values key rows ≡ₚ rows.
Proof. unfold sort_values. apply merge_sort_Permutation. Qed.









End Bars.

(** X15: the diverging-bar table of chart 10 is sorted by sector and, within
    a sector, by the difference to the sector mean in ascending order. *)
Theorem diverging_rows_sorted (rows : list company) (table : list diverging)
    (i j : nat) (d d' : diverging) (s s' : string) :
  Forall (fun c => numeric (puntaje_total c) = true) rows ->
  V3.diverging_data rows = Ok table ->
  table !! i = Some d -> table !! j = Some d' -> (i < j)%nat ->
  macrosector (of_company d) = Str s ->
  macrosector (of_company d') = Str s' ->
  String.leb s s' = true
  /\ (s = s' ->
      exists x x',
        diferencia_vs_promedio d = Num x /\ diferencia_vs_promedio d' = Num x'
        /\ (x <= x')%Qc).
Proof.
  intros Hnum Hrun Hi Hj Hlt Hs Hs'.
  rewrite diverging_data_run in Hrun by done. injection Hrun as <-.
  pose proof (sorted_lookup _ _ i j d d'
                (sort_values_sorted
                   (fun d => (macrosector (of_company d), diferencia_vs_promedio d)) _)
                Hi Hj Hlt) as Hle.
  apply pair_le_cases in Hle as [Hsec Hdiff]. cbn [fst snd] in Hsec, Hdiff.
  rewrite Hs, Hs' in Hsec, Hdiff. split; [exact Hsec|].
  intros <-.
  assert (forall e, e ∈ sort_values
                          (fun d => (macrosector (of_company d), diferencia_vs_promedio d))
                          (map (diverging_of rows)
                               (filter (fun c => macrosector c <> NaN) rows)) ->
                    exists x, diferencia_vs_promedio e = Num x) as Hnums.
  { intros e He. rewrite sort_values_Permutation in He.
    apply list_elem_of_fmap in He as (c & -> & _). by eexists. }
  destruct (Hnums d) as [x Hx]; [by eapply list_elem_of_lookup_2|].
  destruct (Hnums d') as [x' Hx']; [by eapply list_elem_of_lookup_2|].
  exists x, x'. split; [done|]. split; [done|].
  rewrite Hx, Hx' in Hdiff. apply Qc_leb_true, Hdiff.
  unfold key_le. cbn [key_leb cell_GroupKey cell_leb].
  destruct (String.leb_total s s); done.
Qed.

Lemma diverging_rows_sorted_witness :
  exists table d d',
    V3.diverging_data company_rows1 = Ok table
    /\ table !! 0%nat = Some d /\ table !! 1%nat = Some d'
    /\ exists x x',
         diferencia_vs_promedio d = Num x /\ diferencia_vs_promedio d' = Num x'
         /\ (x <= x')%Qc.
Proof.
  pose (table := match V3.diverging_data company_rows1 with
                 | Ok t => t
                 | Raise _ => []
                 end).
  assert (V3.diverging_data company_rows1 = Ok table) as Hrun
    by (vm_compute; reflexivity).
  destruct (table !! 0%nat) as [d|] eqn:H0; [|vm_compute in H0; discriminate].
  destruct (table !! 1%nat) as [d'|] eqn:H1; [|vm_compute in H1; discriminate].
  exists table, d, d'.
  split; [exact Hrun|]. split; [exact H0|]. split; [exact H1|].
  destruct (diverging_rows_sorted company_rows1 table 0 1 d d' "Industria" "Industria")
    as [_ Hx]; [..|exact (Hx eq_refl)].
  - repeat constructor.
  - exact Hrun.
  - exact H0.
  - exact H1.
  - lia.
  - vm_compute in H0. injection H0 as <-. reflexivity.
  - vm_compute in H1. injection H1 as <-. reflexivity.
Defined.







(** * The shape of the pivoted matrices *)

Section Shape.

Lemma mapM_keys {K V} (g : K -> result V) (ks : list K) (l : list (K * V)) :
  mapM (fun k => v ← g k; mret (k, v)) ks = Ok l -> map fst l = ks.
Proof.
  intros Hl. apply mapM_Ok in Hl.
  induction Hl as [|k p ks l Hk _ IH]; [done|].
  cbn [map]. f_equal; [|done].
  destruct (g k); revert Hk; result_simpl; [|done]. by intros [= <-].
Qed.

Lemma groupby2_keys agg (k1 k2 vals : Series) (long : list entry) :
  groupby2 agg k1 k2 vals = Ok long -> map fst long = group_keys (zip k1 k2).
Proof. apply mapM_keys. Qed.

Lemma sort_labels_shape (l : list cell) :
  NoDup (sort_labels l) /\ StronglySorted key_le (sort_labels l).
Proof.
  unfold sort_labels. split.
  - rewrite merge_sort_Permutation. apply NoDup_unique.
  - apply StronglySorted_merge_sort; apply _.
Qed.

Lemma unstack_shape (es : list entry) :
  let m := fillna_matrix 0 (unstack es) in
  length (data m) = length (index m)
  /\ Forall (fun row => length row = length (mcolumns m)) (data m)
  /\ NoDup (index m) /\ NoDup (mcolumns m)
  /\ StronglySorted key_le (index m) /\ StronglySorted key_le (mcolumns m).
Proof.
  cbn [fillna_matrix unstack index mcolumns data].
  split; [by rewrite !length_map|]. split.
  - apply Forall_fmap, Forall_fmap, Forall_forall. intros r _. cbn [compose].
    unfold fillna. by rewrite !length_map.
  - pose proof (sort_labels_shape (map entry_row es)) as [? ?].
    pose proof (sort_labels_shape (map entry_col es)) as [? ?]. done.
Qed.

(** A matrix in wide form, made from entries whose labels are not null. *)
Lemma pivot_unstack (es : list entry) (m : matrix) :
  pivot es = Ok m -> m = unstack es.
Proof. unfold pivot. destruct (decide _); [|done]. by intros [= <-]. Qed.

Lemma labels_notna (es : list entry) :
  Forall (fun e => key_notna (fst e) = true) es ->
  (NaN ∉ map entry_row es) /\ (NaN ∉ map entry_col es).
Proof.
  intros Hall. rewrite Forall_forall in Hall.
  split; intros Hin; apply list_elem_of_fmap in Hin as ([[r c] v] & Heq & He);
    specialize (Hall _ He); destruct r, c; cbn in Heq, Hall; done.
Qed.

Lemma group_keys_notna {K} `{EqDecision K, GroupKey K} (keys : list K) :
  Forall (fun k => key_notna k = true) (group_keys keys).
Proof. apply Forall_forall. intros k Hk. by apply elem_of_group_keys in Hk as [_ ?]. Qed.

Lemma entries_notna (es : list entry) (ks : list (cell * cell)) :
  map fst es = ks -> Forall (fun k => key_notna k = true) ks ->
  Forall (fun e => key_notna (fst e) = true) es.
Proof. intros <- Hall. by apply Forall_fmap in Hall. Qed.

Lemma radar_final_df_unstack (raw : DataFrame) (m : matrix) :
  V3.radar_final_df raw = Ok m ->
  exists es, m = fillna_matrix 0 (unstack es)
             /\ Forall (fun e => key_notna (fst e) = true) es.
Proof.
  unfold V3.radar_final_df.
  destruct (getitem raw "Macrosector") as [sector|]; result_simpl; [|done].
  destruct (getitem raw "Nombre Pilar") as [pilar|]; result_simpl; [|done].
  destruct (getitem raw "valoracionPonderada") as [score|]; result_simpl; [|done].
  destruct (groupby2 agg_mean sector pilar score) as [long|]; result_simpl; [|done].
  unfold pivot_table_mean.
  destruct (mapM _ _) as [agged|] eqn:Hagged; result_simpl; [|done].
  intros [= <-]. eexists. split; [reflexivity|].
  apply mapM_keys in Hagged.
  pose proof (entries_notna agged _ Hagged (group_keys_notna _)) as Hall.
  apply Forall_forall. intros e He. apply list_elem_of_filter in He as [_ He].
  rewrite Forall_forall in Hall. by apply Hall.
Qed.

Lemma swap_notna (long : list entry) :
  Forall (fun e => key_notna (fst e) = true) long ->
  Forall (fun e => key_notna (fst e) = true)
         (map (fun e : entry => (entry_col e, entry_row e, entry_val e)) long).
Proof.
  intros Hall. apply Forall_fmap. eapply Forall_impl; [exact Hall|].
  intros [[r c] v]. cbn. by rewrite andb_comm.
Qed.

Lemma var_importance_matrix_unstack (raw : DataFrame) (m : matrix) :
  V3.var_importance_matrix raw = Ok m ->
  exists es, m = fillna_matrix 0 (unstack es)
             /\ Forall (fun e => key_notna (fst e) = true) es.
Proof.
  unfold V3.var_importance_matrix.
  destruct (getitem raw "Macrosector") as [sector|]; result_simpl; [|done].
  destruct (getitem raw "Variable") as [variable|]; result_simpl; [|done].
  destruct (getitem raw "valoracionPonderada") as [score|]; result_simpl; [|done].
  destruct (groupby2 agg_mean sector variable score) as [long|] eqn:Hlong;
    result_simpl; [|done].
  destruct (pivot _) as [m0|] eqn:Hm0; result_simpl; [|done].
  intros [= <-]. apply pivot_unstack in Hm0 as ->.
  eexists. split; [reflexivity|]. apply swap_notna.
  apply groupby2_keys in Hlong. by eapply entries_notna, group_keys_notna.
Qed.

Lemma chord_matrix_unstack (raw : DataFrame) (m : matrix) :
  V3.chord_matrix raw = Ok m ->
  exists es, m = fillna_matrix 0 (unstack es)
             /\ Forall (fun e => key_notna (fst e) = true) es.
Proof.
  unfold V3.chord_matrix.
  destruct (getitem raw "Macrosector") as [sector|]; result_simpl; [|done].
  destruct (getitem raw "Nombre Pilar") as [pilar|]; result_simpl; [|done].
  destruct (getitem raw "valoracionPonderada") as [score|]; result_simpl; [|done].
  destruct (groupby2 agg_sum sector pilar score) as [long|] eqn:Hlong;
    result_simpl; [|done].
  destruct (pivot _) as [m0|] eqn:Hm0; result_simpl; [|done].
  intros [= <-]. apply pivot_unstack in Hm0 as ->.
  eexists. split; [reflexivity|].
  apply groupby2_keys in Hlong. by eapply entries_notna, group_keys_notna.
Qed.

Lemma sorted_strings (l : list cell) (i j : nat) (s s' : string) :
  StronglySorted key_le l ->
  l !! i = Some (Str s) -> l !! j = Some (Str s') -> (i < j)%nat ->
  String.leb s s' = true.
Proof. intros Hs Hi Hj Hlt. exact (sorted_lookup key_le l i j _ _ Hs Hi Hj Hlt). Qed.

End Shape.

(** X18: the matrices of charts 1, 13 and 15 are rectangular: one row of
    cells for each row label, one cell for each column label. No label
    occurs twice, none is null, and the labels are in ascending order. *)
Theorem pivoted_matrices_shape (raw : DataFrame) (m : matrix) :
  V3.radar_final_df raw = Ok m \/ V3.var_importance_matrix raw = Ok m
  \/ V3.chord_matrix raw = Ok m ->
  length (data m) = length (index m)
  /\ Forall (fun row => length row = length (mcolumns m)) (data m)
  /\ NoDup (index m) /\ NoDup (mcolumns m)
  /\ (NaN ∉ index m) /\ (NaN ∉ mcolumns m)
  /\ (forall i j s s',
        index m !! i = Some (Str s) -> index m !! j = Some (Str s') -> (i < j)%nat ->
        String.leb s s' = true)
  /\ (forall i j s s',
        mcolumns m !! i = Some (Str s) -> mcolumns m !! j = Some (Str s') -> (i < j)%nat ->
        String.leb s s' = true).
Proof.
  intros Hm.
  assert (exists es, m = fillna_matrix 0 (unstack es)
                     /\ Forall (fun e => key_notna (fst e) = true) es)
    as (es & -> & Hes).
  { destruct Hm as [Hm|[Hm|Hm]];
      [by apply (radar_final_df_unstack raw)
      |by apply (var_importance_matrix_unstack raw)
      |by apply (chord_matrix_unstack raw)]. }
  destruct (unstack_shape es) as (Hlen & Hrect & Hnd1 & Hnd2 & Hs1 & Hs2).
  destruct (labels_notna es Hes) as [Hr Hc].
  split; [done|]. split; [done|]. split; [done|]. split; [done|].
  split; [by rewrite index_unstack|]. split; [by rewrite columns_unstack|].
  split; intros i j s s'; by apply sorted_strings.
Qed.

Lemma pivoted_matrices_shape_witness :
  exists m,
    V3.chord_matrix table1 = Ok m
    /\ length (data m) = length (index m)
    /\ NoDup (index m).
Proof.
  pose (m := match V3.chord_matrix table1 with Ok m => m | Raise _ => mkMatrix [] [] [] end).
  assert (V3.chord_matrix table1 = Ok m) as Hm by (vm_compute; reflexivity).
  exists m. split; [exact Hm|].
  destruct (pivoted_matrices_shape table1 m) as (Hlen & _ & Hnd & _).
  - right. right. exact Hm.
  - split; [exact Hlen|exact Hnd].
Defined.

(** * The matrix of chart 15 *)

Section Chord.
Local Open Scope Qc_scope.

Lemma agg_sum_num_values (l : Series) :
  Forall (fun c => is_str c = false) l ->
  agg_sum l = Ok (Num (Qc_sum (map num_value l))).
Proof.
  intros Hall. rewrite (@agg_sum_no_str (fun _ => None) l Hall).
  assert (map (@coerced_value (fun _ => None)) l = map num_value l) as ->; [|done].
  apply map_ext_in. intros c Hc%list_elem_of_In.
  rewrite Forall_forall in Hall. specialize (Hall c Hc). by destruct c.
Qed.

Lemma groupby2_total (agg : Series -> result cell) (f : Series -> cell)
    (k1 k2 vals : Series) :
  (forall k, agg (group_values (zip k1 k2) vals k)
             = Ok (f (group_values (zip k1 k2) vals k))) ->
  groupby2 agg k1 k2 vals
  = Ok (map (fun k => (k, f (group_values (zip k1 k2) vals k)))
            (group_keys (zip k1 k2))).
Proof.
  intros Hagg. unfold groupby2. apply mapM_total, Forall_forall.
  intros k _. by rewrite Hagg.
Qed.

Lemma elem_of_zip_lookup {A B} (l : list A) (k : list B) (a : A) (b : B) :
  (a, b) ∈ zip l k <-> exists i, l !! i = Some a /\ k !! i = Some b.
Proof.
  rewrite list_elem_of_lookup. split.
  - intros [i Hi]. exists i.
    by apply lookup_zip_with_Some in Hi as (x & y & [= -> ->] & ? & ?).
  - intros (i & Ha & Hb). exists i. apply lookup_zip_with_Some. eauto.
Qed.

End Chord.

(** X19: when the score column holds no string, the matrix of chart 15 has a
    number in every cell; the cell of a sector and a pillar that share a row
    of the dataset holds the sum of the scores of their rows, nulls counting
    as zero, and the cell of a pair that shares no row holds zero. *)
Theorem chord_matrix_totals (raw : DataFrame) (sector pilar score : Series) :
  getitem raw "Macrosector" = Ok sector ->
  getitem raw "Nombre Pilar" = Ok pilar ->
  getitem raw "valoracionPonderada" = Ok score ->
  Forall (fun c => is_str c = false) score ->
  exists m,
    V3.chord_matrix raw = Ok m
    /\ (forall r c, r ∈ index m -> c ∈ mcolumns m ->
          exists q, cell_at m r c = Some (Num q))
    /\ (forall i r c,
          sector !! i = Some r -> pilar !! i = Some c -> r <> NaN -> c <> NaN ->
          r ∈ index m /\ c ∈ mcolumns m
          /\ cell_at m r c
             = Some (Num (Qc_sum (map num_value
                                      (group_values (zip sector pilar) score (r, c))))))
    /\ (forall r c, r ∈ index m -> c ∈ mcolumns m ->
          (forall i, ~ (sector !! i = Some r /\ pilar !! i = Some c)) ->
          cell_at m r c = Some (Num 0%Qc)).
Proof.
  intros Hsec Hpil Hsco Hnostr.
  set (total := fun l : Series => Num (Qc_sum (map num_value l))).
  set (es := map (fun k => (k, total (group_values (zip sector pilar) score k)))
                 (group_keys (zip sector pilar)) : list entry).
  assert (groupby2 agg_sum sector pilar score = Ok es) as Hlong.
  { apply (groupby2_total agg_sum total). intros k.
    by apply agg_sum_num_values, group_values_no_str. }
  assert (map fst es = group_keys (zip sector pilar)) as Hkeys.
  { unfold es. rewrite map_map. cbn [fst]. apply map_id. }
  assert (NoDup (map fst es)) as Hnd by (rewrite Hkeys; apply NoDup_group_keys).
  assert (forall r c v, (r, c, v) ∈ es <->
            (exists i, sector !! i = Some r /\ pilar !! i = Some c)
            /\ r <> NaN /\ c <> NaN
            /\ v = total (group_values (zip sector pilar) score (r, c))) as Hes.
  { intros r c v. unfold es. rewrite list_elem_of_fmap. split.
    - intros ([r' c'] & [= -> -> ->] & Hk).
      apply elem_of_group_keys in Hk as [Hk Hna]. apply elem_of_zip_lookup in Hk.
      cbn in Hna. apply andb_true_iff in Hna as [Hr Hc].
      split; [done|]. split; [by destruct r'|]. split; [by destruct c'|done].
    - intros (Hi & Hr & Hc & ->). exists (r, c). split; [done|].
      apply elem_of_group_keys. split; [by apply elem_of_zip_lookup|].
      cbn. by destruct r, c. }
  exists (fillna_matrix 0 (unstack es)). split.
  { unfold V3.chord_matrix. rewrite Hsec, Hpil, Hsco. result_simpl.
    rewrite Hlong. result_simpl. unfold pivot. by rewrite decide_True. }
  destruct (matrix_of_entries es sector pilar) as [Ha Hc].
  { intros r c v Hin. apply Hes in Hin as (Hi & _ & _ & ->). done. }
  split; [done|]. split; [|done].
  intros i r c Hr Hc' Hrn Hcn.
  change (Num (Qc_sum (map num_value (group_values (zip sector pilar) score (r, c)))))
    with (fill0 (total (group_values (zip sector pilar) score (r, c)))).
  apply matrix_entry; [done|]. apply Hes. eauto 10.
Qed.

Lemma chord_matrix_totals_witness :
  Forall (fun c => is_str c = false) scores1
  /\ exists m,
       V3.chord_matrix table1 = Ok m
       /\ cell_at m (Str "Industria") (Str "Agua")
          = Some (Num (Qc_sum (map num_value
                                   (group_values (zip sectors1 pilares1) scores1
                                      (Str "Industria", Str "Agua"))))).
Proof.
  split; [repeat constructor|].
  destruct (chord_matrix_totals table1 sectors1 pilares1 scores1)
    as (m & Hm & _ & Hcell & _); [reflexivity|reflexivity|reflexivity|repeat constructor|].
  exists m. split; [exact Hm|].
  destruct (Hcell 0%nat (Str "Industria") (Str "Agua")) as (_ & _ & Hc); done.
Defined.


(** * The bubble chart *)

Section Bubbles.
Context `{FloatParser}.
Local Open Scope Qc_scope.

Lemma to_numeric_coerce_cells (s : Series) :
  to_numeric ErrorsCoerce s = Ok (map coerce_cell s).
Proof.
  unfold to_numeric. apply mapM_total, Forall_forall. intros c _.
  destruct c as [|q|x]; try done. cbn [to_numeric_cell coerce_cell].
  by destruct (parse_float x).
Qed.





End Bubbles.

Section Bubbles2.
Context `{FloatParser}.
Local Open Scope Qc_scope.


Lemma coerce_cell_notna (c : cell) : coerce_cell c <> NaN <-> is_number c = true.
Proof.
  destruct c as [|q|s]; cbn [coerce_cell is_number]; try done.
  destruct (parse_float s) as [q|]; cbn [from_option].
  - split; [intros _|done]. apply bool_decide_eq_true. by eexists.
  - split; [done|]. intros Hs%bool_decide_eq_true. by destruct Hs.
Qed.

End Bubbles2.




(** * The rankings of v2 *)

Section Rankings.
Local Open Scope Qc_scope.

Lemma cell_leb_trans (a b c : cell) :
  cell_leb a b = true -> cell_leb b c = true -> cell_leb a c = true.
Proof. apply (cell_le_trans a b c). Qed.

Lemma cell_leb_total (a b : cell) : cell_leb a b = true \/ cell_leb b a = true.
Proof. apply (cell_le_total a b). Qed.

#[global] Instance value_le_trans ascending : Transitive (value_le ascending).
Proof.
  intros [k1 a] [k2 b] [k3 c]. unfold value_le. cbn [snd].
  destruct ascending, a as [|x|s], b as [|y|t], c as [|z|u];
    cbn [value_leb]; try done;
    eauto using cell_leb_trans.
Qed.

#[global] Instance value_le_total ascending : Total (value_le ascending).
Proof.
  intros [k1 a] [k2 b]. unfold value_le. cbn [snd].
  destruct ascending, a as [|x|s], b as [|y|t]; cbn [value_leb]; auto;
    apply cell_leb_total.
Qed.

Lemma groupby1_total (agg : Series -> result cell) (f : Series -> cell) (k vals : Series) :
  (forall key, agg (group_values k vals key) = Ok (f (group_values k vals key))) ->
  groupby1 agg k vals
  = Ok (map (fun key => (key, f (group_values k vals key))) (group_keys k)).
Proof.
  intros Hagg. unfold groupby1. apply mapM_total, Forall_forall.
  intros key _. by rewrite Hagg.
Qed.

Lemma comparable_no_str (vals : Series) :
  Forall (fun c => is_str c = false) vals -> comparable vals = true.
Proof.
  intros Hall. unfold comparable. apply orb_true_iff. left.
  apply forallb_forall. intros c Hc%list_elem_of_In.
  rewrite Forall_forall in Hall. by rewrite (Hall c Hc).
Qed.

(** What a ranking keeps of a sorted series. *)
Lemma head_of_sorted {A} (R : relation A) (n : nat) (l : list A) (x y : A) :
  StronglySorted R l -> x ∈ take n l -> y ∈ l -> y ∉ take n l -> R x y.
Proof.
  intros Hs Hx Hy Hout. rewrite <- (take_drop n l) in Hs, Hy.
  apply elem_of_app in Hy as [Hy|Hy]; [done|].
  by eapply StronglySorted_app_1_elem_of.
Qed.

Lemma elem_of_head {A} (n : nat) (l : list A) (x : A) : x ∈ take n l -> x ∈ l.
Proof. intros Hx. rewrite <- (take_drop n l). apply elem_of_app. by left. Qed.

Lemma take_sorted {A} (R : relation A) (n : nat) (l : list A) :
  StronglySorted R l -> StronglySorted R (take n l).
Proof.
  intros Hs. rewrite <- (take_drop n l) in Hs. by apply StronglySorted_app_1_l in Hs.
Qed.

Lemma NoDup_take_fst {A B} (n : nat) (l : list (A * B)) :
  NoDup (map fst l) -> NoDup (map fst (take n l)).
Proof.
  intros Hnd. rewrite <- (take_drop n l), map_app in Hnd.
  by apply NoDup_app in Hnd as [? _].
Qed.

(** The ranked totals, for either direction. *)
Lemma ranked_totals (ascending : bool) (names scores : Series) :
  Forall (fun c => is_str c = false) scores ->
  let total := fun k => Num (Qc_sum (map num_value (group_values names scores k))) in
  exists sorted,
    (totals ← groupby1 agg_sum names scores; sort_values_series ascending totals)
    = Ok sorted
    /\ sorted ≡ₚ map (fun k => (k, total k)) (group_keys names)
    /\ StronglySorted (value_le ascending) sorted.
Proof.
  intros Hnostr total.
  rewrite (groupby1_total agg_sum (fun l => Num (Qc_sum (map num_value l)))).
  2:{ intros key. by apply agg_sum_num_values, group_values_no_str. }
  result_simpl. unfold sort_values_series.
  rewrite comparable_no_str.
  2:{ rewrite map_map. apply Forall_fmap, Forall_forall. by intros k _. }
  eexists. split; [reflexivity|]. split.
  - apply merge_sort_Permutation.
  - apply StronglySorted_merge_sort; apply _.
Qed.

End Rankings.

Section Rankings2.
Local Open Scope Qc_scope.

Lemma ranked_head (ascending : bool) (names scores : Series) :
  Forall (fun c => is_str c = false) scores ->
  let total := fun k => Num (Qc_sum (map num_value (group_values names scores k))) in
  exists sorted,
    (totals ← groupby1 agg_sum names scores; sort_values_series ascending totals)
    = Ok sorted
    /\ length (head 10 sorted) = Nat.min 10 (length (group_keys names))
    /\ NoDup (map fst (head 10 sorted))
    /\ (forall k v, (k, v) ∈ head 10 sorted -> k ∈ group_keys names /\ v = total k)
    /\ StronglySorted (value_le ascending) (head 10 sorted)
    /\ (forall k, k ∈ group_keys names -> k ∉ map fst (head 10 sorted) ->
          forall r, r ∈ head 10 sorted -> value_le ascending r (k, total k)).
Proof.
  intros Hnostr total.
  destruct (ranked_totals ascending names scores Hnostr) as (sorted & Hrun & Hperm & Hs).
  fold total in Hperm.
  exists sorted. split; [done|]. unfold head.
  assert (forall k v, (k, v) ∈ sorted <-> k ∈ group_keys names /\ v = total k) as Hmem.
  { intros k v. rewrite Hperm, list_elem_of_fmap. split.
    - by intros (k' & [= -> ->] & ?).
    - intros [? ->]. by exists k. }
  assert (NoDup (map fst sorted)) as Hnd.
  { rewrite Hperm, map_map. cbn [fst]. rewrite map_id. apply NoDup_group_keys. }
  split; [|split; [|split; [|split]]].
  - rewrite length_take, Hperm, length_map. done.
  - by apply NoDup_take_fst.
  - intros k v Hin. apply Hmem. by eapply elem_of_head.
  - by apply take_sorted.
  - intros k Hk Hout r Hr. apply (head_of_sorted _ 10 sorted); [done|done| |].
    + by apply Hmem.
    + intros Hin. apply Hout. apply list_elem_of_fmap. by exists (k, total k).
Qed.

Lemma run_top10 (df : DataFrame) (names scores : Series) (sorted : list (cell * cell)) :
  getitem df "Razón social" = Ok names ->
  getitem df "valoracionPonderada" = Ok scores ->
  (totals ← groupby1 agg_sum names scores; sort_values_series false totals) = Ok sorted ->
  top10_company_performance df = Ok (head 10 sorted).
Proof.
  intros Hn Hs. unfold top10_company_performance. rewrite Hn, Hs. result_simpl.
  destruct (groupby1 agg_sum names scores); result_simpl; [|done].
  by intros ->.
Qed.

Lemma run_bottom10 (df : DataFrame) (names scores : Series) (sorted : list (cell * cell)) :
  getitem df "Razón social" = Ok names ->
  getitem df "valoracionPonderada" = Ok scores ->
  (totals ← groupby1 agg_sum names scores; sort_values_series true totals) = Ok sorted ->
  bottom10_company_performance df = Ok (head 10 sorted).
Proof.
  intros Hn Hs. unfold bottom10_company_performance. rewrite Hn, Hs. result_simpl.
  destruct (groupby1 agg_sum names scores); result_simpl; [|done].
  by intros ->.
Qed.

Lemma group_key_name (names : Series) (k : cell) :
  k ∈ group_keys names <-> k ∈ names /\ k <> NaN.
Proof.
  rewrite elem_of_group_keys. cbn [key_notna cell_GroupKey]. unfold notna.
  destruct k; cbn [isna negb]; split; intros [? ?]; split; done.
Qed.

End Rankings2.

(** X21: chart 9 of v2, on a score column without strings, shows at most
    ten companies, each once, with the sum of its scores (nulls counting as
    zero), in descending order of that total; every company it leaves out
    has a total that is at most the total of every company shown. With ten
    companies or fewer, all are shown. *)
Theorem top10_companies (df : DataFrame) (names scores : Series) :
  getitem df "Razón social" = Ok names ->
  getitem df "valoracionPonderada" = Ok scores ->
  Forall (fun c => is_str c = false) scores ->
  exists rows,
    top10_company_performance df = Ok rows
    /\ length rows = Nat.min 10 (length (group_keys names))
    /\ NoDup (map fst rows)
    /\ (forall k v, (k, v) ∈ rows ->
          k ∈ names /\ k <> NaN
          /\ v = Num (Qc_sum (map num_value (group_values names scores k))))
    /\ (forall i j k v k' v',
          rows !! i = Some (k, Num v) -> rows !! j = Some (k', Num v') -> (i < j)%nat ->
          (v' <= v)%Qc)
    /\ (forall k, k ∈ names -> k <> NaN -> k ∉ map fst rows ->
          forall k' v', (k', Num v') ∈ rows ->
            (Qc_sum (map num_value (group_values names scores k)) <= v')%Qc).
Proof.
  intros Hn Hs Hnostr.
  destruct (ranked_head false names scores Hnostr)
    as (sorted & Hrun & Hlen & Hnd & Hmem & Hsorted & Hout).
  exists (head 10 sorted). split; [by apply (run_top10 df names scores)|].
  split; [done|]. split; [done|]. split; [|split].
  - intros k v Hin. destruct (Hmem k v Hin) as [Hk ->].
    apply group_key_name in Hk as [? ?]. done.
  - intros i j k v k' v' Hi Hj Hlt.
    pose proof (sorted_lookup _ _ i j _ _ Hsorted Hi Hj Hlt) as Hle.
    unfold value_le in Hle. cbn in Hle. by apply Qc_leb_true in Hle.
  - intros k Hk Hna Hnotin k' v' Hin.
    assert (k ∈ group_keys names) as Hkey by by apply group_key_name.
    pose proof (Hout k Hkey Hnotin _ Hin) as Hle.
    unfold value_le in Hle. cbn in Hle. by apply Qc_leb_true in Hle.
Qed.

(** X22: chart 10 of v2, on a score column without strings, shows at most
    ten companies, each once, with the sum of its scores, in ascending order
    of that total; every company it leaves out has a total that is at least
    the total of every company shown. *)
Theorem bottom10_companies (df : DataFrame) (names scores : Series) :
  getitem df "Razón social" = Ok names ->
  getitem df "valoracionPonderada" = Ok scores ->
  Forall (fun c => is_str c = false) scores ->
  exists rows,
    bottom10_company_performance df = Ok rows
    /\ length rows = Nat.min 10 (length (group_keys names))
    /\ NoDup (map fst rows)
    /\ (forall k v, (k, v) ∈ rows ->
          k ∈ names /\ k <> NaN
          /\ v = Num (Qc_sum (map num_value (group_values names scores k))))
    /\ (forall i j k v k' v',
          rows !! i = Some (k, Num v) -> rows !! j = Some (k', Num v') -> (i < j)%nat ->
          (v <= v')%Qc)
    /\ (forall k, k ∈ names -> k <> NaN -> k ∉ map fst rows ->
          forall k' v', (k', Num v') ∈ rows ->
            (v' <= Qc_sum (map num_value (group_values names scores k)))%Qc).
Proof.
  intros Hn Hs Hnostr.
  destruct (ranked_head true names scores Hnostr)
    as (sorted & Hrun & Hlen & Hnd & Hmem & Hsorted & Hout).
  exists (head 10 sorted). split; [by apply (run_bottom10 df names scores)|].
  split; [done|]. split; [done|]. split; [|split].
  - intros k v Hin. destruct (Hmem k v Hin) as [Hk ->].
    apply group_key_name in Hk as [? ?]. done.
  - intros i j k v k' v' Hi Hj Hlt.
    pose proof (sorted_lookup _ _ i j _ _ Hsorted Hi Hj Hlt) as Hle.
    unfold value_le in Hle. cbn in Hle. by apply Qc_leb_true in Hle.
  - intros k Hk Hna Hnotin k' v' Hin.
    assert (k ∈ group_keys names) as Hkey by by apply group_key_name.
    pose proof (Hout k Hkey Hnotin _ Hin) as Hle.
    unfold value_le in Hle. cbn in Hle. by apply Qc_leb_true in Hle.
Qed.

Lemma top10_companies_witness :
  exists rows,
    top10_company_performance table1 = Ok rows
    /\ length rows = 2%nat.
Proof.
  destruct (top10_companies table1 names1 scores1) as (rows & Hrun & Hlen & _);
    [reflexivity|reflexivity|repeat constructor|].
  exists rows. split; [exact Hrun|]. rewrite Hlen. reflexivity.
Defined.

Lemma bottom10_companies_witness :
  exists rows,
    bottom10_company_performance table1 = Ok rows
    /\ length rows = 2%nat.
Proof.
  destruct (bottom10_companies table1 names1 scores1) as (rows & Hrun & Hlen & _);
    [reflexivity|reflexivity|repeat constructor|].
  exists rows. split; [exact Hrun|]. rewrite Hlen. reflexivity.
Defined.

(** X23: the rankings of charts 2 and 14 of v2 (mean score by pillar, by
    sector), on a score column without strings, have one row for each label
    that is not null, holding the mean of the scores of the label that are
    not null. The rows come in descending order of the mean, and a label
    without any score, whose mean is null, comes after all the others. *)
Theorem mean_ranking_order (label : string) (df : DataFrame) (labels scores : Series) :
  getitem df label = Ok labels ->
  getitem df "valoracionPonderada" = Ok scores ->
  Forall (fun c => is_str c = false) scores ->
  exists rows,
    mean_ranking label df = Ok rows
    /\ map fst rows ≡ₚ group_keys labels
    /\ (forall k v, (k, v) ∈ rows -> v = mean_cell (group_values labels scores k))
    /\ (forall i j k c k' v',
          rows !! i = Some (k, c) -> rows !! j = Some (k', Num v') -> (i < j)%nat ->
          exists v, c = Num v /\ (v' <= v)%Qc).
Proof.
  intros Hl Hs Hnostr. unfold mean_ranking. rewrite Hl, Hs. result_simpl.
  rewrite (groupby1_total agg_mean mean_cell).
  2:{ intros key. by apply agg_mean_no_str, group_values_no_str. }
  result_simpl. unfold sort_values_series.
  rewrite comparable_no_str.
  2:{ rewrite map_map. apply Forall_fmap, Forall_forall. intros k _.
      apply is_str_mean_cell. }
  eexists. split; [reflexivity|].
  set (means := map (fun key => (key, mean_cell (group_values labels scores key)))
                    (group_keys labels)).
  split; [|split].
  - rewrite merge_sort_Permutation. unfold means. rewrite map_map. cbn [fst].
    by rewrite map_id.
  - intros k v Hin. rewrite merge_sort_Permutation in Hin.
    by apply list_elem_of_fmap in Hin as (k' & [= -> ->] & _).
  - intros i j k c k' v' Hi Hj Hlt.
    assert (StronglySorted (value_le false) (merge_sort (value_le false) means)) as Hsorted
      by (apply StronglySorted_merge_sort; apply _).
    pose proof (sorted_lookup _ _ i j _ _ Hsorted Hi Hj Hlt) as Hle.
    assert ((k, c) ∈ means) as Hin.
    { rewrite <- (merge_sort_Permutation (value_le false) means).
      by eapply list_elem_of_lookup_2. }
    apply list_elem_of_fmap in Hin as (k0 & [= -> Hc] & _).
    pose proof (is_str_mean_cell (group_values labels scores k0)) as Hstr.
    rewrite <- Hc in Hstr.
    unfold value_le in Hle. cbn [snd] in Hle.
    destruct c as [|v|s]; [done| |done].
    exists v. split; [done|]. cbn in Hle. by apply Qc_leb_true in Hle.
Qed.

Lemma mean_ranking_order_witness :
  exists rows,
    performance_by_pillar table1 = Ok rows
    /\ map fst rows ≡ₚ group_keys pilares1.
Proof.
  destruct (mean_ranking_order "Nombre Pilar" table1 pilares1 scores1)
    as (rows & Hrun & Hperm & _); [reflexivity|reflexivity|repeat constructor|].
  exists rows. split; [exact Hrun|exact Hperm].
Defined.


(** * Joins with the company table *)

Section Joins.

Lemma filter_by_name (companies : list company) (k : cell) :
  NoDup (map razon_social companies) ->
  filter (fun c => razon_social c = k) companies = []
  \/ exists c, filter (fun c => razon_social c = k) companies = [c]
               /\ c ∈ companies /\ razon_social c = k.
Proof.
  induction companies as [|c cs IH]; intros Hnd; [by left|].
  cbn [map] in Hnd. apply NoDup_cons in Hnd as [Hc Hnd]. rewrite filter_cons.
  destruct (decide (razon_social c = k)) as [Hk|Hk].
  - right. exists c. split; [|split; [apply list_elem_of_here|done]].
    f_equal. apply filter_none. intros c' Hc' Heq. apply Hc.
    apply list_elem_of_fmap. exists c'. split; [congruence|done].
  - destruct (IH Hnd) as [Hnone|(c' & Hone & Hin & Hname)]; [by left|].
    right. exists c'. split; [done|]. split; [by apply list_elem_of_further|done].
Qed.

Lemma filter_nil_not_in (companies : list company) (k : cell) :
  filter (fun c => razon_social c = k) companies = [] ->
  k ∉ map razon_social companies.
Proof.
  intros Hnone Hin. apply list_elem_of_fmap in Hin as (c & -> & Hc).
  assert (c ∈ filter (fun c' => razon_social c' = razon_social c) companies) as Hf
    by (by apply list_elem_of_filter).
  rewrite Hnone in Hf. by apply elem_of_nil in Hf.
Qed.

Lemma merge_left_rows (left : list (cell * Series)) (right : list company) :
  NoDup (map razon_social right) ->
  map profile_company (merge_left left right) = map fst left
  /\ forall p, p ∈ merge_left left right ->
       (exists c, c ∈ right /\ razon_social c = profile_company p
                  /\ profile_macrosector p = macrosector c
                  /\ profile_total p = puntaje_total c)
       \/ ((profile_company p ∉ map razon_social right)
           /\ profile_macrosector p = NaN /\ profile_total p = NaN).
Proof.
  intros Hnd. induction left as [|l left [IH1 IH2]]; [split; [done|]|].
  { intros p Hp. by apply elem_of_nil in Hp. }
  unfold merge_left. cbn [flat_map]. fold (merge_left left right).
  destruct (filter_by_name right (fst l) Hnd) as [Hnone|(c & Hone & Hin & Hname)].
  - rewrite Hnone. split; [cbn; by rewrite IH1|].
    intros p Hp. cbn in Hp. apply elem_of_cons in Hp as [->|Hp]; [|by apply IH2].
    right. cbn. split; [by apply filter_nil_not_in|done].
  - rewrite Hone. split; [cbn; by rewrite IH1|].
    intros p Hp. cbn in Hp. apply elem_of_cons in Hp as [->|Hp]; [|by apply IH2].
    left. exists c. cbn. done.
Qed.

Lemma fst_zip_same {A B} (l : list A) (k : list B) :
  length l = length k -> map fst (zip l k) = l.
Proof.
  revert k. induction l as [|a l IH]; intros [|b k] Hlen; try done.
  cbn. f_equal. apply IH. by injection Hlen.
Qed.

End Joins.

(** X24: chart 6 of v3, on a score column without strings, has one row for
    each company (a name that is not null) with a dataset row whose pillar is
    not null. The sector and the total of a row are those of the company in
    the company table of chart 4; a company that is not in that table, as
    its income is not above zero, stays in chart 6 with a null sector and a
    null total. *)
Theorem parallel_coordinates_rows (raw : DataFrame) (names pilar score : Series)
    (company_agg_data : list company) :
  getitem raw "Razón social" = Ok names ->
  getitem raw "Nombre Pilar" = Ok pilar ->
  getitem raw "valoracionPonderada" = Ok score ->
  Forall (fun c => is_str c = false) score ->
  NoDup (map razon_social company_agg_data) ->
  exists rows,
    parallel_coords_df raw company_agg_data = Ok rows
    /\ NoDup (map profile_company rows)
    /\ (forall k, k ∈ map profile_company rows <->
          k <> NaN
          /\ exists i c, names !! i = Some k /\ pilar !! i = Some c /\ c <> NaN)
    /\ (forall p, p ∈ rows ->
          (exists c, c ∈ company_agg_data /\ razon_social c = profile_company p
                     /\ profile_macrosector p = macrosector c
                     /\ profile_total p = puntaje_total c)
          \/ ((profile_company p ∉ map razon_social company_agg_data)
              /\ profile_macrosector p = NaN /\ profile_total p = NaN)).
Proof.
  intros Hn Hp Hs Hnostr Hnd.
  set (total := fun l : Series => Num (Qc_sum (map num_value l))).
  set (es := map (fun k => (k, total (group_values (zip names pilar) score k)))
                 (group_keys (zip names pilar)) : list entry).
  assert (groupby2 agg_sum names pilar score = Ok es) as Hlong.
  { apply (groupby2_total agg_sum total). intros k.
    by apply agg_sum_num_values, group_values_no_str. }
  assert (map fst es = group_keys (zip names pilar)) as Hkeys.
  { unfold es. rewrite map_map. cbn [fst]. apply map_id. }
  assert (NoDup (map fst es)) as Hndes by (rewrite Hkeys; apply NoDup_group_keys).
  set (wide := fillna_matrix 0 (unstack es)).
  destruct (unstack_shape es) as (Hlen & _ & Hndi & _).
  destruct (merge_left_rows (zip (index wide) (data wide)) company_agg_data Hnd)
    as [Hcomp Hrows].
  rewrite fst_zip_same in Hcomp by done.
  exists (merge_left (zip (index wide) (data wide)) company_agg_data). split.
  { unfold parallel_coords_df. rewrite Hn, Hp, Hs. result_simpl.
    rewrite Hlong. result_simpl. unfold pivot. by rewrite decide_True. }
  split; [by rewrite Hcomp|]. split; [|done].
  intros k. rewrite Hcomp. unfold wide. rewrite index_unstack.
  rewrite list_elem_of_fmap. split.
  - intros ([[r c] v] & -> & He).
    assert ((r, c) ∈ group_keys (zip names pilar)) as Hk.
    { rewrite <- Hkeys. apply list_elem_of_fmap. by exists (r, c, v). }
    apply elem_of_group_keys in Hk as [Hk Hna]. apply elem_of_zip_lookup in Hk as (i & ? & ?).
    cbn in Hna. apply andb_true_iff in Hna as [Hr Hc].
    cbn. split; [by destruct r|]. exists i, c. split; [done|]. split; [done|by destruct c].
  - intros (Hk & i & c & Hi1 & Hi2 & Hc).
    exists (k, c, total (group_values (zip names pilar) score (k, c))). split; [done|].
    unfold es. apply list_elem_of_fmap. exists (k, c). split; [done|].
    apply elem_of_group_keys. split; [apply elem_of_zip_lookup; eauto|].
    cbn. by destruct k, c.
Qed.

Lemma parallel_coordinates_rows_witness :
  exists rows,
    parallel_coords_df table1 company_rows1 = Ok rows
    /\ NoDup (map profile_company rows).
Proof.
  destruct (parallel_coordinates_rows table1 names1 pilares1 scores1 company_rows1)
    as (rows & Hrun & Hnd & _);
    [reflexivity|reflexivity|reflexivity|repeat constructor| |].
  - apply NoDup_cons. split; [|apply NoDup_singleton].
    intros Hin. apply list_elem_of_singleton in Hin. discriminate.
  - exists rows. split; [exact Hrun|exact Hnd].
Defined.

Section Attributes.

Lemma elem_of_merge_on_name (left : list company) (right : list (cell * cell))
    (c : company) (v : cell) :
  (c, v) ∈ merge_on_name left right <-> c ∈ left /\ (razon_social c, v) ∈ right.
Proof.
  unfold merge_on_name. rewrite list_elem_of_In, in_flat_map. split.
  - intros (c' & Hc' & Hin). apply list_elem_of_In in Hc', Hin.
    apply list_elem_of_fmap in Hin as ([k v'] & [= -> ->] & Hp).
    apply list_elem_of_filter in Hp as [Hk Hp]. cbn in Hk. subst k. done.
  - intros [Hc Hp]. exists c. split; [by apply list_elem_of_In|].
    apply list_elem_of_In, list_elem_of_fmap. exists (razon_social c, v).
    split; [done|]. by apply list_elem_of_filter.
Qed.

Lemma NoDup_merge_on_name (left : list company) (right : list (cell * cell)) :
  NoDup left -> NoDup right -> NoDup (merge_on_name left right).
Proof.
  intros Hl Hr. unfold merge_on_name.
  induction Hl as [|c left Hc Hl IH]; [constructor|].
  cbn [flat_map]. apply NoDup_app. split; [|split; [|done]].
  - apply NoDup_fmap_2_strong.
    + intros [k1 v1] [k2 v2] H1 H2 [= Hv].
      apply list_elem_of_filter in H1 as [H1 _], H2 as [H2 _]. cbn in *. congruence.
    + by apply NoDup_filter.
  - intros [c' v] Hin Hin'.
    apply list_elem_of_fmap in Hin as (p & [= -> _] & _).
    apply list_elem_of_In, in_flat_map in Hin' as (c'' & Hc'' & Hin').
    apply list_elem_of_In in Hc'', Hin'.
    apply list_elem_of_fmap in Hin' as (p' & [= ->] & _). done.
Qed.

Lemma NoDup_by_name (companies : list company) :
  NoDup (map razon_social companies) -> NoDup companies.
Proof. apply NoDup_fmap_1. Qed.

Lemma attribute_rows (column : string) (raw : DataFrame) (names attribute : Series)
    (companies : list company) :
  getitem raw "Razón social" = Ok names ->
  getitem raw column = Ok attribute ->
  NoDup (map razon_social companies) ->
  exists rows,
    (pairs ← attribute_data column raw;
     mret (filter (fun r => snd r <> NaN) (merge_on_name companies pairs))) = Ok rows
    /\ NoDup rows
    /\ (forall c v, (c, v) ∈ rows <->
          c ∈ companies /\ v <> NaN
          /\ exists i, names !! i = Some (razon_social c) /\ attribute !! i = Some v).
Proof.
  intros Hn Ha Hnd. unfold attribute_data.
  destruct (decide (column = "Razón social")) as [->|Hne].
  - rewrite Hn in Ha. injection Ha as <-. rewrite Hn. result_simpl.
    eexists. split; [reflexivity|]. split.
    + apply NoDup_filter, NoDup_merge_on_name; [by apply NoDup_by_name|].
      apply NoDup_unique.
    + intros c v. rewrite list_elem_of_filter, elem_of_merge_on_name.
      unfold drop_duplicates. rewrite elem_of_unique, elem_of_zip_lookup. cbn [snd].
      tauto.
  - rewrite Hn, Ha. result_simpl.
    eexists. split; [reflexivity|]. split.
    + apply NoDup_filter, NoDup_merge_on_name; [by apply NoDup_by_name|].
      apply NoDup_unique.
    + intros c v. rewrite list_elem_of_filter, elem_of_merge_on_name.
      unfold drop_duplicates. rewrite elem_of_unique, elem_of_zip_lookup. cbn [snd].
      tauto.
Qed.

End Attributes.

(** X25: in the tables of charts 11 and 12 of v3 (the company table joined
    with the property type, with the multinational flag), a company of the
    company table has one row for each distinct value of the attribute among
    its dataset rows that is not null: none when all are null, several when
    its rows disagree. No row is repeated, and a company that is not in the
    company table has no row. *)
Theorem attribute_tables (raw : DataFrame) (names property multinational : Series)
    (company_agg_data : list company) :
  getitem raw "Razón social" = Ok names ->
  getitem raw "Tipo de propiedad (Privada, Pública, Mixta)" = Ok property ->
  getitem raw "¿Multinacional? Si/No" = Ok multinational ->
  NoDup (map razon_social company_agg_data) ->
  (exists rows,
      boxplot_data company_agg_data raw = Ok rows
      /\ NoDup rows
      /\ (forall c v, (c, v) ∈ rows <->
            c ∈ company_agg_data /\ v <> NaN
            /\ exists i, names !! i = Some (razon_social c) /\ property !! i = Some v))
  /\ (exists rows,
        density_data company_agg_data raw = Ok rows
        /\ NoDup rows
        /\ (forall c v, (c, v) ∈ rows <->
              c ∈ company_agg_data /\ v <> NaN
              /\ exists i, names !! i = Some (razon_social c)
                           /\ multinational !! i = Some v)).
Proof.
  intros Hn Hp Hm Hnd. split.
  - by apply (attribute_rows _ raw names property).
  - by apply (attribute_rows _ raw names multinational).
Qed.

Lemma attribute_tables_witness :
  exists rows,
    boxplot_data company_rows1 table_attributes = Ok rows
    /\ NoDup rows.
Proof.
  destruct (attribute_tables table_attributes
              [Str "Alfa"; Str "Alfa"; Str "Delta"]
              [Str "Privada"; Str "Mixta"; NaN]
              [Str "Si"; Str "Si"; Str "No"] company_rows1)
    as [(rows & Hrun & Hnd & _) _]; [reflexivity|reflexivity|reflexivity| |].
  - apply NoDup_cons. split; [|apply NoDup_singleton].
    intros Hin. apply list_elem_of_singleton in Hin. discriminate.
  - exists rows. split; [exact Hrun|exact Hnd].
Defined.


(** * The rows of the sunburst chart *)

Section Sunburst.

Lemma zip_with_andb_map {A} (f g : A -> bool) (l : list A) :
  zip_with andb (map f l) (map g l) = map (fun x => f x && g x) l.
Proof. induction l as [|x l IH]; [done|]. cbn. by rewrite IH. Qed.

Lemma select_rows_map (df : DataFrame) (g : list cell -> bool) :
  select_rows df (map g (values df))
  = mkDataFrame (columns df) (filter (fun row => g row = true) (values df)).
Proof. unfold select_rows. by rewrite mask_filter. Qed.

Lemma getitem_index (df : DataFrame) (c : string) (i : nat) :
  col_index c (columns df) = Some i -> getitem df c = Ok (map (cell_of i) (values df)).
Proof. intros Hi. unfold getitem. by rewrite Hi. Qed.

Lemma mapM_gt_zero (l : Series) :
  Forall (fun c => is_str c = false) l ->
  mapM gt_zero l = Ok (map (fun c => bool_decide (positive c)) l).
Proof.
  intros Hall. apply mapM_total. eapply Forall_impl; [exact Hall|].
  intros [|q|s] Hc; done.
Qed.

Lemma mapM_gt_zero_str (l : Series) :
  Exists (fun c => is_str c = true) l -> mapM gt_zero l = Raise TypeError.
Proof.
  induction 1 as [c l Hc|c l _ IH]; cbn [mapM].
  - by destruct c.
  - destruct (gt_zero c) as [b|e] eqn:Hb; cbn.
    + by rewrite IH.
    + destruct c; cbn in Hb; congruence.
Qed.

End Sunburst.

(** X26: chart 8 of v3 keeps, in their order, exactly the rows of the table
    whose block and pillar are not null and whose score is a number above
    zero, provided that the score column holds no string, as after the
    coercion of chart 4. A string among the scores of the rows with a block
    and a pillar makes it raise TypeError. *)
Theorem sunburst_rows (raw : DataFrame) (b p s : nat) :
  col_index "Bloque" (columns raw) = Some b ->
  col_index "Nombre Pilar" (columns raw) = Some p ->
  col_index "valoracionPonderada" (columns raw) = Some s ->
  let with_labels :=
    filter (fun row => notna (cell_of b row) && notna (cell_of p row) = true)
           (values raw) in
  (Forall (fun row => is_str (cell_of s row) = false) with_labels ->
   sunburst_data raw
   = Ok (mkDataFrame (columns raw)
           (filter (fun row => cell_of b row <> NaN /\ cell_of p row <> NaN
                               /\ positive (cell_of s row))
                   (values raw))))
  /\ (Exists (fun row => is_str (cell_of s row) = true) with_labels ->
      sunburst_data raw = Raise TypeError).
Proof.
  intros Hb Hp Hs with_labels.
  assert (dropna_subset2 raw "Bloque" "Nombre Pilar"
          = Ok (mkDataFrame (columns raw) with_labels)) as Hkept.
  { unfold dropna_subset2.
    rewrite (getitem_index raw "Bloque" b Hb), (getitem_index raw "Nombre Pilar" p Hp).
    result_simpl. rewrite !map_map, zip_with_andb_map.
    by rewrite (select_rows_map raw (fun row => notna (cell_of b row) && notna (cell_of p row))). }
  assert (getitem (mkDataFrame (columns raw) with_labels) "valoracionPonderada"
          = Ok (map (cell_of s) with_labels)) as Hscore.
  { by apply getitem_index. }
  split.
  - intros Hnostr. unfold sunburst_data. rewrite Hkept. result_simpl.
    rewrite Hscore. result_simpl.
    rewrite mapM_gt_zero by by apply Forall_fmap.
    result_simpl. rewrite map_map.
    rewrite (select_rows_map (mkDataFrame (columns raw) with_labels)
               (fun row => bool_decide (positive (cell_of s row)))).
    cbn [columns values]. f_equal. f_equal. unfold with_labels.
    rewrite list_filter_filter. apply list_filter_iff. intros row.
    rewrite bool_decide_eq_true, andb_true_iff. unfold notna.
    destruct (cell_of b row), (cell_of p row); cbn [isna negb andb]; split;
      try (by intros [? [? ?]]); try (by intros [? ?]).
  - intros Hstr. unfold sunburst_data. rewrite Hkept. result_simpl.
    rewrite Hscore. result_simpl.
    rewrite mapM_gt_zero_str; [done|]. by apply Exists_fmap.
Qed.

Lemma sunburst_rows_witness :
  sunburst_data table1
  = Ok (mkDataFrame (columns table1)
          (filter (fun row => cell_of 2 row <> NaN /\ cell_of 3 row <> NaN
                              /\ positive (cell_of 5 row))
                  (values table1))).
Proof.
  destruct (sunburst_rows table1 2 3 5) as [Hrows _];
    [reflexivity|reflexivity|reflexivity|].
  apply Hrows. repeat constructor.
Defined.


(** * One row for each company *)

Section Firsts.
Context {A : Type} (key : A -> cell).

Lemma firsts_ext (rows : list A) : forall seen seen',
  (forall k, k ∈ seen <-> k ∈ seen') ->
  firsts_from key seen rows = firsts_from key seen' rows.
Proof.
  induction rows as [|r rows IH]; intros seen seen' Hsame; [done|].
  cbn [firsts_from].
  destruct (decide (key r ∈ seen)) as [Hin|Hout].
  - rewrite decide_True by by apply Hsame. by apply IH.
  - rewrite decide_False by (by rewrite <- Hsame). f_equal. apply IH.
    intros k. rewrite !elem_of_cons, Hsame. done.
Qed.

Lemma select_firsts (rows : list A) : forall seen,
  map fst (filter (fun p => snd p = true)
             (zip rows (map negb (duplicated_from seen (map key rows)))))
  = firsts_from key seen rows.
Proof.
  induction rows as [|r rows IH]; intros seen; [done|].
  cbn [map duplicated_from zip zip_with firsts_from]. rewrite filter_cons. cbn [snd].
  destruct (decide (key r ∈ seen)) as [Hin|Hout].
  - rewrite bool_decide_eq_true_2 by done. cbn [negb].
    rewrite decide_False by done. rewrite IH. apply firsts_ext.
    intros k. rewrite elem_of_cons. split; [intros [->|?]; done|by right].
  - rewrite bool_decide_eq_false_2 by done. cbn [negb].
    rewrite decide_True by done. cbn [map fst]. f_equal. apply IH.
Qed.

Lemma keys_firsts (rows : list A) : forall seen,
  map key (firsts_from key seen rows) = unique_from seen (map key rows).
Proof.
  induction rows as [|r rows IH]; intros seen; [done|].
  cbn [map firsts_from unique_from].
  destruct (decide (key r ∈ seen)); [apply IH|]. cbn [map]. f_equal. apply IH.
Qed.

Lemma firsts_split (rows : list A) : forall seen r,
  r ∈ firsts_from key seen rows ->
  exists before after,
    rows = before ++ r :: after
    /\ forall r', r' ∈ before -> key r' <> key r.
Proof.
  induction rows as [|r0 rows IH]; intros seen r Hr; [by apply elem_of_nil in Hr|].
  cbn [firsts_from] in Hr.
  destruct (decide (key r0 ∈ seen)) as [Hin|Hout].
  - destruct (IH seen r Hr) as (before & after & -> & Hbefore).
    assert (key r ∉ seen) as Hnew.
    { assert (key r ∈ map key (firsts_from key seen (before ++ r :: after))) as Hk
        by (apply list_elem_of_fmap; by exists r).
      rewrite keys_firsts in Hk. by apply elem_of_unique_from in Hk as [_ ?]. }
    exists (r0 :: before), after. split; [done|].
    intros r' Hr'. apply elem_of_cons in Hr' as [->|Hr']; [|by apply Hbefore].
    intros Heq. by rewrite Heq in Hin.
  - apply elem_of_cons in Hr as [->|Hr].
    + exists [], rows. split; [done|]. intros r' Hr'. by apply elem_of_nil in Hr'.
    + destruct (IH (key r0 :: seen) r Hr) as (before & after & -> & Hbefore).
      assert (key r ∉ key r0 :: seen) as Hnew.
      { assert (key r ∈ map key (firsts_from key (key r0 :: seen) (before ++ r :: after)))
          as Hk by (apply list_elem_of_fmap; by exists r).
        rewrite keys_firsts in Hk. by apply elem_of_unique_from in Hk as [_ ?]. }
      exists (r0 :: before), after. split; [done|].
      intros r' Hr'. apply elem_of_cons in Hr' as [->|Hr']; [|by apply Hbefore].
      intros Heq. apply Hnew. rewrite Heq. apply list_elem_of_here.
Qed.

Lemma filter_split (P : A -> Prop) `{forall x, Decision (P x)} (rows : list A) :
  forall before r after,
    filter P rows = before ++ r :: after ->
    exists before' after',
      rows = before' ++ r :: after' /\ filter P before' = before /\ P r.
Proof.
  induction rows as [|r0 rows IH]; intros before r after Heq.
  - by destruct before.
  - rewrite filter_cons in Heq. destruct (decide (P r0)) as [Hp|Hp].
    + destruct before as [|b before]; cbn in Heq; injection Heq as -> Heq.
      * exists [], rows. done.
      * destruct (IH _ _ _ Heq) as (before' & after' & -> & Hf & Hr).
        exists (b :: before'), after'. split; [done|]. split; [|done].
        rewrite filter_cons, decide_True by done. by rewrite Hf.
    + destruct (IH _ _ _ Heq) as (before' & after' & -> & Hf & Hr).
      exists (r0 :: before'), after'. split; [done|]. split; [|done].
      by rewrite filter_cons, decide_False.
Qed.

End Firsts.

Section UniqueCompanies.
Context `{FloatParser}.

Lemma setitem_rows (df : DataFrame) (c : string) (i : nat) (f : cell -> cell) :
  col_index c (columns df) = Some i ->
  setitem df c (map f (map (cell_of i) (values df)))
  = mkDataFrame (columns df)
      (map (fun row => <[i := f (cell_of i row)]> row) (values df)).
Proof.
  intros Hi. unfold setitem. rewrite Hi. f_equal.
  induction (values df) as [|row rows IH]; [done|]. cbn. by rewrite IH.
Qed.

Lemma unique_companies_run (df : DataFrame) (n y : nat) :
  rectangular df ->
  col_index "Razón social" (columns df) = Some n ->
  col_index "Año de fundación" (columns df) = Some y ->
  unique_companies df
  = Ok (mkDataFrame (columns df)
          (firsts_from (cell_of n) []
             (filter (fun row => cell_of y row <> NaN)
                (map (fun row => <[y := coerce_cell (cell_of y row)]> row)
                     (values df))))).
Proof.
  intros Hrect Hn Hy. unfold unique_companies.
  rewrite (getitem_index df _ y Hy). result_simpl.
  rewrite to_numeric_coerce_cells. result_simpl.
  rewrite (setitem_rows df _ y coerce_cell Hy).
  set (rows := map (fun row => <[y := coerce_cell (cell_of y row)]> row) (values df)).
  rewrite (getitem_index (mkDataFrame (columns df) rows) _ y Hy). result_simpl.
  cbn [values]. rewrite map_map.
  pose proof (select_rows_map (mkDataFrame (columns df) rows)
                (fun row => notna (cell_of y row))) as Hsel.
  cbn [columns values] in Hsel. rewrite Hsel. clear Hsel.
  rewrite (list_filter_iff _ (fun row => cell_of y row <> NaN)).
  2:{ intros row. unfold notna. by destruct (cell_of y row). }
  set (kept := filter (fun row => cell_of y row <> NaN) rows).
  rewrite (getitem_index (mkDataFrame (columns df) kept) _ n Hn). result_simpl.
  cbn [values]. unfold select_rows, duplicated. cbn [columns values].
  by rewrite select_firsts.
Qed.

End UniqueCompanies.

(** X27: the table of chart 11 of v2 has at most one row for each company
    name, the null name included, and every row of it has a numeric founding
    year. It has a row for exactly the names that have a dataset row with a
    numeric founding year, and that row is the first such row of the name:
    the rows of the same name that come before it have no numeric year. *)
Theorem unique_companies_rows `{FloatParser} (df : DataFrame) (n y : nat) :
  rectangular df ->
  col_index "Razón social" (columns df) = Some n ->
  col_index "Año de fundación" (columns df) = Some y ->
  exists t,
    unique_companies df = Ok t
    /\ columns t = columns df
    /\ NoDup (map (cell_of n) (values t))
    /\ (forall row, row ∈ values t -> exists q, cell_of y row = Num q)
    /\ (forall k, k ∈ map (cell_of n) (values t) <->
          exists row, row ∈ values df /\ cell_of n row = k
                      /\ is_number (cell_of y row) = true)
    /\ (forall row, row ∈ values t ->
          exists before row0 after,
            values df = before ++ row0 :: after
            /\ row = <[y := coerce_cell (cell_of y row0)]> row0
            /\ forall r, r ∈ before -> cell_of n r = cell_of n row0 ->
                         is_number (cell_of y r) = false).
Proof.
  intros Hrect Hn Hy.
  assert (n <> y) as Hny.
  { intros ->. by pose proof (col_index_inj _ _ _ _ Hn Hy). }
  assert (forall row, row ∈ values df -> (y < length row)%nat) as Hlen.
  { intros row Hrow. unfold rectangular in Hrect. rewrite Forall_forall in Hrect.
    rewrite (Hrect row Hrow). by eapply col_index_lt. }
  set (fix_year := fun row : list cell => <[y := coerce_cell (cell_of y row)]> row).
  assert (forall row, row ∈ values df ->
            cell_of y (fix_year row) = coerce_cell (cell_of y row)
            /\ cell_of n (fix_year row) = cell_of n row) as Hfix.
  { intros row Hrow. unfold fix_year. split.
    - apply cell_of_insert. by apply Hlen.
    - by apply cell_of_insert_ne. }
  set (rows := map fix_year (values df)).
  set (kept := filter (fun row => cell_of y row <> NaN) rows).
  exists (mkDataFrame (columns df) (firsts_from (cell_of n) [] kept)).
  split; [by apply unique_companies_run|]. split; [done|]. cbn [values].
  assert (forall row, row ∈ firsts_from (cell_of n) [] kept -> row ∈ kept) as Hsub.
  { intros row Hrow.
    destruct (firsts_split (cell_of n) kept [] row Hrow) as (b & a & -> & _).
    apply elem_of_app. right. apply list_elem_of_here. }
  assert (forall row, row ∈ kept <->
            exists row0, row0 ∈ values df /\ row = fix_year row0
                         /\ is_number (cell_of y row0) = true) as Hkept.
  { intros row. unfold kept, rows. rewrite list_elem_of_filter, list_elem_of_fmap. split.
    - intros (Hyear & row0 & -> & Hrow0). exists row0. split; [done|]. split; [done|].
      rewrite (proj1 (Hfix row0 Hrow0)) in Hyear. by apply coerce_cell_notna.
    - intros (row0 & Hrow0 & -> & Hnum). split; [|by exists row0].
      rewrite (proj1 (Hfix row0 Hrow0)). by apply coerce_cell_notna. }
  split; [|split; [|split]].
  - rewrite keys_firsts. apply NoDup_unique_from.
  - intros row Hrow. apply Hsub, Hkept in Hrow as (row0 & Hrow0 & -> & Hnum).
    rewrite (proj1 (Hfix row0 Hrow0)).
    destruct (cell_of y row0) as [|q|s]; [done|by exists q|].
    cbn [coerce_cell is_number] in *. apply bool_decide_eq_true in Hnum as [q Hq].
    rewrite Hq. by exists q.
  - intros k. rewrite keys_firsts.
    change (unique_from [] (map (cell_of n) kept)) with (unique (map (cell_of n) kept)).
    rewrite elem_of_unique, list_elem_of_fmap. split.
    + intros (row & -> & Hrow). apply Hkept in Hrow as (row0 & Hrow0 & -> & Hnum).
      exists row0. split; [done|]. split; [|done]. symmetry. by apply Hfix.
    + intros (row0 & Hrow0 & <- & Hnum). exists (fix_year row0).
      split; [symmetry; by apply Hfix|]. apply Hkept. by exists row0.
  - intros row Hrow.
    destruct (firsts_split (cell_of n) kept [] row Hrow) as (b & a & Heq & Hbefore).
    destruct (filter_split (fun row => cell_of y row <> NaN) rows b row a Heq)
      as (b' & a' & Hrows & Hb' & Hyear).
    unfold rows in Hrows.
    apply fmap_app_inv in Hrows as (before & rest & -> & Hrest & Hdf).
    destruct rest as [|row0 after]; [done|]. cbn in Hrest. injection Hrest as -> ->.
    exists before, row0, after. split; [done|]. split; [done|].
    intros r Hr Hname.
    assert (r ∈ values df) as Hrdf by (rewrite Hdf; apply elem_of_app; by left).
    assert (row0 ∈ values df) as Hrow0
      by (rewrite Hdf; apply elem_of_app; right; apply list_elem_of_here).
    destruct (is_number (cell_of y r)) eqn:Hnum; [|done]. exfalso.
    apply (Hbefore (fix_year r)).
    + rewrite <- Hb'. apply list_elem_of_filter. split.
      * rewrite (proj1 (Hfix r Hrdf)). by apply coerce_cell_notna.
      * apply list_elem_of_fmap. by exists r.
    + rewrite (proj2 (Hfix r Hrdf)). fold (fix_year row0).
      by rewrite (proj2 (Hfix row0 Hrow0)).
Qed.

Lemma unique_companies_rows_witness :
  exists t,
    @unique_companies decimal_parser table1 = Ok t
    /\ columns t = columns table1
    /\ NoDup (map (cell_of 0) (values t))
    /\ Str "Beta" ∈ map (cell_of 0) (values t).
Proof.
  destruct (@unique_companies_rows decimal_parser table1 0 7)
    as (t & Hrun & Hcols & Hnodup & _ & Hnames & _);
    [repeat constructor|reflexivity|reflexivity|].
  exists t. split; [exact Hrun|]. split; [exact Hcols|]. split; [exact Hnodup|].
  apply Hnames.
  exists [Str "Beta"; Str "Servicios"; Str "Ambiental"; Str "Agua"; Str "Consumo";
          n 4; Str "sin dato"; Str "2005"].
  split; [|split; [reflexivity|by vm_compute]].
  apply list_elem_of_lookup. by exists 2%nat.
Defined.


(** * The flows of the Sankey chart *)

Lemma flow_totals (k1 k2 score : Series) :
  Forall (fun c => is_str c = false) score ->
  groupby2 agg_sum k1 k2 score
  = Ok (map (fun k => (k, Num (Qc_sum (map num_value
                                          (group_values (zip k1 k2) score k)))))
            (group_keys (zip k1 k2))).
Proof.
  intros Hnostr.
  apply (groupby2_total agg_sum (fun l => Num (Qc_sum (map num_value l)))).
  intros k. by apply agg_sum_num_values, group_values_no_str.
Qed.

Lemma elem_of_flow_totals (k1 k2 score : Series) (x y v : cell) :
  (x, y, v) ∈ map (fun k => (k, Num (Qc_sum (map num_value
                                              (group_values (zip k1 k2) score k)))))
                  (group_keys (zip k1 k2))
  <-> (exists i, k1 !! i = Some x /\ k2 !! i = Some y)
      /\ x <> NaN /\ y <> NaN
      /\ v = Num (Qc_sum (map num_value (group_values (zip k1 k2) score (x, y)))).
Proof.
  rewrite list_elem_of_fmap. split.
  - intros ([x' y'] & [= -> -> ->] & Hk).
    apply elem_of_group_keys in Hk as [Hk Hna]. apply elem_of_zip_lookup in Hk.
    cbn in Hna. apply andb_true_iff in Hna as [Hx Hy].
    split; [done|]. split; [by destruct x'|]. split; [by destruct y'|done].
  - intros (Hi & Hx & Hy & ->). exists (x, y). split; [done|].
    apply elem_of_group_keys. split; [by apply elem_of_zip_lookup|].
    cbn. by destruct x, y.
Qed.

(** X28: on a score column without strings the Sankey table of chart 7 is
    built without error, and every flow of it has a value that is a number
    above zero. A pair of a block and a pillar, or of a pillar and a sector,
    is a flow exactly when both labels are not null, some dataset row
    carries both, and the scores of these rows (nulls counting as zero) add
    up to more than zero; the value of the flow is that sum. *)
Theorem sankey_flows_positive (raw : DataFrame) (bloque pilar sector score : Series) :
  getitem raw "Bloque" = Ok bloque ->
  getitem raw "Nombre Pilar" = Ok pilar ->
  getitem raw "Macrosector" = Ok sector ->
  getitem raw "valoracionPonderada" = Ok score ->
  Forall (fun c => is_str c = false) score ->
  let total := fun (k1 k2 : Series) (x y : cell) =>
    Qc_sum (map num_value (group_values (zip k1 k2) score (x, y))) in
  let shared := fun (k1 k2 : Series) (x y : cell) =>
    (exists i, k1 !! i = Some x /\ k2 !! i = Some y) /\ x <> NaN /\ y <> NaN in
  exists flows,
    V3.sankey_data raw = Ok flows
    /\ (forall e, e ∈ flows -> exists q, entry_val e = Num q /\ (0 < q)%Qc)
    /\ (forall x y v,
          (x, y, v) ∈ flows <->
          (shared bloque pilar x y /\ v = Num (total bloque pilar x y)
           /\ (0 < total bloque pilar x y)%Qc)
          \/ (shared pilar sector x y /\ v = Num (total pilar sector x y)
              /\ (0 < total pilar sector x y)%Qc)).
Proof.
  intros Hblo Hpil Hsec Hsco Hnostr total shared.
  set (flow := fun k1 k2 : Series =>
         map (fun k => (k, Num (Qc_sum (map num_value
                                          (group_values (zip k1 k2) score k)))))
             (group_keys (zip k1 k2)) : list entry).
  set (all := flow bloque pilar ++ flow pilar sector).
  assert (forall e, e ∈ all -> exists q, entry_val e = Num q) as Hnum.
  { intros e He. apply elem_of_app in He as [He|He];
      apply list_elem_of_fmap in He as (k & -> & _); cbn; eauto. }
  exists (filter (fun e => bool_decide (positive (entry_val e)) = true) all).
  split; [|split].
  - unfold V3.sankey_data. rewrite Hblo, Hpil, Hsco, Hsec. result_simpl.
    rewrite !flow_totals by done. result_simpl.
    apply filter_rows_total, Forall_forall. intros e He.
    destruct (Hnum e He) as [q Hq]. fold all in He. by rewrite Hq.
  - intros e He. apply list_elem_of_filter in He as [Hpos He].
    apply bool_decide_eq_true in Hpos. destruct (Hnum e He) as [q Hq].
    exists q. split; [done|]. rewrite Hq in Hpos. exact Hpos.
  - intros x y v. rewrite list_elem_of_filter. unfold all. rewrite elem_of_app.
    unfold flow. rewrite !elem_of_flow_totals. cbn [entry_val snd].
    rewrite bool_decide_eq_true. unfold shared, total. split.
    + intros [Hpos [(Hi & Hx & Hy & ->)|(Hi & Hx & Hy & ->)]]; [left|right];
        (split; [done|]); (split; [done|]); exact Hpos.
    + intros [((Hi & Hx & Hy) & -> & Hpos)|((Hi & Hx & Hy) & -> & Hpos)];
        (split; [exact Hpos|]); [left|right]; done.
Qed.

Lemma sankey_flows_positive_witness :
  exists flows,
    V3.sankey_data table1 = Ok flows
    /\ (Str "Ambiental", Str "Agua", n 14) ∈ flows
    /\ forall e, e ∈ flows -> exists q, entry_val e = Num q /\ (0 < q)%Qc.
Proof.
  destruct (sankey_flows_positive table1
              [Str "Ambiental"; Str "Social"; Str "Ambiental"; Str "Social"]
              pilares1 sectors1 scores1)
    as (flows & Hrun & Hpos & Hmem);
    [reflexivity|reflexivity|reflexivity|reflexivity|repeat constructor|].
  exists flows. split; [exact Hrun|]. split; [|exact Hpos].
  apply Hmem. left. split; [|split].
  - split; [by exists 0%nat|]. split; discriminate.
  - unfold n. f_equal. apply Qc_is_canon. by vm_compute.
  - by vm_compute.
Defined.


(** * The leading sector of a variable *)

Section Leaders.

Lemma idxmax_from_spec (l : list (nat * cell)) :
  Forall (fun p => is_str (snd p) = false) l ->
  forall best,
    (idxmax_from best l = Ok (fst <$> best)
     /\ forall i q, (i, Num q) ∈ l -> exists b, best = Some b /\ (q <= snd b)%Qc)
    \/ exists before i q after,
         l = before ++ (i, Num q) :: after
         /\ idxmax_from best l = Ok (Some i)
         /\ (forall b, best = Some b -> (snd b < q)%Qc)
         /\ (forall j q', (j, Num q') ∈ before -> (q' < q)%Qc)
         /\ (forall j q', (j, Num q') ∈ after -> (q' <= q)%Qc).
Proof.
  induction 1 as [|[i c] rest Hc _ IH]; intros best.
  { left. split; [done|]. intros i q Hin. by apply elem_of_nil in Hin. }
  cbn [snd] in Hc. destruct c as [|q|s]; [| |done]; cbn [idxmax_from].
  - destruct (IH best)
      as [[Hrun Hle]|(before & j & q & after & -> & Hrun & Hb & Hbef & Haft)].
    + left. split; [done|]. intros j q Hin.
      apply elem_of_cons in Hin as [[=]|Hin]. by apply (Hle j).
    + right. exists ((i, NaN) :: before), j, q, after.
      split; [done|]. split; [done|]. split; [done|]. split; [|done].
      intros j' q' Hin. apply elem_of_cons in Hin as [[=]|Hin]. by apply (Hbef j').
  - assert (forall b0 : option (nat * Qc),
              (forall b, b0 = Some b -> (snd b < q)%Qc) ->
              exists before i' q' after,
                (i, Num q) :: rest = before ++ (i', Num q') :: after
                /\ idxmax_from (Some (i, q)) rest = Ok (Some i')
                /\ (forall b, b0 = Some b -> (snd b < q')%Qc)
                /\ (forall j q'', (j, Num q'') ∈ before -> (q'' < q')%Qc)
                /\ (forall j q'', (j, Num q'') ∈ after -> (q'' <= q')%Qc)) as Hnew.
    { intros b0 Hb0. destruct (IH (Some (i, q)))
        as [[Hrun Hle]|(before & j & q' & after & -> & Hrun & Hb & Hbef & Haft)].
      - exists [], i, q, rest. split; [done|]. split; [done|]. split; [done|]. split.
        + intros j q' Hin. by apply elem_of_nil in Hin.
        + intros j q' Hin. by destruct (Hle j q' Hin) as (b & [= <-] & Hq).
      - specialize (Hb _ eq_refl). cbn [snd] in Hb.
        exists ((i, Num q) :: before), j, q', after.
        split; [done|]. split; [done|]. split.
        + intros b Heq. eapply Qclt_trans; [by apply Hb0|done].
        + split; [|done]. intros j' q'' Hin.
          apply elem_of_cons in Hin as [[= -> ->]|Hin]; [done|by apply (Hbef j')]. }
    destruct best as [[i0 b]|]; [|right; by apply (Hnew None)].
    unfold Qc_ltb. case_bool_decide as Hlt.
    + right. apply (Hnew (Some (i0, b))). by intros b' [= <-].
    + apply Qcnot_lt_le in Hlt. destruct (IH (Some (i0, b)))
        as [[Hrun Hle]|(before & j & q' & after & -> & Hrun & Hb & Hbef & Haft)].
      * left. split; [done|]. intros j q' Hin.
        apply elem_of_cons in Hin as [[= -> ->]|Hin]; [|by apply (Hle j)].
        by exists (i0, b).
      * right. exists ((i, Num q) :: before), j, q', after.
        split; [done|]. split; [done|]. split; [done|]. split; [|done].
        intros j' q'' Hin.
        apply elem_of_cons in Hin as [[= -> ->]|Hin]; [|by apply (Hbef j')].
        specialize (Hb _ eq_refl). cbn [snd] in Hb. by eapply Qcle_lt_trans.
Qed.

Lemma labelled_lookup (vals : Series) (i j : nat) (c : cell) :
  zip (List.seq 0 (length vals)) vals !! i = Some (j, c) <-> j = i /\ vals !! i = Some c.
Proof.
  split.
  - intros Hl. apply lookup_zip_with_Some in Hl as (x & y & [= -> ->] & Hx & Hy).
    apply lookup_seq in Hx as [-> _]. done.
  - intros [-> Hc]. apply lookup_zip_with_Some. exists i, c. split; [done|].
    split; [|done]. apply lookup_seq. split; [done|]. by eapply lookup_lt_Some.
Qed.

Lemma elem_of_group_labelled {K} `{EqDecision K} (keys : list K) (vals : Series)
    (k : K) (j : nat) (c : cell) :
  (j, c) ∈ group_values keys (zip (List.seq 0 (length vals)) vals) k
  <-> keys !! j = Some k /\ vals !! j = Some c.
Proof.
  rewrite elem_of_group_values. split.
  - intros (i & Hk & Hl). apply labelled_lookup in Hl as [-> Hc]. done.
  - intros [Hk Hc]. exists j. split; [done|]. by apply labelled_lookup.
Qed.

Lemma group_labels_sorted {K} `{EqDecision K} (k : K) (vals : Series) :
  forall (keys : list K) (s : nat),
    let labels := map fst (group_values keys (zip (List.seq s (length vals)) vals) k) in
    Forall (fun j => (s <= j)%nat) labels /\ StronglySorted lt labels.
Proof.
  induction vals as [|v vals IH]; intros [|k0 keys] s; cbn zeta;
    try (split; constructor).
  unfold group_values. cbn [length List.seq zip zip_with]. rewrite filter_cons. cbn [fst].
  destruct (IH keys (S s)) as [Hge Hs]. unfold group_values, zip in Hge, Hs.
  destruct (decide (k0 = k)); cbn [map fst snd].
  - split.
    + constructor; [lia|]. eapply Forall_impl; [exact Hge|]. cbn. lia.
    + constructor; [exact Hs|]. eapply Forall_impl; [exact Hge|]. cbn. lia.
  - split; [|exact Hs]. eapply Forall_impl; [exact Hge|]. cbn. lia.
Qed.

Lemma group_split {K} `{EqDecision K} (keys : list K) (vals : Series) (k : K)
    (before after : list (nat * cell)) (i : nat) (c : cell) :
  group_values keys (zip (List.seq 0 (length vals)) vals) k = before ++ (i, c) :: after ->
  (forall j c', (j, c') ∈ before -> (j < i)%nat)
  /\ (forall j c', (j, c') ∈ after -> (i < j)%nat).
Proof.
  intros Heq. destruct (group_labels_sorted k vals keys 0) as [_ Hs].
  cbn zeta in Hs. rewrite Heq, map_app in Hs. cbn [map fst] in Hs. split.
  - intros j c' Hin.
    apply (StronglySorted_app_1_elem_of lt (map fst before) (i :: map fst after) j i Hs).
    + apply list_elem_of_fmap. by exists (j, c').
    + apply list_elem_of_here.
  - intros j c' Hin. apply StronglySorted_app_1_r in Hs.
    apply StronglySorted_inv in Hs as [_ Hall]. rewrite Forall_forall in Hall.
    apply Hall. apply list_elem_of_fmap. by exists (j, c').
Qed.

Lemma idxmax_leads (rows : list agg_row) (k : cell * cell) :
  Forall (fun r => is_str (agg_value r) = false) rows ->
  let group := group_values (map agg_pair rows)
                 (zip (List.seq 0 (length rows)) (map agg_value rows)) k in
  (idxmax group = Ok None
   /\ forall r, r ∈ rows -> agg_pair r = k -> agg_value r = NaN)
  \/ exists i, idxmax group = Ok (Some i) /\ leads rows k i.
Proof.
  intros Hnostr group.
  assert (length rows = length (map agg_value rows)) as Hlen by by rewrite length_map.
  assert (forall j c, (j, c) ∈ group <->
            exists r, rows !! j = Some r /\ agg_pair r = k /\ agg_value r = c) as Hgroup.
  { intros j c. unfold group. rewrite Hlen, elem_of_group_labelled.
    rewrite !list_lookup_fmap. split.
    - intros [Hk Hc]. destruct (rows !! j) as [r|]; [|done]. cbn in Hk, Hc.
      exists r. split; [done|]. split; congruence.
    - intros (r & -> & <- & <-). done. }
  assert (Forall (fun p => is_str (snd p) = false) group) as Hgs.
  { apply Forall_forall. intros [j c] Hin. apply Hgroup in Hin as (r & Hr & _ & <-).
    rewrite Forall_forall in Hnostr. apply Hnostr. by eapply list_elem_of_lookup_2. }
  destruct (idxmax_from_spec group Hgs None)
    as [[Hrun Hle]|(before & i & q & after & Heq & Hrun & _ & Hbef & Haft)].
  - left. split; [exact Hrun|]. intros r Hr Hk.
    apply list_elem_of_lookup in Hr as [j Hj].
    rewrite Forall_forall in Hnostr.
    pose proof (Hnostr r (list_elem_of_lookup_2 _ _ _ Hj)) as Hs.
    destruct (agg_value r) as [|q|s] eqn:Hv; [done| |done].
    destruct (Hle j q) as (b & Hb & _); [|done]. apply Hgroup. by exists r.
  - right. exists i. split; [exact Hrun|].
    assert ((i, Num q) ∈ group) as Hi.
    { rewrite Heq. apply elem_of_app. right. apply list_elem_of_here. }
    apply Hgroup in Hi as (r & Hr & Hk & Hv).
    exists r, q. split; [done|]. split; [done|]. split; [done|].
    intros j r' q' Hr' Hk' Hv'.
    assert ((j, Num q') ∈ group) as Hj by (apply Hgroup; by exists r').
    pose proof Heq as Hsplit. unfold group in Hsplit. rewrite Hlen in Hsplit.
    destruct (group_split _ _ _ _ _ _ _ Hsplit) as [Hlt Hgt].
    rewrite Heq in Hj.
    apply elem_of_app in Hj as [Hj|Hj].
    + split; [|intros _; by apply (Hbef j)]. apply Qclt_le_weak. by apply (Hbef j).
    + apply elem_of_cons in Hj as [[= -> ->]|Hj].
      * split; [apply Qcle_refl|lia].
      * split; [by apply (Haft j)|]. intros Hji. specialize (Hgt j _ Hj). lia.
Qed.

Lemma mapM_exists {A B} (f : A -> result B) (P : A -> B -> Prop) (l : list A) :
  (forall x, x ∈ l -> exists y, f x = Ok y /\ P x y) ->
  exists k, mapM f l = Ok k /\ Forall2 P l k.
Proof.
  induction l as [|x l IH]; intros Hall.
  { exists []. split; [done|constructor]. }
  destruct (Hall x) as (y & Hy & Hp); [apply list_elem_of_here|].
  destruct IH as (k & Hk & Hf); [intros x' Hx'; apply Hall; by right|].
  exists (y :: k). split; [|by constructor].
  apply mapM_Ok. constructor; [done|]. by apply mapM_Ok.
Qed.

Lemma idx_leads (rows : list agg_row) :
  Forall (fun r => is_str (agg_value r) = false) rows ->
  exists labels,
    idx rows = Ok labels
    /\ Forall2 (labelled rows) (group_keys (map agg_pair rows)) labels.
Proof.
  intros Hnostr. unfold idx. apply mapM_exists. intros k _.
  destruct (idxmax_leads rows k Hnostr) as [[Hrun Hnan]|(i & Hrun & Hi)].
  - by exists None.
  - by exists (Some i).
Qed.

Lemma loc_leaders (rows : list agg_row) (ks : list (cell * cell))
    (labels : list (option nat)) :
  Forall2 (labelled rows) ks labels ->
  (forall k, k ∈ ks -> exists r, r ∈ rows /\ agg_pair r = k /\ agg_value r <> NaN) ->
  exists picked,
    loc rows labels = Some picked
    /\ Forall2 (fun k r => exists i, leads rows k i /\ rows !! i = Some r) ks picked.
Proof.
  unfold loc. induction 1 as [|k label ks labels Hk _ IH]; intros Hnum.
  { exists []. split; [done|constructor]. }
  destruct IH as (picked & Hrun & Hall); [intros k' Hk'; apply Hnum; by right|].
  destruct label as [i|]; cbn [labelled] in Hk.
  - destruct Hk as (r & q & Hr & Hrest). exists (r :: picked). split.
    + cbn [mapM]. cbn [mbind option_bind]. rewrite Hr. cbn. rewrite Hrun. done.
    + constructor; [|done]. exists i. split; [|done]. by exists r, q.
  - destruct (Hnum k) as (r & Hr & Hp & Hv); [apply list_elem_of_here|].
    by specialize (Hk r Hr Hp).
Qed.

Lemma loc_fails (rows : list agg_row) (ks : list (cell * cell))
    (labels : list (option nat)) (k : cell * cell) :
  Forall2 (labelled rows) ks labels ->
  k ∈ ks ->
  (forall r, r ∈ rows -> agg_pair r = k -> agg_value r = NaN) ->
  loc rows labels = None.
Proof.
  intros Hall Hk Hnan. unfold loc. apply mapM_None_2.
  apply list_elem_of_lookup in Hk as [n Hn].
  destruct (Forall2_lookup_l _ _ _ _ _ Hall Hn) as (label & Hlabel & Hspec).
  apply Exists_exists. exists label. split; [by eapply list_elem_of_lookup_2|].
  destruct label as [i|]; [|done]. cbn [labelled] in Hspec.
  destruct Hspec as (r & q & Hr & Hp & Hv & _).
  rewrite (Hnan r) in Hv; [done| |done]. by eapply list_elem_of_lookup_2.
Qed.

Lemma df_agg_run (raw : DataFrame) (pilar variable sector score : Series) :
  getitem raw "Nombre Pilar" = Ok pilar ->
  getitem raw "Variable" = Ok variable ->
  getitem raw "Macrosector" = Ok sector ->
  getitem raw "valoracionPonderada" = Ok score ->
  Forall (fun c => is_str c = false) score ->
  df_agg raw
  = Ok (map (fun k => (k, mean_cell (group_values (zip (zip pilar variable) sector)
                                                  score k)))
            (group_keys (zip (zip pilar variable) sector))).
Proof.
  intros Hpil Hvar Hsec Hsco Hnostr. unfold df_agg.
  rewrite Hpil, Hvar, Hsec, Hsco. result_simpl.
  apply mapM_total, Forall_forall. intros k _.
  rewrite agg_mean_no_str by by apply group_values_no_str. done.
Qed.

Lemma zip_agg_pair (agg : list agg_row) :
  zip (map (fun r => fst (agg_pair r)) agg) (map (fun r => snd (agg_pair r)) agg)
  = map agg_pair agg.
Proof.
  induction agg as [|r agg IH]; [done|]. cbn [map zip_with]. rewrite IH.
  by destruct (agg_pair r).
Qed.

Lemma elem_of_merge_on_pair (left : list entry) (right : list (cell * cell * cell))
    (e : entry) (s : cell) :
  (e, s) ∈ merge_on_pair left right <-> e ∈ left /\ (fst e, s) ∈ right.
Proof.
  unfold merge_on_pair. rewrite list_elem_of_In, in_flat_map. split.
  - intros (e' & He' & Hin). apply list_elem_of_In in He', Hin.
    apply list_elem_of_fmap in Hin as ([k s'] & [= -> ->] & Hp).
    apply list_elem_of_filter in Hp as [Hk Hp]. cbn in Hk. subst k. done.
  - intros [He Hp]. exists e. split; [by apply list_elem_of_In|].
    apply list_elem_of_In, list_elem_of_fmap. exists (fst e, s).
    split; [done|]. by apply list_elem_of_filter.
Qed.

Lemma plot_rows (raw : DataFrame) (agg : list agg_row) :
  df_agg raw = Ok agg ->
  Forall (fun r => is_str (agg_value r) = false) agg ->
  (forall r, r ∈ agg -> exists w, snd (agg_pair r) = Str w) ->
  let ks := group_keys (map agg_pair agg) in
  let value := fun k =>
    mean_cell (group_values (map agg_pair agg) (map agg_value agg) k) in
  ((forall k, k ∈ ks -> exists r, r ∈ agg /\ agg_pair r = k /\ agg_value r <> NaN) ->
   exists rows,
     df_plot_data raw = Ok (Some rows)
     /\ (forall row, row ∈ rows ->
           exists k w i r,
             k ∈ ks /\ snd k = Str w /\ leads agg k i /\ agg !! i = Some r
             /\ row = mkLeaderRow (fst k) (wrap_text w 30) (value k) (agg_sector r))
     /\ (forall k, k ∈ ks ->
           exists row w, row ∈ rows /\ snd k = Str w
                         /\ leader_pilar row = fst k
                         /\ leader_variable row = wrap_text w 30))
  /\ (forall k, k ∈ ks ->
        (forall r, r ∈ agg -> agg_pair r = k -> agg_value r = NaN) ->
        df_plot_data raw = Ok None).
Proof.
  intros Hagg Hnostr Hstr ks value.
  destruct (idx_leads agg Hnostr) as (labels & Hidx & Hlab). fold ks in Hlab.
  split.
  2:{ intros k Hk Hnan. unfold df_plot_data. rewrite Hagg. result_simpl.
      rewrite Hidx. result_simpl. by rewrite (loc_fails agg ks labels k Hlab Hk Hnan). }
  intros Hnum.
  destruct (loc_leaders agg ks labels Hlab Hnum) as (picked & Hloc & Hpicked).
  set (plot := map (fun k => (k, value k)) ks : list entry).
  assert (groupby2 agg_mean (map (fun r => fst (agg_pair r)) agg)
            (map (fun r => snd (agg_pair r)) agg) (map agg_value agg) = Ok plot)
    as Hplot.
  { rewrite (groupby2_total agg_mean mean_cell); [by rewrite zip_agg_pair|].
    intros k. apply agg_mean_no_str, group_values_no_str.
    by apply Forall_fmap. }
  set (leaders := map (fun r => (agg_pair r, agg_sector r)) picked).
  assert (forall k, k ∈ ks -> exists w, snd k = Str w) as Hks.
  { intros k Hk. apply elem_of_group_keys in Hk as [Hk _].
    apply list_elem_of_fmap in Hk as (r & -> & Hr). by apply Hstr. }
  assert (forall k s, (k, s) ∈ leaders <->
            exists r, r ∈ picked /\ agg_pair r = k /\ agg_sector r = s) as Hleaders.
  { intros k s. unfold leaders. rewrite list_elem_of_fmap. split.
    - intros (r & [= -> ->] & Hr). by exists r.
    - intros (r & Hr & <- & <-). by exists r. }
  assert (forall r, r ∈ picked ->
            exists i, agg_pair r ∈ ks /\ leads agg (agg_pair r) i /\ agg !! i = Some r)
    as Hpick.
  { intros r Hr. apply list_elem_of_lookup in Hr as [n Hn].
    destruct (Forall2_lookup_r _ _ _ _ _ Hpicked Hn) as (k & Hk & i & Hi & Hr).
    destruct Hi as (r0 & q & Hr0 & Hp & Hrest).
    assert (r0 = r) as -> by congruence. subst k.
    exists i. split; [by eapply list_elem_of_lookup_2|]. split; [|done].
    by exists r, q. }
  destruct (mapM_exists
              (fun m : entry * cell =>
                 variable ← V3.wrap_label 30 (entry_col (fst m));
                 mret (mkLeaderRow (entry_row (fst m)) variable
                                   (entry_val (fst m)) (snd m)))
              (fun m row =>
                 exists w, entry_col (fst m) = Str w
                   /\ row = mkLeaderRow (entry_row (fst m)) (wrap_text w 30)
                                        (entry_val (fst m)) (snd m))
              (merge_on_pair plot leaders)) as (rows & Hrows & Hrel).
  { intros [e s] Hm. apply elem_of_merge_on_pair in Hm as [He _].
    apply list_elem_of_fmap in He as (k & -> & Hk).
    destruct (Hks k Hk) as [w Hw]. unfold entry_col, entry_row, entry_val; cbn [fst snd].
    rewrite Hw. cbn [V3.wrap_label]. result_simpl. eauto. }
  exists rows. split; [|split].
  - unfold df_plot_data. rewrite Hagg. result_simpl. rewrite Hidx. result_simpl.
    rewrite Hloc, Hplot. result_simpl. fold leaders. rewrite Hrows. done.
  - intros row Hrow. apply list_elem_of_lookup in Hrow as [n Hn].
    destruct (Forall2_lookup_r _ _ _ _ _ Hrel Hn) as ([e s] & Hm & w & Hw & ->).
    apply list_elem_of_lookup_2, elem_of_merge_on_pair in Hm as [He Hs].
    apply list_elem_of_fmap in He as (k & -> & Hk).
    unfold entry_col, entry_row, entry_val in *; cbn [fst snd] in *.
    apply Hleaders in Hs as (r & Hr & Hp & <-).
    destruct (Hpick r Hr) as (i & _ & Hi & Hlook). rewrite Hp in Hi.
    exists k, w, i, r. done.
  - intros k Hk. destruct (Hks k Hk) as [w Hw].
    apply list_elem_of_lookup in Hk as [n Hn].
    destruct (Forall2_lookup_l _ _ _ _ _ Hpicked Hn) as (r & Hr & i & Hi & Hlook).
    assert (agg_pair r = k) as Hp.
    { destruct Hi as (r0 & q & Hr0 & Hp & _). congruence. }
    assert (((k, value k), agg_sector r) ∈ merge_on_pair plot leaders) as Hm.
    { apply elem_of_merge_on_pair. split.
      - apply list_elem_of_fmap. exists k. split; [done|]. by eapply list_elem_of_lookup_2.
      - apply Hleaders. exists r. split; [by eapply list_elem_of_lookup_2|done]. }
    apply list_elem_of_lookup in Hm as [m Hm].
    destruct (Forall2_lookup_l _ _ _ _ _ Hrel Hm) as (row & Hrow & w' & Hw' & ->).
    unfold entry_col, entry_row, entry_val in *; cbn [fst snd] in *.
    exists (mkLeaderRow (fst k) (wrap_text w' 30) (value k) (agg_sector r)), w'.
    split; [by eapply list_elem_of_lookup_2|]. done.
Qed.

Lemma group_values_by {A K V} `{EqDecision K} (f : A -> K) (g : A -> V)
    (rows : list A) (k : K) :
  group_values (map f rows) (map g rows) k = map g (filter (fun r => f r = k) rows).
Proof.
  unfold group_values. induction rows as [|r rows IH]; [done|].
  cbn [map zip_with]. rewrite !filter_cons. cbn [fst].
  destruct (decide (f r = k)); cbn [map snd]; by rewrite IH.
Qed.

Lemma elem_of_group_keys3 (pilar variable sector : Series) (p v s : cell) :
  (p, v, s) ∈ group_keys (zip (zip pilar variable) sector)
  <-> grouped pilar variable sector p v s.
Proof.
  rewrite elem_of_group_keys. unfold grouped. cbn [key_notna pair_GroupKey cell_GroupKey fst snd].
  rewrite elem_of_zip_lookup. split.
  - intros [(i & Hpv & Hs) Hna].
    apply andb_true_iff in Hna as [Hna Hs']. apply andb_true_iff in Hna as [Hp' Hv'].
    split; [|by destruct p, v, s]. exists i.
    apply lookup_zip_with_Some in Hpv as (x & y & [= -> ->] & ? & ?). done.
  - intros [(i & Hp & Hv & Hs) (Hp' & Hv' & Hs')]. split; [|by destruct p, v, s].
    exists i. split; [|done]. apply lookup_zip_with_Some. eauto.
Qed.

Lemma agg_facts (pilar variable sector score : Series) :
  Forall (fun c => is_str c = false) score ->
  (forall c, c ∈ variable -> c = NaN \/ exists w, c = Str w) ->
  let agg : list agg_row :=
    map (fun k => (k, mean_cell (group_values (zip (zip pilar variable) sector)
                                              score k)))
        (group_keys (zip (zip pilar variable) sector)) in
  Forall (fun r => is_str (agg_value r) = false) agg
  /\ (forall r, r ∈ agg -> exists w, snd (agg_pair r) = Str w)
  /\ (forall r, r ∈ agg <->
         exists p v s, grouped pilar variable sector p v s
                       /\ r = (p, v, s, mean_of pilar variable sector score p v s))
  /\ (forall k, k ∈ group_keys (map agg_pair agg) <->
         exists s, grouped pilar variable sector (fst k) (snd k) s)
  /\ (forall i j r r', agg !! i = Some r -> agg !! j = Some r' -> (i < j)%nat ->
         key_le (fst r) (fst r')).
Proof.
  intros Hnostr Hstrs agg.
  assert (forall r, r ∈ agg <->
            exists p v s, grouped pilar variable sector p v s
                          /\ r = (p, v, s, mean_of pilar variable sector score p v s))
    as Hagg.
  { intros r. unfold agg. rewrite list_elem_of_fmap. split.
    - intros ([[p v] s] & -> & Hk). apply elem_of_group_keys3 in Hk. by exists p, v, s.
    - intros (p & v & s & Hg & ->). exists (p, v, s). split; [done|].
      by apply elem_of_group_keys3. }
  split; [|split; [|split; [done|split]]].
  - apply Forall_forall. intros r Hr. apply Hagg in Hr as (p & v & s & _ & ->).
    unfold agg_value, mean_of, mean_cell. cbn [snd]. by destruct (group_mean _).
  - intros r Hr. apply Hagg in Hr as (p & v & s & Hg & ->).
    unfold agg_pair. cbn [fst snd]. destruct Hg as [(i & _ & Hv & _) (_ & Hna & _)].
    destruct (Hstrs v) as [->|Hw]; [by eapply list_elem_of_lookup_2|done|done].
  - intros [p v]. rewrite elem_of_group_keys, list_elem_of_fmap. cbn [fst snd]. split.
    + intros [(r & Hp & Hr) _]. apply Hagg in Hr as (p' & v' & s & Hg & ->).
      unfold agg_pair in Hp. cbn [fst] in Hp. injection Hp as -> ->. by exists s.
    + intros [s Hg]. split.
      * exists (p, v, s, mean_of pilar variable sector score p v s). split; [done|].
        apply Hagg. by exists p, v, s.
      * destruct Hg as [_ (Hp & Hv & _)]. cbn. by destruct p, v.
  - intros i j r r' Hi Hj Hlt. unfold agg in Hi, Hj.
    rewrite list_lookup_fmap in Hi, Hj.
    destruct (group_keys (zip (zip pilar variable) sector) !! i) as [k|] eqn:Hk; [|done].
    destruct (group_keys (zip (zip pilar variable) sector) !! j) as [k'|] eqn:Hk'; [|done].
    cbn in Hi, Hj. injection Hi as <-. injection Hj as <-. cbn [fst].
    apply (sorted_lookup key_le (group_keys (zip (zip pilar variable) sector)) i j);
      [apply group_keys_sorted|done|done|done].
Qed.

End Leaders.



(** X30: the value of a bar of chart 16 (and of a point of chart 17) is the
    mean of the sector means of its pillar and variable: every sector of the
    pair counts once, however many rows it has, and sectors whose mean is
    null are skipped. *)
Theorem mean_of_sector_means (raw : DataFrame) (pilar variable sector score : Series) :
  getitem raw "Nombre Pilar" = Ok pilar ->
  getitem raw "Variable" = Ok variable ->
  getitem raw "Macrosector" = Ok sector ->
  getitem raw "valoracionPonderada" = Ok score ->
  Forall (fun c => is_str c = false) score ->
  (forall c, c ∈ variable -> c = NaN \/ exists w, c = Str w) ->
  (forall p v s, grouped pilar variable sector p v s ->
     exists s', grouped pilar variable sector p v s'
                /\ mean_of pilar variable sector score p v s' <> NaN) ->
  exists rows,
    df_plot_data raw = Ok (Some rows)
    /\ forall row, row ∈ rows ->
         exists w sectors,
           leader_variable row = wrap_text w 30
           /\ NoDup sectors
           /\ (forall s, s ∈ sectors <->
                 grouped pilar variable sector (leader_pilar row) (Str w) s)
           /\ leader_value row
              = mean_cell (map (mean_of pilar variable sector score
                                  (leader_pilar row) (Str w)) sectors).
Proof.
  intros Hpil Hvar Hsec Hsco Hnostr Hstrs Hnum.
  pose proof (df_agg_run raw pilar variable sector score Hpil Hvar Hsec Hsco Hnostr)
    as Hagg.
  destruct (agg_facts pilar variable sector score Hnostr Hstrs)
    as (F1 & F2 & F3 & F4 & F5).
  set (agg := map (fun k => (k, mean_cell (group_values (zip (zip pilar variable) sector)
                                                        score k)))
                  (group_keys (zip (zip pilar variable) sector)) : list agg_row) in *.
  destruct (plot_rows raw agg Hagg F1 F2) as [Hok _].
  destruct Hok as (rows & Hrun & Hrows & _).
  { intros [p v] Hk. apply F4 in Hk as [s Hs]. cbn [fst snd] in Hs.
    destruct (Hnum p v s Hs) as (s' & Hs' & Hm).
    exists (p, v, s', mean_of pilar variable sector score p v s').
    split; [apply F3; by exists p, v, s'|]. done. }
  exists rows. split; [done|]. intros row Hrow.
  destruct (Hrows row Hrow) as ([p v] & w & i & r & Hk & Hw & _ & _ & ->).
  cbn [fst snd] in Hw. subst v. cbn [leader_pilar leader_variable leader_value fst].
  set (mine := filter (fun r : agg_row => agg_pair r = (p, Str w)) agg).
  assert (forall r, r ∈ mine <->
            exists s, grouped pilar variable sector p (Str w) s
                      /\ r = (p, Str w, s, mean_of pilar variable sector score p (Str w) s))
    as Hmine.
  { intros r'. unfold mine. rewrite list_elem_of_filter, F3. split.
    - intros (Hp & p' & v' & s & Hg & ->). unfold agg_pair in Hp. cbn [fst] in Hp.
      injection Hp as -> ->. by exists s.
    - intros (s & Hg & ->). split; [done|]. by exists p, (Str w), s. }
  exists w, (map agg_sector mine). split; [done|]. split; [|split].
  - apply NoDup_fmap_2_strong.
    + intros r1 r2 H1 H2 Hs. apply Hmine in H1 as (s1 & _ & ->), H2 as (s2 & _ & ->).
      unfold agg_sector in Hs. cbn [fst snd] in Hs. by subst s2.
    + apply NoDup_filter. unfold agg. apply NoDup_fmap_2; [|apply NoDup_group_keys].
      by intros k1 k2 [= ->].
  - intros s. rewrite list_elem_of_fmap. split.
    + intros (r' & -> & Hr'). by apply Hmine in Hr' as (s & Hg & ->).
    + intros Hg. exists (p, Str w, s, mean_of pilar variable sector score p (Str w) s).
      split; [done|]. apply Hmine. by exists s.
  - f_equal. rewrite (group_values_by agg_pair agg_value agg (p, Str w)). fold mine.
    rewrite map_map. apply map_ext_in. intros r' Hr'%list_elem_of_In.
    by apply Hmine in Hr' as (s & _ & ->).
Qed.

Lemma mean_of_sector_means_witness :
  exists rows,
    df_plot_data table1 = Ok (Some rows)
    /\ forall row, row ∈ rows ->
         exists w sectors,
           leader_variable row = wrap_text w 30
           /\ NoDup sectors
           /\ (forall s, s ∈ sectors <->
                 grouped pilares1 variables1 sectors1 (leader_pilar row) (Str w) s)
           /\ leader_value row
              = mean_cell (map (mean_of pilares1 variables1 sectors1 scores1
                                  (leader_pilar row) (Str w)) sectors).
Proof.
  apply (mean_of_sector_means table1 pilares1 variables1 sectors1 scores1);
    [reflexivity|reflexivity|reflexivity|reflexivity|repeat constructor| |].
  - intros c Hc. right.
    repeat (apply elem_of_cons in Hc as [->|Hc]; [by eexists|]).
    by apply elem_of_nil in Hc.
  - intros p v s [(i & Hp & Hv & Hs) _]. exists (Str "Servicios").
    destruct i as [|[|[|[|i]]]]; cbn in Hp, Hv, Hs; try discriminate;
      injection Hp as <-; injection Hv as <-;
      (split; [split; [|split; [|split]; discriminate]|by vm_compute]).
    + by exists 2%nat.
    + by exists 3%nat.
    + by exists 2%nat.
    + by exists 3%nat.
Defined.
